(** * internal-secrets-operator: the reconciliation engine, in Rocq

    A shallow embedding of the Go sources

      - [internal/controller/secret_controller.go]  (the reconciler),
      - [pkg/config/maintenance_window.go]          (maintenance windows),
      - package [generator]                         (the value generator),

    followed by the statements the specification makes about them.

    Conventions.  A Go [string] and a Go [[]byte] are both sequences of
    bytes and are both modelled by [string].  A Go [map[string]T] is a
    [gmap string T]; a [nil] map and an empty map read alike.  Go's [int],
    [int64] and [time.Duration] are [Z], with 64-bit wrap-around and
    saturation written out where the source can reach them.  A function
    returning [(T, error)] returns [option T] or a sum. *)

From Stdlib Require Import ZArith Ascii String List Bool Lia.
From stdpp Require Import base option list gmap strings.

Import ListNotations.
Local Open Scope string_scope.
Local Open Scope Z_scope.

(** ** Go's [strings] and [strconv], as far as the sources use them *)

Module GoStrings.

Definition byteOf (c : ascii) : Z := Z.of_N (N_of_ascii c).

(** [strings.Split(s, sep)] for a one-byte separator, the only kind the
    sources pass ([","] and [":"]).  The result is never empty:
    [Split("", ",")] is the one-element slice holding [""]. *)
Fixpoint Split (s : string) (sep : ascii) : list string :=
  match s with
  | EmptyString => [EmptyString]
  | String c r =>
      if Ascii.eqb c sep then EmptyString :: Split r sep
      else match Split r sep with
           | [] => [String c EmptyString]
           | p :: ps => String c p :: ps
           end
  end.

(** One white-space rune at the head of a byte sequence, as
    [unicode.IsSpace] sees it after UTF-8 decoding: the six ASCII
    blanks, U+0085, U+00A0, U+1680, U+2000..U+200A, U+2028, U+2029,
    U+202F, U+205F and U+3000.  Returns what follows the rune. *)
Definition dropSpaceRune (bs : list Z) : option (list Z) :=
  match bs with
  | 9 :: r | 10 :: r | 11 :: r | 12 :: r | 13 :: r | 32 :: r => Some r
  | 194 :: 133 :: r | 194 :: 160 :: r => Some r
  | 225 :: 154 :: 128 :: r => Some r
  | 226 :: 128 :: b :: r =>
      if ((128 <=? b) && (b <=? 138)) || (b =? 168) || (b =? 169) || (b =? 175)
      then Some r else None
  | 226 :: 129 :: 159 :: r => Some r
  | 227 :: 128 :: 128 :: r => Some r
  | _ => None
  end.

(** The same rune read backwards from the end of the sequence (the
    argument is the reversed byte sequence). *)
Definition dropSpaceRuneRev (bs : list Z) : option (list Z) :=
  match bs with
  | 9 :: r | 10 :: r | 11 :: r | 12 :: r | 13 :: r | 32 :: r => Some r
  | 133 :: 194 :: r | 160 :: 194 :: r => Some r
  | 128 :: 154 :: 225 :: r => Some r
  | b :: 128 :: 226 :: r =>
      if ((128 <=? b) && (b <=? 138)) || (b =? 168) || (b =? 169) || (b =? 175)
      then Some r else None
  | 159 :: 129 :: 226 :: r => Some r
  | 128 :: 128 :: 227 :: r => Some r
  | _ => None
  end.

(** Strip runes from the head while [drop] accepts one.  Every accepted
    rune is at least one byte long, so the length of the input bounds
    the number of rounds. *)
Fixpoint stripWhile (drop : list Z -> option (list Z)) (fuel : nat)
    (bs : list Z) : list Z :=
  match fuel with
  | O => bs
  | S k => match drop bs with
           | Some r => stripWhile drop k r
           | None => bs
           end
  end.

Definition bytesOf (s : string) : list Z :=
  List.map byteOf (list_ascii_of_string s).

Definition ofBytes (bs : list Z) : string :=
  string_of_list_ascii (List.map (fun b => ascii_of_N (Z.to_N b)) bs).

(** [strings.TrimSpace]: leading, then trailing white-space runes. *)
Definition TrimSpace (s : string) : string :=
  let bs := bytesOf s in
  let front := stripWhile dropSpaceRune (length bs) bs in
  let back := stripWhile dropSpaceRuneRev (length front) (List.rev front) in
  ofBytes (List.rev back).

Definition maxInt64 : Z := 9223372036854775807.
Definition minInt64 : Z := -9223372036854775808.

Definition digitVal (c : ascii) : option Z :=
  let n := byteOf c in
  if (48 <=? n) && (n <=? 57) then Some (n - 48) else None.

Fixpoint parseDigits (acc : Z) (s : string) : option Z :=
  match s with
  | EmptyString => Some acc
  | String c r =>
      match digitVal c with
      | Some d => parseDigits (acc * 10 + d) r
      | None => None
      end
  end.

(** [strconv.Atoi] on a 64-bit platform: an optional sign, then one or
    more decimal digits, the value within [int64]; [None] stands for
    any non-nil error (syntax or range). *)
Definition Atoi (s : string) : option Z :=
  let '(neg, body) :=
    match s with
    | String "-"%char r => (true, r)
    | String "+"%char r => (false, r)
    | _ => (false, s)
    end in
  match body with
  | EmptyString => None
  | _ =>
      match parseDigits 0 body with
      | Some n =>
          let v := if neg then - n else n in
          if (minInt64 <=? v) && (v <=? maxInt64) then Some v else None
      | None => None
      end
  end.

End GoStrings.

Import GoStrings.

(** ** Go's [time], as far as the sources use it

    A [Time] is an instant, counted in nanoseconds from the Unix epoch,
    together with the [Location] its civil reading is taken in.  A
    [Duration] is a signed 64-bit count of nanoseconds. *)

Module GoTime.

Definition Nanosecond : Z := 1.
Definition Second : Z := 1000000000.
Definition Minute : Z := 60 * Second.
Definition Hour : Z := 60 * Minute.

(** Two's-complement reduction to 64 bits, for [Duration] arithmetic. *)
Definition wrap64 (z : Z) : Z := (z + 2 ^ 63) mod 2 ^ 64 - 2 ^ 63.

(** [a - b] on two [Duration]s. *)
Definition durSub (a b : Z) : Z := wrap64 (a - b).

(** A zone: [lookup sec] gives the offset east of UTC in force at the
    instant [sec] (Unix seconds) and the half-open range of instants
    [start, end) over which that offset stays in force. *)
Record Location := { zoneName : string; lookup : Z -> Z * Z * Z }.

Definition alpha : Z := - 2 ^ 63.
Definition omega : Z := 2 ^ 63 - 1.

Definition FixedZone (name : string) (offset : Z) : Location :=
  {| zoneName := name; lookup := fun _ => (offset, alpha, omega) |}.

Definition UTC : Location := FixedZone "UTC" 0.

Record Time := { unixNano : Z; location : Location }.

(** The instant of [time.Time{}]: 1 January of year 1, 00:00:00 UTC. *)
Definition zeroUnix : Z := -62135596800.

Definition zeroTime : Time := {| unixNano := zeroUnix * Second; location := UTC |}.

Definition Unix (t : Time) : Z := unixNano t / Second.

Definition IsZero (t : Time) : bool := unixNano t =? zeroUnix * Second.

Definition Before (t u : Time) : bool := unixNano t <? unixNano u.

(** [t.Sub(u)] saturates at the ends of the [Duration] range. *)
Definition Sub (t u : Time) : Z :=
  let d := unixNano t - unixNano u in
  if d <? minInt64 then minInt64
  else if maxInt64 <? d then maxInt64
  else d.

Definition In (t : Time) (loc : Location) : Time :=
  {| unixNano := unixNano t; location := loc |}.

Definition zoneOffset (t : Time) : Z :=
  let '(offset, _, _) := lookup (location t) (Unix t) in offset.

(** Seconds of civil time elapsed since 1970-01-01 00:00:00 on the wall
    clock of [t]'s location. *)
Definition localSeconds (t : Time) : Z := Unix t + zoneOffset t.

(** [time.Weekday]: Sunday is 0.  Day 0 of the Unix era was a Thursday. *)
Definition Weekday (t : Time) : Z := (localSeconds t / 86400 + 4) mod 7.

Definition HourOf (t : Time) : Z := (localSeconds t mod 86400) / 3600.
Definition MinuteOf (t : Time) : Z := (localSeconds t mod 3600) / 60.
Definition SecondOf (t : Time) : Z := localSeconds t mod 60.
Definition NanosecondOf (t : Time) : Z := unixNano t mod Second.

(** Proleptic Gregorian calendar: day number (days since 1970-01-01) of a
    civil date, linear in the day of the month so that an out-of-range day
    runs over into the neighbouring months as [time.Date] normalises it. *)
Definition daysFromCivil (y m d : Z) : Z :=
  let y' := if m <=? 2 then y - 1 else y in
  let era := y' / 400 in
  let yoe := y' - era * 400 in
  let mp := if 2 <? m then m - 3 else m + 9 in
  let doy := (153 * mp + 2) / 5 + d - 1 in
  let doe := yoe * 365 + yoe / 4 - yoe / 100 + doy in
  era * 146097 + doe - 719468.

Definition civilFromDays (z : Z) : Z * Z * Z :=
  let z' := z + 719468 in
  let era := z' / 146097 in
  let doe := z' - era * 146097 in
  let yoe := (doe - doe / 1460 + doe / 36524 - doe / 146096) / 365 in
  let doy := doe - (365 * yoe + yoe / 4 - yoe / 100) in
  let mp := (5 * doy + 2) / 153 in
  let d := doy - (153 * mp + 2) / 5 + 1 in
  let m := if mp <? 10 then mp + 3 else mp - 9 in
  let y := yoe + era * 400 in
  (if m <=? 2 then y + 1 else y, m, d).

Definition DateOf (t : Time) : Z * Z * Z := civilFromDays (localSeconds t / 86400).
Definition YearOf (t : Time) : Z := let '(y, _, _) := DateOf t in y.
Definition MonthOf (t : Time) : Z := let '(_, m, _) := DateOf t in m.
Definition DayOf (t : Time) : Z := let '(_, _, d) := DateOf t in d.

(** [time.Date(year, month, day, hour, min, sec, nsec, loc)].  The month is
    normalised into 1..12 first; the civil reading is then turned into an
    instant with the offset found at it, corrected once when the reading
    falls outside the range that offset is in force for. *)
Definition Date (year month day hour min sec nsec : Z) (loc : Location) : Time :=
  let m := month - 1 in
  let year := year + m / 12 in
  let month := m mod 12 + 1 in
  let unix := daysFromCivil year month day * 86400 + hour * 3600 + min * 60 + sec in
  let '(offset, start, stop) := lookup loc unix in
  let unix :=
    if offset =? 0 then unix
    else
      let utc := unix - offset in
      let offset :=
        if (utc <? start) || (stop <=? utc)
        then let '(o, _, _) := lookup loc utc in o
        else offset in
      unix - offset in
  {| unixNano := unix * Second + nsec; location := loc |}.

Definition AddDate (t : Time) (years months days : Z) : Time :=
  Date (YearOf t + years) (MonthOf t + months) (DayOf t + days)
       (HourOf t) (MinuteOf t) (SecondOf t) (NanosecondOf t) (location t).

(** A location whose offset from UTC is the same at every instant, as
    that of [UTC] and of every [FixedZone]. *)
Definition constantOffset (loc : Location) (offset : Z) : Prop :=
  forall sec, fst (fst (lookup loc sec)) = offset.

(** The calendar within one era of 400 years: for the day [doe] of the
    era, the year of the era is within 0..399, the month (counted from
    March) within 0..11, the day of the month within 1..31, and the
    three of them lead back to [doe]. *)
Definition eraDayChecked (doe : Z) : bool :=
  let yoe := (doe - doe / 1460 + doe / 36524 - doe / 146096) / 365 in
  let doy := doe - (365 * yoe + yoe / 4 - yoe / 100) in
  let mp := (5 * doy + 2) / 153 in
  let d := doy - (153 * mp + 2) / 5 + 1 in
  (0 <=? yoe) && (yoe <? 400) && (0 <=? mp) && (mp <=? 11)
  && (1 <=? d) && (d <=? 31)
  && (yoe * 365 + yoe / 4 - yoe / 100 + ((153 * mp + 2) / 5 + d - 1) =? doe).

(** [eraDayChecked] on [n] days in a row, from [doe] on. *)
Fixpoint eraDaysChecked (n : nat) (doe : Z) : bool :=
  match n with
  | O => true
  | S k => eraDayChecked doe && eraDaysChecked k (doe + 1)
  end.

End GoTime.

Import GoTime.

(** ** Errors and formatted text

    [fmt.Errorf] and [fmt.Sprintf] are kept unrendered: the format string
    with its arguments.  Nothing below depends on the rendered text. *)

Inductive arg :=
| AStr (s : string)
| AInt (z : Z)
| ADur (d : Z)
| AErr (e : error)
with error :=
| Errorf (format : string) (args : list arg).

Inductive result (A : Type) :=
| Ok (a : A)
| Err (e : error).

Arguments Ok {A} a.
Arguments Err {A} e.

Definition isOk {A} (r : result A) : bool :=
  match r with Ok _ => true | Err _ => false end.

(** ** What the sources take from outside

    The operations of the Go runtime whose value depends on data or code
    that is not part of the sources: the time-zone database, the RFC 3339
    reader and printer of package [time], Unicode case mapping, the [%d]
    verb of [fmt.Sscanf], and [config.ParseDuration], which package
    [config] declares outside [maintenance_window.go].  Every function
    below that needs one of them takes the whole interface; the
    statements hold for each implementation of it. *)

Class GoLib := {
  (** [time.LoadLocation]; [None] is the non-nil error. *)
  LoadLocation : string -> option Location;
  (** [time.Parse(time.RFC3339, value)]. *)
  ParseRFC3339 : string -> option Time;
  (** [t.Format(time.RFC3339)]. *)
  FormatRFC3339 : Time -> string;
  (** [strings.ToLower]. *)
  ToLower : string -> string;
  (** [fmt.Sscanf(s, "%d", &n)]: the integer read, or [None] on error. *)
  SscanfInt : string -> option Z;
  (** [config.ParseDuration]: Go's duration grammar with a day unit,
      [d] for 24 hours. *)
  ParseDuration : string -> option Z;
}.

(** ** [pkg/config]: maintenance windows *)

Module config.

(** Modelled from the spec: the constants [config.DefaultType],
    [config.TypeBytes], [config.TypeRSA], [config.TypeECDSA] and
    [config.TypeEd25519], which package [config] declares outside
    [maintenance_window.go].  Their values are the five generation types
    the specification lists: string, bytes, rsa, ecdsa, ed25519. *)
Definition DefaultType : string := "string".
Definition TypeBytes : string := "bytes".
Definition TypeRSA : string := "rsa".
Definition TypeECDSA : string := "ecdsa".
Definition TypeEd25519 : string := "ed25519".

(** Modelled from the spec: the struct types of package [config], which
    are declared outside [maintenance_window.go].  A maintenance window
    has an optional name, a list of weekday names, a start and an end
    time as "HH:MM" and an IANA timezone; the windows configuration has
    an enabled flag and an ordered list of windows; the global
    configuration has the default type and length, the minimum rotation
    interval, whether rotation emits normal events, and the windows. *)
Record MaintenanceWindow := {
  Name : string;
  Days : list string;
  StartTime : string;
  EndTime : string;
  Timezone : string;
}.

Record MaintenanceWindowsConfig := {
  Enabled : bool;
  Windows : list MaintenanceWindow;
}.

Record DefaultsConfig := {
  Type_ : string;
  Length : Z;
}.

Record RotationConfig := {
  MinInterval : Z;
  CreateEvents : bool;
  MaintenanceWindows : MaintenanceWindowsConfig;
}.

Record Config := {
  Defaults : DefaultsConfig;
  Rotation : RotationConfig;
}.

Definition Sunday : Z := 0.
Definition Monday : Z := 1.
Definition Tuesday : Z := 2.
Definition Wednesday : Z := 3.
Definition Thursday : Z := 4.
Definition Friday : Z := 5.
Definition Saturday : Z := 6.

(** [validDays] maps day names to [time.Weekday] values. *)
Definition validDays : gmap string Z :=
  list_to_map
    [("sunday", Sunday); ("monday", Monday); ("tuesday", Tuesday);
     ("wednesday", Wednesday); ("thursday", Thursday); ("friday", Friday);
     ("saturday", Saturday)].

Section WithLib.
Context `{lib : GoLib}.

Definition ParseDay (day : string) : result Z :=
  let normalized := ToLower (TrimSpace day) in
  match validDays !! normalized with
  | Some weekday => Ok weekday
  | None => Err (Errorf "invalid day: '%s', must be one of: sunday, monday, tuesday, wednesday, thursday, friday, saturday" [AStr day])
  end.

(** [ParseTime] returns [(hour, minute, err)]; on every error path the
    two numbers are 0, which the callers that drop the error rely on. *)
Definition ParseTime (timeStr : string) : Z * Z * option error :=
  if String.eqb timeStr "" then (0, 0, Some (Errorf "time cannot be empty" []))
  else
    match Split timeStr ":"%char with
    | [p0; p1] =>
        match SscanfInt p0 with
        | None => (0, 0, Some (Errorf "invalid hour in '%s': %w" [AStr timeStr]))
        | Some hour =>
            match SscanfInt p1 with
            | None => (0, 0, Some (Errorf "invalid minute in '%s': %w" [AStr timeStr]))
            | Some minute =>
                if (hour <? 0) || (23 <? hour)
                then (0, 0, Some (Errorf "hour must be between 0 and 23, got %d" [AInt hour]))
                else if (minute <? 0) || (59 <? minute)
                then (0, 0, Some (Errorf "minute must be between 0 and 59, got %d" [AInt minute]))
                else (hour, minute, None)
            end
        end
    | _ => (0, 0, Some (Errorf "invalid time format '%s', expected HH:MM" [AStr timeStr]))
    end.

(** The first error [ParseDay] reports over the days, in order. *)
Fixpoint validateDays (days : list string) : option error :=
  match days with
  | [] => None
  | day :: rest =>
      match ParseDay day with
      | Err e => Some e
      | Ok _ => validateDays rest
      end
  end.

(** [Validate] of a single [MaintenanceWindow]; [None] is the nil error. *)
Definition Validate (w : MaintenanceWindow) : option error :=
  if (length (Days w) =? 0)%nat then Some (Errorf "at least one day must be specified" [])
  else
    match validateDays (Days w) with
    | Some e => Some e
    | None =>
        let '(startHour, startMinute, err) := ParseTime (StartTime w) in
        match err with
        | Some e => Some (Errorf "invalid startTime: %w" [AErr e])
        | None =>
            let '(endHour, endMinute, err) := ParseTime (EndTime w) in
            match err with
            | Some e => Some (Errorf "invalid endTime: %w" [AErr e])
            | None =>
                let startMinutes := startHour * 60 + startMinute in
                let endMinutes := endHour * 60 + endMinute in
                if endMinutes <=? startMinutes
                then Some (Errorf "endTime (%s) must be after startTime (%s)"
                                  [AStr (EndTime w); AStr (StartTime w)])
                else if String.eqb (Timezone w) ""
                then Some (Errorf "timezone must be specified" [])
                else
                  match LoadLocation (Timezone w) with
                  | None => Some (Errorf "invalid timezone '%s': %w" [AStr (Timezone w)])
                  | Some _ => None
                  end
            end
        end
    end.

Fixpoint validateWindows (i : Z) (ws : list MaintenanceWindow) : option error :=
  match ws with
  | [] => None
  | window :: rest =>
      match Validate window with
      | Some err =>
          if negb (String.eqb (Name window) "")
          then Some (Errorf "window '%s': %w" [AStr (Name window); AErr err])
          else Some (Errorf "window[%d]: %w" [AInt i; AErr err])
      | None => validateWindows (i + 1) rest
      end
  end.

(** [Validate] of a [MaintenanceWindowsConfig]. *)
Definition ValidateConfig (m : MaintenanceWindowsConfig) : option error :=
  if (length (Windows m) =? 0)%nat
  then Some (Errorf "at least one maintenance window must be defined when enabled" [])
  else validateWindows 0 (Windows m).

(** The day loop of [IsInWindow]: entries that do not parse are passed
    over, the first entry equal to [currentDay] ends the loop. *)
Fixpoint dayMatches (days : list string) (currentDay : Z) : bool :=
  match days with
  | [] => false
  | day :: rest =>
      match ParseDay day with
      | Err _ => dayMatches rest currentDay
      | Ok weekday => if weekday =? currentDay then true else dayMatches rest currentDay
      end
  end.

Definition IsInWindow (w : MaintenanceWindow) (t : Time) : bool :=
  match LoadLocation (Timezone w) with
  | None => false
  | Some loc =>
      let localTime := In t loc in
      let currentDay := Weekday localTime in
      if negb (dayMatches (Days w) currentDay) then false
      else
        let '(startHour, startMinute, _) := ParseTime (StartTime w) in
        let '(endHour, endMinute, _) := ParseTime (EndTime w) in
        let currentMinutes := HourOf localTime * 60 + MinuteOf localTime in
        let startMinutes := startHour * 60 + startMinute in
        let endMinutes := endHour * 60 + endMinute in
        (startMinutes <=? currentMinutes) && (currentMinutes <? endMinutes)
  end.

Definition IsInAnyWindow (m : MaintenanceWindowsConfig) (t : Time) : bool :=
  if negb (Enabled m) then true
  else existsb (fun w => IsInWindow w t) (Windows m).

Definition GetActiveWindow (m : MaintenanceWindowsConfig) (t : Time)
  : option MaintenanceWindow :=
  if negb (Enabled m) then None
  else List.find (fun w => IsInWindow w t) (Windows m).

(** The weekdays of a window, unparsable entries dropped. *)
Fixpoint parseDays (days : list string) : list Z :=
  match days with
  | [] => []
  | day :: rest =>
      match ParseDay day with
      | Err _ => parseDays rest
      | Ok weekday => weekday :: parseDays rest
      end
  end.

(** The "today" loop of [NextStart]: at the first entry equal to
    [currentDay] for which one of the two tests holds, today's start. *)
Fixpoint todayStart (windowDays : list Z) (currentDay currentMinutes
    startMinutes endMinutes : Z) : bool :=
  match windowDays with
  | [] => false
  | day :: rest =>
      if day =? currentDay then
        if currentMinutes <? startMinutes then true
        else if (startMinutes <=? currentMinutes) && (currentMinutes <? endMinutes)
        then true
        else todayStart rest currentDay currentMinutes startMinutes endMinutes
      else todayStart rest currentDay currentMinutes startMinutes endMinutes
  end.

(** The look-ahead loop of [NextStart], [daysAhead] running from
    [daysAhead] up to 7: the first offset whose weekday is a window day. *)
Fixpoint nextValidDay (fuel : nat) (daysAhead : Z) (windowDays : list Z)
    (currentDay : Z) : option Z :=
  match fuel with
  | O => None
  | S k =>
      if 7 <? daysAhead then None
      else
        let futureDay := (currentDay + daysAhead) mod 7 in
        if existsb (fun day => day =? futureDay) windowDays then Some daysAhead
        else nextValidDay k (daysAhead + 1) windowDays currentDay
  end.

Definition NextStart (w : MaintenanceWindow) (t : Time) : Time :=
  match LoadLocation (Timezone w) with
  | None => zeroTime
  | Some loc =>
      let localTime := In t loc in
      let '(startHour, startMinute, _) := ParseTime (StartTime w) in
      let '(endHour, endMinute, _) := ParseTime (EndTime w) in
      let windowDays := parseDays (Days w) in
      if (length windowDays =? 0)%nat then zeroTime
      else
        let currentDay := Weekday localTime in
        let currentMinutes := HourOf localTime * 60 + MinuteOf localTime in
        let startMinutes := startHour * 60 + startMinute in
        let endMinutes := endHour * 60 + endMinute in
        if todayStart windowDays currentDay currentMinutes startMinutes endMinutes
        then Date (YearOf localTime) (MonthOf localTime) (DayOf localTime)
                  startHour startMinute 0 0 loc
        else
          match nextValidDay 7 1 windowDays currentDay with
          | Some daysAhead =>
              let futureDate := AddDate localTime 0 0 daysAhead in
              Date (YearOf futureDate) (MonthOf futureDate) (DayOf futureDate)
                   startHour startMinute 0 0 loc
          | None => zeroTime
          end
  end.

(** The loop of [NextWindowStart] over the windows, [earliest] being the
    running value. *)
Fixpoint earliestStart (ws : list MaintenanceWindow) (t : Time) (earliest : Time)
  : Time :=
  match ws with
  | [] => earliest
  | w :: rest =>
      let next := NextStart w t in
      if IsZero earliest || Before next earliest
      then earliestStart rest t next
      else earliestStart rest t earliest
  end.

Definition NextWindowStart (m : MaintenanceWindowsConfig) (t : Time) : Time :=
  if negb (Enabled m) || (length (Windows m) =? 0)%nat then zeroTime
  else earliestStart (Windows m) t zeroTime.

Definition DurationUntilNextWindow (m : MaintenanceWindowsConfig) (t : Time) : Z :=
  if negb (Enabled m) then 0
  else if IsInAnyWindow m t then 0
  else
    let next := NextWindowStart m t in
    if IsZero next then 0 else Sub next t.

End WithLib.

End config.

(** ** [pkg/generator]: the value generator

    [crypto/rand] is a tape of bytes handed from call to call: [rand.Read]
    takes the bytes it is asked for off the front and fails when the tape
    is shorter than that.  The keypair operations sit on top of Go's
    [crypto/rsa], [crypto/ecdsa], [crypto/ed25519] and [encoding/pem] and
    are not embedded. *)

Module generator.

(** A computation that draws on the entropy tape. *)
Definition Rand (A : Type) : Type := string -> result A * string.

Fixpoint takeBytes (n : nat) (tape : string) : option (string * string) :=
  match n with
  | O => Some (EmptyString, tape)
  | S k =>
      match tape with
      | EmptyString => None
      | String c rest =>
          match takeBytes k rest with
          | Some (got, remaining) => Some (String c got, remaining)
          | None => None
          end
      end
  end.

(** [rand.Read] into a buffer of [n] bytes. *)
Definition randRead (n : Z) : Rand string := fun tape =>
  match takeBytes (Z.to_nat n) tape with
  | Some (got, remaining) => (Ok got, remaining)
  | None => (Err (Errorf "entropy source failed" []), tape)
  end.

(** The interface [Generator], without its three keypair methods. *)
Record Generator := {
  GenerateString : Z -> Rand string;
  GenerateStringWithCharset : Z -> string -> Rand string;
  GenerateBytes : Z -> Rand string;
  Generate : string -> Z -> Rand string;
  GenerateWithCharset : string -> Z -> string -> Rand string;
}.

Record SecretGenerator := { defaultCharset : string }.

Definition DefaultCharset : string :=
  "abcdefghijklmnopqrstuvwxyzABCDEFGHIJKLMNOPQRSTUVWXYZ0123456789!@#$%^&*()_+-=[]{}|;:,.<>?".

Definition AlphanumericCharset : string :=
  "abcdefghijklmnopqrstuvwxyzABCDEFGHIJKLMNOPQRSTUVWXYZ0123456789".

Definition NewSecretGenerator : SecretGenerator :=
  {| defaultCharset := AlphanumericCharset |}.

Definition NewSecretGeneratorWithCharset (charset : string) : SecretGenerator :=
  {| defaultCharset := charset |}.

(** [charset[int(b) % charsetLen]]. *)
Definition charsetAt (charset : string) (b : ascii) : ascii :=
  let charsetLen := Z.of_nat (String.length charset) in
  match String.get (Z.to_nat (byteOf b mod charsetLen)) charset with
  | Some c => c
  | None => Ascii.zero
  end.

Fixpoint mapBytes (f : ascii -> ascii) (s : string) : string :=
  match s with
  | EmptyString => EmptyString
  | String c rest => String (f c) (mapBytes f rest)
  end.

Definition SecretGenerator_GenerateStringWithCharset (g : SecretGenerator)
    (length : Z) (charset : string) : Rand string := fun tape =>
  if length <=? 0
  then (Err (Errorf "length must be positive, got %d" [AInt length]), tape)
  else if String.eqb charset ""
  then (Err (Errorf "charset must not be empty" []), tape)
  else
    match randRead length tape with
    | (Err e, tape') => (Err (Errorf "failed to generate random bytes: %w" [AErr e]), tape')
    | (Ok randomBytes, tape') => (Ok (mapBytes (charsetAt charset) randomBytes), tape')
    end.

Definition SecretGenerator_GenerateString (g : SecretGenerator) (length : Z)
  : Rand string :=
  SecretGenerator_GenerateStringWithCharset g length (defaultCharset g).

Definition SecretGenerator_GenerateBytes (g : SecretGenerator) (length : Z)
  : Rand string := fun tape =>
  if length <=? 0
  then (Err (Errorf "length must be positive, got %d" [AInt length]), tape)
  else
    match randRead length tape with
    | (Err e, tape') => (Err (Errorf "failed to generate random bytes: %w" [AErr e]), tape')
    | (Ok randomBytes, tape') => (Ok randomBytes, tape')
    end.

Definition SecretGenerator_GenerateWithCharset (g : SecretGenerator)
    (genType : string) (length : Z) (charset : string) : Rand string := fun tape =>
  if String.eqb genType config.DefaultType || String.eqb genType ""
  then SecretGenerator_GenerateStringWithCharset g length charset tape
  else if String.eqb genType config.TypeBytes
  then
    match SecretGenerator_GenerateBytes g length tape with
    | (Err err, tape') => (Err err, tape')
    | (Ok bytes, tape') => (Ok bytes, tape')
    end
  else if String.eqb genType config.TypeRSA || String.eqb genType config.TypeECDSA
          || String.eqb genType config.TypeEd25519
  then (Err (Errorf "keypair types must be generated using dedicated keypair methods, not GenerateWithCharset" []), tape)
  else (Err (Errorf "unknown generation type: %s" [AStr genType]), tape).

Definition SecretGenerator_Generate (g : SecretGenerator) (genType : string)
    (length : Z) : Rand string :=
  SecretGenerator_GenerateWithCharset g genType length (defaultCharset g).

(** [*SecretGenerator] implements [Generator]. *)
Definition asGenerator (g : SecretGenerator) : Generator :=
  {| GenerateString := SecretGenerator_GenerateString g;
     GenerateStringWithCharset := SecretGenerator_GenerateStringWithCharset g;
     GenerateBytes := SecretGenerator_GenerateBytes g;
     Generate := SecretGenerator_Generate g;
     GenerateWithCharset := SecretGenerator_GenerateWithCharset g |}.

End generator.

(** ** [internal/controller]: the reconciler

    The API server, the event recorder, the entropy source and the
    ambient wall clock make up the [World] a reconciliation runs in.
    The clock is read several times in one cycle; as with the mock clock
    of the integration tests, every reading of one cycle is the same
    instant. *)

Module controller.

Definition AnnotationPrefix : string := "iso.gtrfc.com/".
Definition AnnotationAutogenerate : string := AnnotationPrefix +:+ "autogenerate".
Definition AnnotationType : string := AnnotationPrefix +:+ "type".
Definition AnnotationLength : string := AnnotationPrefix +:+ "length".
Definition AnnotationTypePrefix : string := AnnotationPrefix +:+ "type.".
Definition AnnotationLengthPrefix : string := AnnotationPrefix +:+ "length.".
Definition AnnotationGeneratedAt : string := AnnotationPrefix +:+ "generated-at".
Definition AnnotationRotate : string := AnnotationPrefix +:+ "rotate".
Definition AnnotationRotatePrefix : string := AnnotationPrefix +:+ "rotate.".

Definition EventReasonGenerationFailed : string := "GenerationFailed".
Definition EventReasonGenerationSucceeded : string := "GenerationSucceeded".
Definition EventReasonRotationSucceeded : string := "RotationSucceeded".
Definition EventReasonRotationFailed : string := "RotationFailed".

(** [corev1.EventTypeWarning] and [corev1.EventTypeNormal]. *)
Definition EventTypeWarning : string := "Warning".
Definition EventTypeNormal : string := "Normal".

(** [corev1.Secret], reduced to what the reconciler reads and writes.
    The object is known by the [(namespace, name)] it is stored under. *)
Record Secret := {
  Annotations : gmap string string;
  Data : gmap string string;
}.

(** One call of [EventRecorder.Event]; the message is the unrendered
    [fmt.Sprintf] call, or a literal with no arguments. *)
Record Event := {
  eventtype : string;
  reason : string;
  message : string;
  messageArgs : list arg;
}.

Record Clock := { Now : Time }.

Record SecretReconciler := {
  Generator : generator.Generator;
  Config : config.Config;
  Clock_ : option Clock;
}.

(** The reconciler [r] with another maintenance-window configuration
    in its [Config.Rotation]. *)
Definition withWindows (windows : config.MaintenanceWindowsConfig)
    (r : SecretReconciler) : SecretReconciler :=
  {| Generator := Generator r;
     Config :=
       {| config.Defaults := config.Defaults (Config r);
          config.Rotation :=
            {| config.MinInterval := config.MinInterval (config.Rotation (Config r));
               config.CreateEvents := config.CreateEvents (config.Rotation (Config r));
               config.MaintenanceWindows := windows |} |};
     Clock_ := Clock_ r |}.

(** [ctrl.Result]. *)
Record Result := { Requeue : bool; RequeueAfter : Z }.

Definition noResult : Result := {| Requeue := false; RequeueAfter := 0 |}.

Record World := {
  cluster : gmap (string * string) Secret;
  recorded : list Event;
  entropy : string;
  wallClock : Time;
  getError : option error;
  updateError : option error;
}.

Definition withCluster (c : gmap (string * string) Secret) (w : World) : World :=
  {| cluster := c; recorded := recorded w; entropy := entropy w;
     wallClock := wallClock w; getError := getError w;
     updateError := updateError w |}.

Definition withEntropy (tape : string) (w : World) : World :=
  {| cluster := cluster w; recorded := recorded w; entropy := tape;
     wallClock := wallClock w; getError := getError w;
     updateError := updateError w |}.

(** [r.EventRecorder.Event(&secret, eventtype, reason, message)]. *)
Definition recordEvent (e : Event) (w : World) : World :=
  {| cluster := cluster w; recorded := (recorded w ++ [e])%list; entropy := entropy w;
     wallClock := wallClock w; getError := getError w;
     updateError := updateError w |}.

(** The part of the world the field loop of [Reconcile] has no hand on:
    the stored objects, the wall clock and the state of the transport. *)
Definition server (w : World)
  : gmap (string * string) Secret * Time * option error * option error :=
  (cluster w, wallClock w, getError w, updateError w).

(** [r.Update(ctx, &secret)], for the object fetched under [key]: it
    replaces the stored one unless the transport fails. *)
Definition Update (key : string * string) (secret : Secret) (w : World)
  : option error * World :=
  match updateError w with
  | Some err => (Some err, w)
  | None => (None, withCluster (<[key := secret]> (cluster w)) w)
  end.

(** The event filter of [SetupWithManager]: objects are handed to
    [Reconcile] only when they carry the autogenerate annotation. *)
Definition hasAutogenerateAnnotation (object : Secret) : bool :=
  bool_decide (is_Some (Annotations object !! AnnotationAutogenerate)).

(** [parseFields] parses a comma-separated list of field names. *)
Definition parseFields (value : string) : list string :=
  List.filter (fun field => negb (String.eqb field ""))
              (List.map TrimSpace (Split value ","%char)).

(** The variables [Reconcile] carries round its field loop. *)
Record LoopVars := {
  data : gmap string string;
  changed : bool;
  rotated : bool;
  nextRotation : option Z;
}.

(** How one round of the field loop ends: on to the next field (by
    [continue] or by reaching the end of the body), or out of [Reconcile]
    with an error. *)
Inductive Round :=
| Next (v : LoopVars)
| Return (err : error).

(** [if nextRotation == nil || d < *nextRotation { nextRotation = &d }]. *)
Definition lower (nextRotation : option Z) (d : Z) : option Z :=
  match nextRotation with
  | None => Some d
  | Some n => if d <? n then Some d else Some n
  end.

(** The warning for a rotation interval below the configured minimum. *)
Definition belowMinimumWarning (rotationInterval : Z) (field : string)
    (minInterval : Z) : Event :=
  {| eventtype := EventTypeWarning;
     reason := EventReasonRotationFailed;
     message := "Rotation interval %s for field %q is below minimum %s";
     messageArgs := [ADur rotationInterval; AStr field; ADur minInterval] |}.

(** The warning for a value that could not be generated. *)
Definition generationFailedWarning (field : string) (err : error) : Event :=
  {| eventtype := EventTypeWarning;
     reason := EventReasonGenerationFailed;
     message := "Failed to generate value for field %q: %v";
     messageArgs := [AStr field; AErr err] |}.

Definition rotationSucceeded : Event :=
  {| eventtype := EventTypeNormal;
     reason := EventReasonRotationSucceeded;
     message := "Successfully rotated values for secret fields";
     messageArgs := [] |}.

Definition generationSucceeded : Event :=
  {| eventtype := EventTypeNormal;
     reason := EventReasonGenerationSucceeded;
     message := "Successfully generated values for secret fields";
     messageArgs := [] |}.

(** The error [Reconcile] returns when a value could not be generated. *)
Definition generationError (field : string) (err : error) : error :=
  Errorf "failed to generate value for field %s: %w" [AStr field; AErr err].

Definition withNextRotation (nextRotation : option Z) (v : LoopVars) : LoopVars :=
  {| data := data v; changed := changed v; rotated := rotated v;
     nextRotation := nextRotation |}.

Section WithLib.
Context `{lib : GoLib}.

Definition now (r : SecretReconciler) (w : World) : Time :=
  match Clock_ r with
  | Some clock => Now clock
  | None => wallClock w
  end.

Definition since (r : SecretReconciler) (w : World) (t : Time) : Z :=
  Sub (now r w) t.

Definition getAnnotationOrDefault (r : SecretReconciler)
    (annotations : gmap string string) (key defaultValue : string) : string :=
  match annotations !! key with
  | Some value => if negb (String.eqb value "") then value else defaultValue
  | None => defaultValue
  end.

Definition getLengthAnnotation (r : SecretReconciler)
    (annotations : gmap string string) : Z :=
  let fallback := config.Length (config.Defaults (Config r)) in
  match annotations !! AnnotationLength with
  | Some value =>
      if negb (String.eqb value "") then
        match Atoi value with
        | Some length => if 0 <? length then length else fallback
        | None => fallback
        end
      else fallback
  | None => fallback
  end.

Definition getFieldType (r : SecretReconciler)
    (annotations : gmap string string) (field : string) : string :=
  let fieldTypeKey := AnnotationTypePrefix +:+ field in
  let fallback :=
    getAnnotationOrDefault r annotations AnnotationType
      (config.Type_ (config.Defaults (Config r))) in
  match annotations !! fieldTypeKey with
  | Some value => if negb (String.eqb value "") then value else fallback
  | None => fallback
  end.

Definition getFieldLength (r : SecretReconciler)
    (annotations : gmap string string) (field : string) : Z :=
  let fieldLengthKey := AnnotationLengthPrefix +:+ field in
  let fallback := getLengthAnnotation r annotations in
  match annotations !! fieldLengthKey with
  | Some value =>
      if negb (String.eqb value "") then
        match Atoi value with
        | Some length => if 0 <? length then length else fallback
        | None => fallback
        end
      else fallback
  | None => fallback
  end.

(** The second and third step of [getFieldRotationInterval]: the
    object-wide annotation, then 0 for "no rotation". *)
Definition defaultRotationInterval (annotations : gmap string string) : Z :=
  match annotations !! AnnotationRotate with
  | Some value =>
      if negb (String.eqb value "") then
        match ParseDuration value with
        | Some duration => duration
        | None => 0
        end
      else 0
  | None => 0
  end.

Definition getFieldRotationInterval (r : SecretReconciler)
    (annotations : gmap string string) (field : string) : Z :=
  let fieldRotateKey := AnnotationRotatePrefix +:+ field in
  let fallback := defaultRotationInterval annotations in
  match annotations !! fieldRotateKey with
  | Some value =>
      if negb (String.eqb value "") then
        match ParseDuration value with
        | Some duration => duration
        | None => fallback
        end
      else fallback
  | None => fallback
  end.

Definition getGeneratedAtTime (r : SecretReconciler)
    (annotations : gmap string string) : option Time :=
  match annotations !! AnnotationGeneratedAt with
  | Some value =>
      if negb (String.eqb value "") then ParseRFC3339 value else None
  | None => None
  end.

(** The rotation check that opens the loop body.  [None] is the
    [continue] taken after the below-minimum warning; otherwise the
    value of [needsRotation] and the new [nextRotation]. *)
Definition rotationCheck (r : SecretReconciler) (w : World)
    (generatedAt : option Time) (rotationInterval : Z) (nextRotation : option Z)
  : option (bool * option Z) :=
  match generatedAt with
  | Some g =>
      if 0 <? rotationInterval then
        if rotationInterval <? config.MinInterval (config.Rotation (Config r))
        then None
        else
          let timeSinceGeneration := since r w g in
          if rotationInterval <=? timeSinceGeneration
          then Some (true, nextRotation)
          else
            let timeUntilRotation := durSub rotationInterval timeSinceGeneration in
            Some (false, lower nextRotation timeUntilRotation)
      else Some (false, nextRotation)
  | None =>
      if 0 <? rotationInterval
      then Some (false, lower nextRotation rotationInterval)
      else Some (false, nextRotation)
  end.

(** One round of [for _, field := range fields]. *)
Definition reconcileField (r : SecretReconciler) (secret : Secret)
    (generatedAt : option Time) (field : string) (v : LoopVars) (w : World)
  : Round * World :=
  let rotationInterval := getFieldRotationInterval r (Annotations secret) field in
  match rotationCheck r w generatedAt rotationInterval (nextRotation v) with
  | None =>
      let minInterval := config.MinInterval (config.Rotation (Config r)) in
      (Next v, recordEvent (belowMinimumWarning rotationInterval field minInterval) w)
  | Some (needsRotation, nextRotation') =>
      let v := withNextRotation nextRotation' v in
      if bool_decide (is_Some (data v !! field)) && negb needsRotation
      then (Next v, w)
      else
        let genType := getFieldType r (Annotations secret) field in
        let length := getFieldLength r (Annotations secret) field in
        match generator.Generate (Generator r) genType length (entropy w) with
        | (Err err, tape) =>
            (Return (generationError field err),
             recordEvent (generationFailedWarning field err) (withEntropy tape w))
        | (Ok value, tape) =>
            (Next {| data := <[field := value]> (data v);
                     changed := true;
                     rotated := if needsRotation then true else rotated v;
                     nextRotation := nextRotation v |},
             withEntropy tape w)
        end
  end.

(** The four ways one round of the loop can go for [field], entered
    with the loop variables [v] in the world [w]: refused for an interval
    below the minimum, skipped because the field has a value that is not
    due, failed in the generator, or given a fresh value. *)
Inductive FieldRound (r : SecretReconciler) (secret : Secret)
    (generatedAt : option Time) (field : string) (v : LoopVars) (w : World)
  : Round -> World -> Prop :=
| Refused :
    rotationCheck r w generatedAt
      (getFieldRotationInterval r (Annotations secret) field) (nextRotation v)
    = None ->
    FieldRound r secret generatedAt field v w
      (Next v)
      (recordEvent
         (belowMinimumWarning
            (getFieldRotationInterval r (Annotations secret) field) field
            (config.MinInterval (config.Rotation (Config r)))) w)
| Skipped (next : option Z) :
    rotationCheck r w generatedAt
      (getFieldRotationInterval r (Annotations secret) field) (nextRotation v)
    = Some (false, next) ->
    is_Some (data v !! field) ->
    FieldRound r secret generatedAt field v w (Next (withNextRotation next v)) w
| Failed (needsRotation : bool) (next : option Z) (err : error) (tape : string) :
    rotationCheck r w generatedAt
      (getFieldRotationInterval r (Annotations secret) field) (nextRotation v)
    = Some (needsRotation, next) ->
    data v !! field = None \/ needsRotation = true ->
    generator.Generate (Generator r) (getFieldType r (Annotations secret) field)
      (getFieldLength r (Annotations secret) field) (entropy w) = (Err err, tape) ->
    FieldRound r secret generatedAt field v w
      (Return (generationError field err))
      (recordEvent (generationFailedWarning field err) (withEntropy tape w))
| Generated (needsRotation : bool) (next : option Z) (value tape : string) :
    rotationCheck r w generatedAt
      (getFieldRotationInterval r (Annotations secret) field) (nextRotation v)
    = Some (needsRotation, next) ->
    data v !! field = None \/ needsRotation = true ->
    generator.Generate (Generator r) (getFieldType r (Annotations secret) field)
      (getFieldLength r (Annotations secret) field) (entropy w) = (Ok value, tape) ->
    FieldRound r secret generatedAt field v w
      (Next {| data := <[field := value]> (data v);
               changed := true;
               rotated := if needsRotation then true else rotated v;
               nextRotation := next |})
      (withEntropy tape w).

(** The field loop. *)
Fixpoint reconcileFields (r : SecretReconciler) (secret : Secret)
    (generatedAt : option Time) (fields : list string) (v : LoopVars) (w : World)
  : Round * World :=
  match fields with
  | [] => (Next v, w)
  | field :: rest =>
      match reconcileField r secret generatedAt field v w with
      | (Next v', w') => reconcileFields r secret generatedAt rest v' w'
      | (Return err, w') => (Return err, w')
      end
  end.

(** The loop that follows a successful write: every positive interval
    is offered to [nextRotation]. *)
Fixpoint recalculate (r : SecretReconciler) (annotations : gmap string string)
    (fields : list string) (nextRotation : option Z) : option Z :=
  match fields with
  | [] => nextRotation
  | field :: rest =>
      let rotationInterval := getFieldRotationInterval r annotations field in
      recalculate r annotations rest
        (if 0 <? rotationInterval then lower nextRotation rotationInterval
         else nextRotation)
  end.

(** The last statements of [Reconcile]. *)
Definition requeue (nextRotation : option Z) : Result :=
  match nextRotation with
  | Some d => {| Requeue := false; RequeueAfter := d |}
  | None => noResult
  end.

(** [Reconcile], for the request [(namespace, name)]. *)
Definition Reconcile (r : SecretReconciler) (req : string * string) (w : World)
  : Result * option error * World :=
  match getError w with
  | Some err => (noResult, Some err, w)
  | None =>
  match cluster w !! req with
  | None => (noResult, None, w)
  | Some secret =>
  match Annotations secret !! AnnotationAutogenerate with
  | None => (noResult, None, w)
  | Some autogenerate =>
  if String.eqb autogenerate "" then (noResult, None, w)
  else
    let fields := parseFields autogenerate in
    if (length fields =? 0)%nat then (noResult, None, w)
    else
      let generatedAt := getGeneratedAtTime r (Annotations secret) in
      let v0 := {| data := Data secret; changed := false; rotated := false;
                   nextRotation := None |} in
      match reconcileFields r secret generatedAt fields v0 w with
      | (Return err, w) => (noResult, Some err, w)
      | (Next v, w) =>
          if changed v then
            let annotations :=
              <[AnnotationGeneratedAt := FormatRFC3339 (now r w)]> (Annotations secret) in
            let secret := {| Annotations := annotations; Data := data v |} in
            match Update req secret w with
            | (Some err, w) => (noResult, Some err, w)
            | (None, w) =>
                let w :=
                  if rotated v then
                    if config.CreateEvents (config.Rotation (Config r))
                    then recordEvent rotationSucceeded w
                    else w
                  else recordEvent generationSucceeded w in
                (requeue (recalculate r (Annotations secret) fields (nextRotation v)),
                 None, w)
            end
          else (requeue (nextRotation v), None, w)
      end
  end end end.

End WithLib.

End controller.

(** ** A host to run the embedding on

    One implementation of [GoLib], for evaluating the embedding on
    concrete inputs: a zone database holding [UTC] and the fixed zone
    [Etc/GMT-1], the RFC 3339 reader and printer of package [time], the
    ASCII part of [strings.ToLower], the [%d] verb, and durations written
    as whole numbers with the units [ns us ms s m h d]. *)

Module Host.

Definition isDigitB (b : Z) : bool := (48 <=? b) && (b <=? 57).

(** [getnum] of package [time]: one or two digits, two when [fixed]. *)
Definition getnum (s : list Z) (fixed : bool) : option (Z * list Z) :=
  match s with
  | a :: rest =>
      if isDigitB a then
        match rest with
        | b :: rest' =>
            if isDigitB b then Some ((a - 48) * 10 + (b - 48), rest')
            else if fixed then None else Some (a - 48, rest)
        | [] => if fixed then None else Some (a - 48, rest)
        end
      else None
  | [] => None
  end.

Definition expect (b : Z) (s : list Z) : option (list Z) :=
  match s with
  | c :: rest => if c =? b then Some rest else None
  | [] => None
  end.

Fixpoint spanDigits (s : list Z) : list Z * list Z :=
  match s with
  | c :: rest =>
      if isDigitB c then let '(ds, tl) := spanDigits rest in (c :: ds, tl)
      else ([], s)
  | [] => ([], [])
  end.

Definition valueOf (ds : list Z) : Z :=
  fold_left (fun acc d => acc * 10 + (d - 48)) ds 0.

Definition isLeap (year : Z) : bool :=
  (year mod 4 =? 0) && (negb (year mod 100 =? 0) || (year mod 400 =? 0)).

Definition daysIn (month year : Z) : Z :=
  if month =? 2 then (if isLeap year then 29 else 28)
  else if (month =? 4) || (month =? 6) || (month =? 9) || (month =? 11) then 30
  else 31.

(** The optional fraction after the seconds: a period or comma and at
    least one digit; digits past the ninth are dropped. *)
Definition fraction (s : list Z) : Z * list Z :=
  match s with
  | p :: d :: _ =>
      if ((p =? 46) || (p =? 44)) && isDigitB d then
        let '(ds, tl) := spanDigits (List.tl s) in
        let ds9 := firstn 9 ds in
        (valueOf ds9 * 10 ^ (9 - Z.of_nat (length ds9)), tl)
      else (0, s)
  | _ => (0, s)
  end.

(** The zone at the end: [Z], or a sign, two digits, a colon and two
    digits.  Returns the offset in seconds and what follows. *)
Definition zone (s : list Z) : option (Z * list Z) :=
  match s with
  | 90 :: rest => Some (0, rest)
  | sign :: h1 :: h2 :: 58 :: m1 :: m2 :: rest =>
      match getnum [h1; h2] true, getnum [m1; m2] true with
      | Some (hr, _), Some (mm, _) =>
          if (24 <? hr) || (60 <? mm) then None
          else if sign =? 43 then Some ((hr * 60 + mm) * 60, rest)
          else if sign =? 45 then Some (- ((hr * 60 + mm) * 60), rest)
          else None
      | _, _ => None
      end
  | _ => None
  end.

Definition check (b : bool) : option unit := if b then Some tt else None.

Definition parseRFC3339 (value : string) : option Time :=
  let s := bytesOf value in
  match s with
  | y1 :: y2 :: y3 :: y4 :: s =>
      _ ← check (forallb isDigitB [y1; y2; y3; y4]);
      let year := valueOf [y1; y2; y3; y4] in
      s ← expect 45 s;
      '(month, s) ← getnum s true;
      _ ← check ((0 <? month) && (month <=? 12));
      s ← expect 45 s;
      '(day, s) ← getnum s true;
      s ← expect 84 s;
      '(hour, s) ← getnum s false;
      _ ← check (hour <? 24);
      s ← expect 58 s;
      '(min, s) ← getnum s true;
      _ ← check (min <? 60);
      s ← expect 58 s;
      '(sec, s) ← getnum s true;
      _ ← check (sec <? 60);
      let '(nsec, s) := fraction s in
      '(offset, s) ← zone s;
      _ ← check ((length s =? 0)%nat);
      _ ← check ((1 <=? day) && (day <=? daysIn month year));
      let t := Date year month day hour min sec nsec UTC in
      Some {| unixNano := unixNano t - offset * Second;
              location := if offset =? 0 then UTC else FixedZone "" offset |}
  | _ => None
  end.

Fixpoint digitsOf (fuel : nat) (n : Z) (acc : list Z) : list Z :=
  match fuel with
  | O => acc
  | S k =>
      let acc := (48 + n mod 10) :: acc in
      if n <? 10 then acc else digitsOf k (n / 10) acc
  end.

Definition padTo (width : nat) (ds : list Z) : list Z :=
  (repeat 48 (width - length ds) ++ ds)%list.

(** [appendInt] of package [time]: decimal, zero-padded to [width]. *)
Definition appendInt (x : Z) (width : nat) : list Z :=
  let ds := padTo width (digitsOf (S (Z.to_nat (Z.log2 (Z.abs x)))) (Z.abs x) []) in
  if x <? 0 then 45 :: ds else ds.

Definition formatRFC3339 (t : Time) : string :=
  let '(year, month, day) := DateOf t in
  let offset := zoneOffset t in
  let stamp :=
    (appendInt year 4 ++ [45] ++ appendInt month 2 ++ [45] ++ appendInt day 2
     ++ [84] ++ appendInt (HourOf t) 2 ++ [58] ++ appendInt (MinuteOf t) 2
     ++ [58] ++ appendInt (SecondOf t) 2)%list in
  let zone := Z.quot offset 60 in
  ofBytes
    (if offset =? 0 then stamp ++ [90]
     else stamp ++ [if zone <? 0 then 45 else 43]
          ++ appendInt (Z.abs zone / 60) 2 ++ [58] ++ appendInt (Z.abs zone mod 60) 2)%list.

Definition toLower (s : string) : string :=
  ofBytes (List.map (fun b => if (65 <=? b) && (b <=? 90) then b + 32 else b)
                    (bytesOf s)).

(** [SkipSpace] of package [fmt] when scanning a string: a newline is an
    error, other white space is passed over. *)
Fixpoint skipSpace (fuel : nat) (s : list Z) : option (list Z) :=
  match fuel with
  | O => Some s
  | S k =>
      match s with
      | 10 :: _ => None
      | _ => match dropSpaceRune s with
             | Some rest => skipSpace k rest
             | None => Some s
             end
      end
  end.

Fixpoint spanNumber (s : list Z) : list Z :=
  match s with
  | c :: rest => if isDigitB c || (c =? 95) then c :: spanNumber rest else []
  | [] => []
  end.

(** The [%d] verb: blanks, an optional sign, the longest run of digits
    and underscores, read in base 10; what follows the run is left
    unread. *)
Definition sscanfInt (s : string) : option Z :=
  s ← skipSpace (String.length s) (bytesOf s);
  match s with
  | c :: rest =>
      if (c =? 43) || (c =? 45) then Atoi (ofBytes (c :: spanNumber rest))
      else Atoi (ofBytes (spanNumber s))
  | [] => None
  end.

Definition unitOf (u : list Z) : option Z :=
  let u := ofBytes u in
  if String.eqb u "ns" then Some Nanosecond
  else if String.eqb u "us" then Some (1000 * Nanosecond)
  else if String.eqb u "ms" then Some (1000000 * Nanosecond)
  else if String.eqb u "s" then Some Second
  else if String.eqb u "m" then Some Minute
  else if String.eqb u "h" then Some Hour
  else if String.eqb u "d" then Some (24 * Hour)
  else None.

Fixpoint spanUnit (s : list Z) : list Z * list Z :=
  match s with
  | c :: rest =>
      if isDigitB c || (c =? 46) then ([], s)
      else let '(u, tl) := spanUnit rest in (c :: u, tl)
  | [] => ([], [])
  end.

Fixpoint components (fuel : nat) (s : list Z) (acc : Z) : option Z :=
  match fuel with
  | O => None
  | S k =>
      let '(ds, s) := spanDigits s in
      _ ← check (negb (length ds =? 0)%nat);
      let '(u, s) := spanUnit s in
      unit ← unitOf u;
      let acc := acc + valueOf ds * unit in
      _ ← check (acc <=? maxInt64);
      match s with
      | [] => Some acc
      | _ => components k s acc
      end
  end.

(** Modelled from the spec: [config.ParseDuration], "a duration grammar
    with an additional day unit (d = 24h)", here for whole-number
    components. *)
Definition parseDuration (value : string) : option Z :=
  let s := bytesOf value in
  let '(neg, s) :=
    match s with
    | 45 :: rest => (true, rest)
    | 43 :: rest => (false, rest)
    | _ => (false, s)
    end in
  if String.eqb (ofBytes s) "0" then Some 0
  else
    d ← components (S (length s)) s 0;
    Some (if neg then - d else d).

Definition loadLocation (name : string) : option Location :=
  if String.eqb name "" || String.eqb name "UTC" then Some UTC
  else if String.eqb name "Etc/GMT-1" then Some (FixedZone "Etc/GMT-1" 3600)
  else None.

#[export] Instance lib : GoLib := {|
  LoadLocation := loadLocation;
  ParseRFC3339 := parseRFC3339;
  FormatRFC3339 := formatRFC3339;
  ToLower := toLower;
  SscanfInt := sscanfInt;
  ParseDuration := parseDuration;
|}.

End Host.

(** ** Inputs the statements are evaluated on

    The objects, clocks and configurations of the repository's
    integration tests (package [integration]), on the host above. *)

Module Fixtures.

Import controller.

(** Monday, 2 February 2026, 12:00 UTC. *)
Definition mondayNoon : Time := Date 2026 2 2 12 0 0 0 UTC.

Definition weekendNight : config.MaintenanceWindow :=
  {| config.Name := "weekend-night"; config.Days := ["saturday"; "sunday"];
     config.StartTime := "03:00"; config.EndTime := "05:00";
     config.Timezone := "UTC" |}.

Definition weekendOnly : config.MaintenanceWindowsConfig :=
  {| config.Enabled := true; config.Windows := [weekendNight] |}.

(** [config.NewDefaultConfig()] with the given maintenance windows:
    strings of 32 characters, rotation no more often than every 5
    minutes, no events on rotation. *)
Definition defaultConfig (windows : config.MaintenanceWindowsConfig)
  : config.Config :=
  {| config.Defaults := {| config.Type_ := "string"; config.Length := 32 |};
     config.Rotation :=
       {| config.MinInterval := 5 * Minute; config.CreateEvents := false;
          config.MaintenanceWindows := windows |} |}.

Definition reconciler (windows : config.MaintenanceWindowsConfig) (clock : Time)
  : SecretReconciler :=
  {| Generator := generator.asGenerator generator.NewSecretGenerator;
     Config := defaultConfig windows;
     Clock_ := Some {| Now := clock |} |}.

Definition request : string * string := ("default", "test-secret").

(** Forty bytes of entropy. *)
Definition tape : string := "0123456789abcdefghijklmnopqrstuvwxyzABCD".

Definition world (secret : Secret) : World :=
  {| cluster := {[ request := secret ]}; recorded := []; entropy := tape;
     wallClock := zeroTime; getError := None; updateError := None |}.

(** The object of [TestMaintenanceWindowRotationDeferred]: generated two
    hours before [mondayNoon], to be rotated every hour. *)
Definition dueSecret : Secret :=
  {| Annotations :=
       list_to_map [(AnnotationAutogenerate, "password");
                    (AnnotationRotate, "1h");
                    (AnnotationGeneratedAt, "2026-02-02T10:00:00Z")];
     Data := {[ "password" := "old-password-value" ]} |}.

(** Saturday, 7 February 2026, 04:00 UTC. *)
Definition saturdayFour : Time := Date 2026 2 7 4 0 0 0 UTC.

(** Two validated windows an hour long, at midnight UTC on Mondays and
    on Tuesdays. *)
Definition mondayMidnight : config.MaintenanceWindow :=
  {| config.Name := "monday-midnight"; config.Days := ["monday"];
     config.StartTime := "00:00"; config.EndTime := "01:00";
     config.Timezone := "UTC" |}.

Definition tuesdayMidnight : config.MaintenanceWindow :=
  {| config.Name := "tuesday-midnight"; config.Days := ["tuesday"];
     config.StartTime := "00:00"; config.EndTime := "01:00";
     config.Timezone := "UTC" |}.

Definition twoMidnights : config.MaintenanceWindowsConfig :=
  {| config.Enabled := true; config.Windows := [mondayMidnight; tuesdayMidnight] |}.

(** The two windows of [TestMultipleWindowsNextStart], in UTC. *)
Definition saturdayWindow : config.MaintenanceWindow :=
  {| config.Name := "saturday-window"; config.Days := ["saturday"];
     config.StartTime := "03:00"; config.EndTime := "05:00";
     config.Timezone := "UTC" |}.

Definition wednesdayWindow : config.MaintenanceWindow :=
  {| config.Name := "wednesday-window"; config.Days := ["wednesday"];
     config.StartTime := "02:00"; config.EndTime := "04:00";
     config.Timezone := "UTC" |}.

Definition twoWindows : config.MaintenanceWindowsConfig :=
  {| config.Enabled := true; config.Windows := [saturdayWindow; wednesdayWindow] |}.

(** Generated two hours before [mondayNoon], hourly rotation; the type
    asked for [password] is not one the generator knows, and [token] has
    no value yet. *)
Definition brokenSecret : Secret :=
  {| Annotations :=
       list_to_map [(AnnotationAutogenerate, "password,token");
                    (AnnotationTypePrefix +:+ "password", "uuid");
                    (AnnotationRotate, "1h");
                    (AnnotationGeneratedAt, "2026-02-02T10:00:00Z")];
     Data := {[ "password" := "old-password-value" ]} |}.

(** Generated one hour before [mondayNoon]; [password] rotates every ten
    hours, [token] is asked to rotate every minute, below the minimum of
    five. *)
Definition restingSecret : Secret :=
  {| Annotations :=
       list_to_map [(AnnotationAutogenerate, "password, token");
                    (AnnotationRotate, "10h");
                    (AnnotationRotatePrefix +:+ "token", "1m");
                    (AnnotationGeneratedAt, "2026-02-02T11:00:00Z")];
     Data := {[ "password" := "old-password-value"; "token" := "old-token" ]} |}.

(** Generated thirty seconds before [mondayNoon], to be rotated every
    minute, below the minimum of five. *)
Definition tightSecret : Secret :=
  {| Annotations :=
       list_to_map [(AnnotationAutogenerate, "password");
                    (AnnotationRotate, "1m");
                    (AnnotationGeneratedAt, "2026-02-02T11:59:30Z")];
     Data := {[ "password" := "old-password-value" ]} |}.

(** The same, with the field listed twice. *)
Definition twiceSecret : Secret :=
  {| Annotations :=
       list_to_map [(AnnotationAutogenerate, "password,password");
                    (AnnotationRotate, "1m");
                    (AnnotationGeneratedAt, "2026-02-02T11:59:30Z")];
     Data := {[ "password" := "old-password-value" ]} |}.

(** Generated nine hours before [mondayNoon], rotation every ten hours;
    [token] has no value yet. *)
Definition staleSecret : Secret :=
  {| Annotations :=
       list_to_map [(AnnotationAutogenerate, "password,token");
                    (AnnotationRotate, "10h");
                    (AnnotationGeneratedAt, "2026-02-02T03:00:00Z")];
     Data := {[ "password" := "old-password-value" ]} |}.

(** A generated-at annotation that is no timestamp; [token] has no value
    yet. *)
Definition unstampedSecret : Secret :=
  {| Annotations :=
       list_to_map [(AnnotationAutogenerate, "password,token");
                    (AnnotationRotate, "1h");
                    (AnnotationGeneratedAt, "yesterday")];
     Data := {[ "password" := "old-password-value" ]} |}.

(** The loop variables [Reconcile] enters its loop with. *)
Definition entry (secret : Secret) : LoopVars :=
  {| data := Data secret; changed := false; rotated := false;
     nextRotation := None |}.

(** An object whose autogenerate annotation names no field. *)
Definition blankSecret : Secret :=
  {| Annotations := {[ AnnotationAutogenerate := " , ,  " ]};
     Data := {[ "password" := "old-password-value" ]} |}.

(** An object the operator has nothing to do with: no autogenerate
    annotation. *)
Definition plainSecret : Secret :=
  {| Annotations := {[ "app.kubernetes.io/name" := "database" ]};
     Data := {[ "password" := "old-password-value" ]} |}.

(** A window whose timezone the host does not know. *)
Definition lostWindow : config.MaintenanceWindow :=
  {| config.Name := "lost"; config.Days := ["saturday"];
     config.StartTime := "03:00"; config.EndTime := "05:00";
     config.Timezone := "Mars/Olympus_Mons" |}.

Definition lostOnly : config.MaintenanceWindowsConfig :=
  {| config.Enabled := true; config.Windows := [lostWindow] |}.

End Fixtures.

(** ** The specification's own wording, as definitions

    Each definition here is written from the text of the specification,
    not from the sources, and is compared with the embedding below. *)

Module Spec.

Import controller.

(** "Present and parsing to a positive integer". *)
Definition positiveInteger (annotation : option string) : option Z :=
  match annotation with
  | Some value =>
      match Atoi value with
      | Some n => if 0 <? n then Some n else None
      | None => None
      end
  | None => None
  end.

(** The three-level cascade for the length: field-specific annotation,
    object-wide annotation, global default. *)
Definition effectiveLength (defaultLength : Z) (annotations : gmap string string)
    (field : string) : Z :=
  match positiveInteger (annotations !! (AnnotationLengthPrefix +:+ field)) with
  | Some n => n
  | None =>
      match positiveInteger (annotations !! AnnotationLength) with
      | Some n => n
      | None => defaultLength
      end
  end.

(** The autogenerate annotation "absent, empty, or containing only empty
    or whitespace entries after splitting on commas". *)
Definition namesNoField (autogenerate : option string) : Prop :=
  match autogenerate with
  | None => True
  | Some value => Forall (fun entry => TrimSpace entry = "") (Split value ","%char)
  end.

(** The keypair generation types. *)
Definition keypairType (genType : string) : Prop :=
  genType = config.TypeRSA \/ genType = config.TypeECDSA
  \/ genType = config.TypeEd25519.

(** An event that tells of a rotation, carried out or refused. *)
Definition rotationEvent (e : Event) : Prop :=
  reason e = EventReasonRotationSucceeded \/ reason e = EventReasonRotationFailed.

(** A warning that the rotation interval of [field] is below the
    minimum. *)
Definition belowMinimumWarningFor (field : string) (e : Event) : bool :=
  String.eqb (eventtype e) EventTypeWarning
  && String.eqb (reason e) EventReasonRotationFailed
  && match messageArgs e with
     | [_; AStr name; _] => String.eqb name field
     | _ => false
     end.

(** The fields the autogenerate annotation of an object lists, in
    order, a field as often as it is listed. *)
Definition fieldsOf (secret : Secret) : list string :=
  match Annotations secret !! AnnotationAutogenerate with
  | Some autogenerate => parseFields autogenerate
  | None => []
  end.

(** How often [field] is listed. *)
Definition occurrences (field : string) (fields : list string) : nat :=
  length (List.filter (fun name => String.eqb name field) fields).

(** An annotation that is present and not empty. *)
Definition nonEmpty (annotation : option string) : option string :=
  match annotation with
  | Some value => if String.eqb value "" then None else Some value
  | None => None
  end.

(** The cascade for the generation type: field-specific annotation,
    object-wide annotation, global default. *)
Definition effectiveType (defaultType : string) (annotations : gmap string string)
    (field : string) : string :=
  match nonEmpty (annotations !! (AnnotationTypePrefix +:+ field)) with
  | Some value => value
  | None =>
      match nonEmpty (annotations !! AnnotationType) with
      | Some value => value
      | None => defaultType
      end
  end.

(** A field name as [parseFields] hands it out: not empty, and without
    a comma. *)
Definition fieldName (name : string) : Prop :=
  name <> "" /\ ~ List.In ","%char (list_ascii_of_string name).

(** "The minimum across all candidates"; [None] when there is no
    candidate. *)
Definition minimumOf (candidates : list Z) : option Z :=
  match candidates with
  | [] => None
  | d :: rest => Some (fold_left Z.min rest d)
  end.

(** "No requeue is requested" where there is no candidate; otherwise a
    requeue after the least of them. *)
Definition requested (delay : option Z) : Result :=
  match delay with
  | Some d => {| Requeue := false; RequeueAfter := d |}
  | None => {| Requeue := false; RequeueAfter := 0 |}
  end.

Section WithLib.
Context `{lib : GoLib}.

(** The generated-at annotation "absent or not a valid RFC3339
    timestamp". *)
Definition noValidTimestamp (generatedAt : option string) : Prop :=
  match generatedAt with
  | None => True
  | Some value => ParseRFC3339 value = None
  end.

(** The cascade for the rotation interval: the field-specific
    annotation when it is present and parses as a duration, otherwise the
    object-wide annotation under the same condition, otherwise 0, which
    stands for "never rotates". *)
Definition effectiveInterval (annotations : gmap string string) (field : string)
  : Z :=
  match nonEmpty (annotations !! (AnnotationRotatePrefix +:+ field))
        ≫= ParseDuration with
  | Some duration => duration
  | None =>
      match nonEmpty (annotations !! AnnotationRotate) ≫= ParseDuration with
      | Some duration => duration
      | None => 0
      end
  end.

(** The candidates of an object without a generated-at time: "simply
    interval", for every field that has a rotation interval. *)
Definition fullIntervals (r : SecretReconciler) (annotations : gmap string string)
    (fields : list string) : list Z :=
  List.filter (fun interval => 0 <? interval)
              (List.map (getFieldRotationInterval r annotations) fields).


(** A rotation of [field] is due and allowed: its interval is positive,
    not below the minimum, and has elapsed since [generatedAt]. *)
Definition due (r : SecretReconciler) (w : World)
    (annotations : gmap string string) (generatedAt : Time) (field : string)
  : Prop :=
  let interval := getFieldRotationInterval r annotations field in
  0 < interval
  /\ config.MinInterval (config.Rotation (Config r)) <= interval
  /\ interval <= Sub (now r w) generatedAt.


(** The candidates an object generated at [generatedAt] has before the
    cycle writes: "interval - (now - generatedAt)" for every field "with a
    configured interval not yet due", the interval being positive and
    not below the configured minimum. *)
Definition pendingTimes (r : SecretReconciler) (w : World)
    (annotations : gmap string string) (generatedAt : Time)
    (fields : list string) : list Z :=
  List.map (fun interval => durSub interval (Sub (now r w) generatedAt))
    (List.filter
       (fun interval =>
          (0 <? interval)
          && (config.MinInterval (config.Rotation (Config r)) <=? interval)
          && negb (interval <=? Sub (now r w) generatedAt))
       (List.map (getFieldRotationInterval r annotations) fields)).

End WithLib.

End Spec.

(** ** Words for the statements about maintenance windows *)

Module Schedule.

Import config.

(** Seven days, as a [time.Duration]. *)
Definition week : Z := 7 * 24 * Hour.

(** [daysAhead] days after a day whose weekday is [currentDay], the
    weekday is one of [windowDays]. *)
Definition onDay (windowDays : list Z) (currentDay daysAhead : Z) : bool :=
  existsb (fun day => day =? (currentDay + daysAhead) mod 7) windowDays.

Section WithLib.
Context `{lib : GoLib}.

(** A window that passes [Validate], in a location whose offset from
    UTC never changes. *)
Definition settledWindow (w : MaintenanceWindow) : Prop :=
  Validate w = None
  /\ exists loc o, LoadLocation (Timezone w) = Some loc /\ constantOffset loc o.

(** A window that can never open: its timezone does not load, or none
    of its days parses. *)
Definition deadWindow (w : MaintenanceWindow) : Prop :=
  LoadLocation (Timezone w) = None \/ parseDays (Days w) = [].

End WithLib.

End Schedule.

(** ** Words for the statements about one reconciliation cycle *)

Module Cycle.

Import controller.

(** The loop variables [Reconcile] enters its field loop with. *)
Definition start (secret : Secret) : LoopVars :=
  {| data := Data secret; changed := false; rotated := false;
     nextRotation := None |}.

Section WithLib.
Context `{lib : GoLib}.

(** The object [Reconcile] writes back after a loop that left [v]. *)
Definition stamped (r : SecretReconciler) (w : World) (secret : Secret)
    (v : LoopVars) : Secret :=
  {| Annotations :=
       <[AnnotationGeneratedAt := FormatRFC3339 (now r w)]> (Annotations secret);
     Data := data v |}.

(** The event that follows a successful write. *)
Definition announce (r : SecretReconciler) (v : LoopVars) : list Event :=
  if rotated v then
    if config.CreateEvents (config.Rotation (Config r)) then [rotationSucceeded]
    else []
  else [generationSucceeded].

(** [EventRecorder.Event], once for each of [events] in turn. *)
Definition recordEvents (events : list Event) (w : World) : World :=
  fold_left (fun w e => recordEvent e w) events w.

(** The interval of [field] is positive and below the configured
    minimum. *)
Definition belowMinimum (r : SecretReconciler) (annotations : gmap string string)
    (field : string) : Prop :=
  0 < getFieldRotationInterval r annotations field
    < config.MinInterval (config.Rotation (Config r)).

(** The loop leaves [field] with a warning: the object has a
    generated-at time and the interval of the field is below the
    minimum. *)
Definition refused (r : SecretReconciler) (annotations : gmap string string)
    (generatedAt : option Time) (field : string) : Prop :=
  is_Some generatedAt /\ belowMinimum r annotations field.

(** The loop passes [field] by: it has a value, and no rotation of it
    is due. *)
Definition settled (r : SecretReconciler) (w : World)
    (annotations : gmap string string) (generatedAt : option Time)
    (values : gmap string string) (field : string) : Prop :=
  is_Some (values !! field)
  /\ forall g, generatedAt = Some g -> ~ Spec.due r w annotations g field.

(** An object on which a cycle finds nothing to generate or rotate. *)
Definition quiet (r : SecretReconciler) (w : World) (secret : Secret) : Prop :=
  Forall (fun field =>
            refused r (Annotations secret)
              (getGeneratedAtTime r (Annotations secret)) field
            \/ settled r w (Annotations secret)
                 (getGeneratedAtTime r (Annotations secret)) (Data secret) field)
         (Spec.fieldsOf secret).

(** The cycle owes [field] a fresh value: a rotation of it is due, or
    it has no value and is not refused. *)
Definition owed (r : SecretReconciler) (w : World) (secret : Secret)
    (field : string) : Prop :=
  (exists g, getGeneratedAtTime r (Annotations secret) = Some g
             /\ Spec.due r w (Annotations secret) g field)
  \/ (Data secret !! field = None
      /\ ~ refused r (Annotations secret)
            (getGeneratedAtTime r (Annotations secret)) field).

(** The loop has given [field] a value of the length asked for. *)
Definition fresh (r : SecretReconciler) (secret : Secret) (field : string)
    (v : LoopVars) : Prop :=
  changed v = true
  /\ exists value,
       data v !! field = Some value
       /\ Z.of_nat (String.length value)
          = getFieldLength r (Annotations secret) field.

(** The ways [Reconcile] returns for the request [req] in the world
    [w]: the read fails; the object is gone; the object lists no field;
    the field loop returns an error; the loop changes nothing; the write
    fails; the write succeeds. *)
Inductive Outcome (r : SecretReconciler) (req : string * string) (w : World)
  : Result -> option error -> World -> Prop :=
| GetFailed (err : error) :
    getError w = Some err ->
    Outcome r req w noResult (Some err) w
| NotFound :
    getError w = None ->
    cluster w !! req = None ->
    Outcome r req w noResult None w
| NothingListed (secret : Secret) :
    getError w = None ->
    cluster w !! req = Some secret ->
    Spec.fieldsOf secret = [] ->
    Outcome r req w noResult None w
| Aborted (secret : Secret) (err : error) (w1 : World) :
    getError w = None ->
    cluster w !! req = Some secret ->
    reconcileFields r secret (getGeneratedAtTime r (Annotations secret))
      (Spec.fieldsOf secret) (start secret) w = (Return err, w1) ->
    Outcome r req w noResult (Some err) w1
| Unchanged (secret : Secret) (v : LoopVars) (w1 : World) :
    getError w = None ->
    cluster w !! req = Some secret ->
    reconcileFields r secret (getGeneratedAtTime r (Annotations secret))
      (Spec.fieldsOf secret) (start secret) w = (Next v, w1) ->
    changed v = false ->
    Outcome r req w (requeue (nextRotation v)) None w1
| UpdateFailed (secret : Secret) (v : LoopVars) (w1 : World) (err : error) :
    getError w = None ->
    cluster w !! req = Some secret ->
    reconcileFields r secret (getGeneratedAtTime r (Annotations secret))
      (Spec.fieldsOf secret) (start secret) w = (Next v, w1) ->
    changed v = true ->
    updateError w1 = Some err ->
    Outcome r req w noResult (Some err) w1
| Written (secret : Secret) (v : LoopVars) (w1 : World) :
    getError w = None ->
    cluster w !! req = Some secret ->
    reconcileFields r secret (getGeneratedAtTime r (Annotations secret))
      (Spec.fieldsOf secret) (start secret) w = (Next v, w1) ->
    changed v = true ->
    updateError w1 = None ->
    Outcome r req w
      (requeue (recalculate r (Annotations (stamped r w1 secret v))
                  (Spec.fieldsOf secret) (nextRotation v)))
      None
      (recordEvents (announce r v)
         (withCluster (<[req := stamped r w1 secret v]> (cluster w1)) w1)).

End WithLib.

End Cycle.

(** * Statements *)

(** ** Evaluations of the Go library model *)

Example Split_fields : Split "a, b,,c" ","%char = ["a"; " b"; ""; "c"].
Proof. reflexivity. Qed.

Example Split_empty : Split "" ","%char = [""].
Proof. reflexivity. Qed.

Example TrimSpace_blanks : TrimSpace "  pass word  " = "pass word".
Proof. vm_compute. reflexivity. Qed.

Example Atoi_cases :
  Atoi "32" = Some 32 /\ Atoi "-5" = Some (-5) /\ Atoi "+07" = Some 7 /\
  Atoi "" = None /\ Atoi "12a" = None /\ Atoi "-" = None /\
  Atoi "9223372036854775808" = None.
Proof. vm_compute. repeat split; reflexivity. Qed.

Example mondayNoon_is_a_monday :
  Weekday Fixtures.mondayNoon = config.Monday
  /\ Host.formatRFC3339 Fixtures.mondayNoon = "2026-02-02T12:00:00Z".
Proof. vm_compute. split; reflexivity. Qed.

Example ParseDuration_day : Host.parseDuration "1d" = Some (24 * Hour).
Proof. vm_compute. reflexivity. Qed.

Lemma eqb_empty_true (s : string) : String.eqb s "" = true -> s = "".
Proof. apply String.eqb_eq. Qed.

Lemma Atoi_empty : Atoi "" = None.
Proof. reflexivity. Qed.

Section Resolver.
Context `{lib : GoLib}.

Import controller.

(** What one level of the length cascade does with an annotation. *)
Lemma length_level (o : option string) (fallback : Z) :
  match o with
  | Some value =>
      if negb (String.eqb value "") then
        match Atoi value with
        | Some n => if 0 <? n then n else fallback
        | None => fallback
        end
      else fallback
  | None => fallback
  end
  = match Spec.positiveInteger o with Some n => n | None => fallback end.
Proof.
  destruct o as [value|]; simpl; [|reflexivity].
  destruct (String.eqb value "") eqn:E; simpl.
  - apply eqb_empty_true in E. subst value. reflexivity.
  - destruct (Atoi value) as [n|]; [|reflexivity].
    destruct (0 <? n); reflexivity.
Qed.

Lemma getLengthAnnotation_cascade (r : SecretReconciler)
    (annotations : gmap string string) :
  getLengthAnnotation r annotations
  = match Spec.positiveInteger (annotations !! AnnotationLength) with
    | Some n => n
    | None => config.Length (config.Defaults (Config r))
    end.
Proof. unfold getLengthAnnotation. apply length_level. Qed.

(** C5: for every annotation map and field name, the effective length is
    the field-specific length annotation when that is present and parses
    to a positive integer, otherwise the object-wide length annotation
    under the same condition, otherwise the global default; a value that
    is invalid or not positive falls through to the next level, and no
    level produces an error. *)
Theorem C5_length_cascade (r : SecretReconciler)
    (annotations : gmap string string) (field : string) :
  getFieldLength r annotations field
  = Spec.effectiveLength (config.Length (config.Defaults (Config r)))
      annotations field.
Proof.
  unfold getFieldLength, Spec.effectiveLength.
  rewrite length_level, getLengthAnnotation_cascade. reflexivity.
Qed.

End Resolver.

Example length_cascade_falls_through :
  let r := Fixtures.reconciler Fixtures.weekendOnly Fixtures.mondayNoon in
  let annotations (specific wide : string) : gmap string string :=
    list_to_map [(controller.AnnotationLengthPrefix +:+ "password", specific);
                 (controller.AnnotationLength, wide)] in
  controller.getFieldLength r (annotations "16" "24") "password" = 16
  /\ controller.getFieldLength r (annotations "-3" "24") "password" = 24
  /\ controller.getFieldLength r (annotations "abc" "0") "password" = 32
  /\ controller.getFieldLength r (annotations "16" "24") "token" = 24.
Proof. vm_compute. repeat split; reflexivity. Qed.

(** ** The generic entry points of the generator *)

Section Generator.

Import generator.

(** C8: for each keypair generation type (rsa, ecdsa, ed25519) and every
    length, charset and state of the entropy source, [Generate] and
    [GenerateWithCharset] return an error at once, produce no value and
    draw no entropy; keypairs are left to the dedicated operations. *)
Theorem C8_generic_entry_points_reject_keypairs (g : SecretGenerator)
    (genType : string) (length : Z) (charset tape : string) :
  Spec.keypairType genType ->
  (exists err, GenerateWithCharset (asGenerator g) genType length charset tape
               = (Err err, tape))
  /\ (exists err, Generate (asGenerator g) genType length tape = (Err err, tape)).
Proof.
  intros [-> | [-> | ->]]; split; eexists; reflexivity.
Qed.

Lemma C8_witness :
  Spec.keypairType "ecdsa"
  /\ (exists err, GenerateWithCharset (asGenerator NewSecretGenerator) "ecdsa" 32
                    AlphanumericCharset Fixtures.tape = (Err err, Fixtures.tape))
  /\ (exists err, Generate (asGenerator NewSecretGenerator) "ecdsa" 32
                    Fixtures.tape = (Err err, Fixtures.tape)).
Proof.
  assert (H : Spec.keypairType "ecdsa") by (right; left; reflexivity).
  split; [exact H|].
  exact (C8_generic_entry_points_reject_keypairs NewSecretGenerator "ecdsa" 32
           AlphanumericCharset Fixtures.tape H).
Defined.

Example generic_types_are_served :
  Generate (asGenerator NewSecretGenerator) "string" 4 "0123456789"
  = (Ok "WXYZ", "456789")
  /\ Generate (asGenerator NewSecretGenerator) "bytes" 4 "0123456789"
     = (Ok "0123", "456789")
  /\ Generate (asGenerator NewSecretGenerator) "" 2 "0123456789"
     = (Ok "WX", "23456789")
  /\ isOk (fst (Generate (asGenerator NewSecretGenerator) "string" 0 "0123")) = false
  /\ isOk (fst (Generate (asGenerator NewSecretGenerator) "uuid" 4 "0123")) = false.
Proof. vm_compute. repeat split; reflexivity. Qed.

End Generator.

(** ** Reconciliation *)

Section Reconciliation.
Context `{lib : GoLib}.

Import controller.

Lemma parseFields_none (value : string) :
  Spec.namesNoField (Some value) -> parseFields value = [].
Proof.
  unfold Spec.namesNoField, parseFields.
  induction 1 as [|entry entries Hentry _ IH]; simpl; [reflexivity|].
  rewrite Hentry. simpl. exact IH.
Qed.

(** C10: if the autogenerate annotation is absent, empty, or holds only
    empty or white-space entries between its commas, [Reconcile] does
    nothing at all: the stored object (data and annotations) is as it was,
    nothing is written back, no event is recorded, no entropy is drawn, and
    no requeue delay is requested. *)
Theorem C10_nothing_to_generate (r : SecretReconciler) (req : string * string)
    (w : World) (secret : Secret) :
  getError w = None ->
  cluster w !! req = Some secret ->
  Spec.namesNoField (Annotations secret !! AnnotationAutogenerate) ->
  Reconcile r req w = (noResult, None, w).
Proof.
  intros Hget Hsecret Hnone. unfold Reconcile. rewrite Hget, Hsecret.
  destruct (Annotations secret !! AnnotationAutogenerate) as [autogenerate|];
    [|reflexivity].
  destruct (String.eqb autogenerate ""); [reflexivity|].
  rewrite (parseFields_none _ Hnone). reflexivity.
Qed.

End Reconciliation.

(** ** Maintenance windows *)

Section Windows.
Context `{lib : GoLib}.

Import config.

(** The day loop finds a day exactly when some entry names it. *)
Lemma dayMatches_true (days : list string) (currentDay : Z) :
  dayMatches days currentDay = true
  <-> Exists (fun day => ParseDay day = Ok currentDay) days.
Proof.
  induction days as [|day rest IH]; simpl.
  - split; [discriminate|]. intros H. inversion H.
  - destruct (ParseDay day) as [weekday|e] eqn:Hday.
    + destruct (Z.eqb_spec weekday currentDay) as [->|Hne].
      * split; [|reflexivity]. intros _. left. exact Hday.
      * rewrite IH. split; [intros H; right; exact H|].
        intros H. inversion H as [? ? Hhd|? ? Htl]; subst; [|exact Htl].
        congruence.
    + rewrite IH. split; [intros H; right; exact H|].
      intros H. inversion H as [? ? Hhd|? ? Htl]; subst; [|exact Htl].
      congruence.
Qed.

(** What a validated window is made of. *)
Lemma Validate_ok (w : MaintenanceWindow) :
  Validate w = None ->
  exists loc startHour startMinute endHour endMinute,
    LoadLocation (Timezone w) = Some loc
    /\ ParseTime (StartTime w) = (startHour, startMinute, None)
    /\ ParseTime (EndTime w) = (endHour, endMinute, None)
    /\ startHour * 60 + startMinute < endHour * 60 + endMinute
    /\ validateDays (Days w) = None
    /\ Days w <> [].
Proof.
  unfold Validate. intros H.
  destruct (Days w) as [|day days] eqn:Hdays; [discriminate|].
  simpl length in H. cbv iota beta in H.
  change ((S (length days) =? 0)%nat) with false in H. cbv iota in H.
  destruct (validateDays (day :: days)) as [e|] eqn:Hvd; [discriminate|].
  destruct (ParseTime (StartTime w)) as [[startHour startMinute] [e|]];
    [discriminate|].
  destruct (ParseTime (EndTime w)) as [[endHour endMinute] [e|]];
    [discriminate|].
  destruct (Z.leb_spec (endHour * 60 + endMinute) (startHour * 60 + startMinute))
    as [Hle|Hlt]; [discriminate|].
  destruct (String.eqb (Timezone w) ""); [discriminate|].
  destruct (LoadLocation (Timezone w)) as [loc|]; [|discriminate].
  exists loc, startHour, startMinute, endHour, endMinute.
  repeat split; try reflexivity; try assumption. discriminate.
Qed.

(** C6: for every time [t] and every validated maintenance window [w],
    [IsInWindow w t] is true if and only if the weekday of [t] in the
    window's timezone is one of the window's days and
    start <= minuteOfDay(t) < end in that timezone: the start boundary is
    inclusive, the end boundary exclusive. *)
Theorem C6_window_membership (w : MaintenanceWindow) (t : Time) :
  Validate w = None ->
  exists loc startHour startMinute endHour endMinute,
    LoadLocation (Timezone w) = Some loc
    /\ ParseTime (StartTime w) = (startHour, startMinute, None)
    /\ ParseTime (EndTime w) = (endHour, endMinute, None)
    /\ let localTime := In t loc in
       let minuteOfDay := HourOf localTime * 60 + MinuteOf localTime in
       IsInWindow w t = true
       <-> Exists (fun day => ParseDay day = Ok (Weekday localTime)) (Days w)
           /\ startHour * 60 + startMinute <= minuteOfDay
              < endHour * 60 + endMinute.
Proof.
  intros Hvalid.
  destruct (Validate_ok w Hvalid)
    as (loc & startHour & startMinute & endHour & endMinute
        & Hloc & Hstart & Hend & _).
  exists loc, startHour, startMinute, endHour, endMinute.
  repeat (split; [assumption|]).
  intros localTime minuteOfDay.
  unfold IsInWindow. rewrite Hloc, Hstart, Hend.
  fold localTime. fold minuteOfDay.
  rewrite <- dayMatches_true.
  destruct (dayMatches (Days w) (Weekday localTime)); simpl.
  - rewrite andb_true_iff, Z.leb_le, Z.ltb_lt. tauto.
  - split; [discriminate|]. intros [H _]. discriminate.
Qed.

(** The window loop of [NextWindowStart], entered with a running value
    that is not the zero time, over windows none of whose next start is
    the zero time. *)
Lemma earliestStart_running (ws : list MaintenanceWindow) (t earliest : Time) :
  IsZero earliest = false ->
  Forall (fun w => IsZero (NextStart w t) = false) ws ->
  let found := earliestStart ws t earliest in
  (found = earliest \/ Exists (fun w => found = NextStart w t) ws)
  /\ unixNano found <= unixNano earliest
  /\ Forall (fun w => unixNano found <= unixNano (NextStart w t)) ws.
Proof.
  revert earliest.
  induction ws as [|w rest IH]; intros earliest Hnz Hall; simpl.
  - split; [left; reflexivity|]. split; [lia|constructor].
  - inversion Hall as [|? ? Hw Hrest]; subst.
    rewrite Hnz. simpl.
    unfold Before. destruct (Z.ltb_spec (unixNano (NextStart w t)) (unixNano earliest))
      as [Hlt|Hge].
    + destruct (IH (NextStart w t) Hw Hrest) as (Hfound & Hle & Hforall).
      split; [|split].
      * right. destruct Hfound as [->|Hex]; [left; reflexivity|right; exact Hex].
      * lia.
      * constructor; [exact Hle|exact Hforall].
    + destruct (IH earliest Hnz Hrest) as (Hfound & Hle & Hforall).
      split; [|split].
      * destruct Hfound as [Heq|Hex]; [left; exact Heq|right; right; exact Hex].
      * exact Hle.
      * constructor; [lia|exact Hforall].
Qed.

(** C7, as the code has it: when maintenance windows are disabled or
    none is configured, [NextWindowStart] returns the zero time; for an
    enabled, non-empty configuration and a time [t] at which no window's
    [NextStart] is the zero time, [NextWindowStart m t] is the earliest of
    the per-window [NextStart w t]: it is the next start of one of the
    windows and no window starts before it (so with two windows it is the
    earlier of the two). *)
Theorem C7_next_window_start (m : MaintenanceWindowsConfig) (t : Time) :
  (Enabled m = false \/ Windows m = [] -> NextWindowStart m t = zeroTime)
  /\ (Enabled m = true -> Windows m <> [] ->
      Forall (fun w => IsZero (NextStart w t) = false) (Windows m) ->
      Exists (fun w => NextWindowStart m t = NextStart w t) (Windows m)
      /\ Forall (fun w => Before (NextStart w t) (NextWindowStart m t) = false)
                (Windows m)).
Proof.
  unfold NextWindowStart. split.
  - intros [-> | ->]; [reflexivity|]. simpl. rewrite orb_true_r. reflexivity.
  - intros -> Hne Hall. destruct (Windows m) as [|w rest]; [congruence|].
    inversion Hall as [|? ? Hw Hrest]; subst.
    assert (Hstep : (if negb true || (length (w :: rest) =? 0)%nat
                     then zeroTime
                     else earliestStart (w :: rest) t zeroTime)
                    = earliestStart rest t (NextStart w t)) by reflexivity.
    rewrite Hstep. clear Hstep.
    destruct (earliestStart_running rest t (NextStart w t) Hw Hrest)
      as (Hfound & Hle & Hforall).
    split.
    + destruct Hfound as [Heq|Hex]; [left; exact Heq|right; exact Hex].
    + constructor.
      * unfold Before. apply Z.ltb_ge. exact Hle.
      * eapply Forall_impl; [exact Hforall|].
        intros w' Hw'. unfold Before. apply Z.ltb_ge. exact Hw'.
Qed.

End Windows.

(** ** The field loop *)

Section FieldLoop.
Context `{lib : GoLib}.

Import controller.

(** Every round of the loop goes one of the four ways. *)
Lemma reconcileField_round (r : SecretReconciler) (secret : Secret)
    (generatedAt : option Time) (field : string) (v : LoopVars) (w : World)
    (out : Round) (w' : World) :
  reconcileField r secret generatedAt field v w = (out, w') ->
  FieldRound r secret generatedAt field v w out w'.
Proof.
  unfold reconcileField.
  destruct (rotationCheck r w generatedAt _ (nextRotation v))
    as [[needsRotation next]|] eqn:Hcheck.
  - simpl data.
    destruct (bool_decide (is_Some (data v !! field)) && negb needsRotation)
      eqn:Hskip.
    + apply andb_true_iff in Hskip as [Hsome Hnot].
      apply bool_decide_eq_true in Hsome. apply negb_true_iff in Hnot.
      subst needsRotation. intros [= <- <-]. apply Skipped; assumption.
    + assert (Hneed : data v !! field = None \/ needsRotation = true).
      { apply andb_false_iff in Hskip as [Hnone|Hrot].
        - left. apply bool_decide_eq_false in Hnone.
          destruct (data v !! field); [exfalso; apply Hnone; eauto|reflexivity].
        - right. apply negb_false_iff in Hrot. exact Hrot. }
      destruct (generator.Generate _ _ _ _) as [[value|err] tape] eqn:Hgen;
        intros [= <- <-].
      * eapply Generated; eassumption.
      * eapply Failed; eassumption.
  - intros [= <- <-]. apply Refused. exact Hcheck.
Qed.

Lemma FieldRound_server r secret generatedAt field v w out w' :
  FieldRound r secret generatedAt field v w out w' -> server w' = server w.
Proof. destruct 1; reflexivity. Qed.

Lemma reconcileFields_server r secret generatedAt fields v w out w' :
  reconcileFields r secret generatedAt fields v w = (out, w') ->
  server w' = server w.
Proof.
  revert v w. induction fields as [|field rest IH]; intros v w; simpl.
  - intros [= <- <-]. reflexivity.
  - destruct (reconcileField r secret generatedAt field v w) as [[v1|err] w1]
      eqn:Hstep.
    + intros Hrest. apply IH in Hrest. rewrite Hrest.
      eapply FieldRound_server, reconcileField_round, Hstep.
    + intros [= <- <-].
      eapply FieldRound_server, reconcileField_round, Hstep.
Qed.

Lemma server_cluster w w' : server w' = server w -> cluster w' = cluster w.
Proof. unfold server. intros [= H _ _ _]. exact H. Qed.

Lemma server_now r w w' : server w' = server w -> now r w' = now r w.
Proof. unfold server, now. intros [= _ H _ _]. rewrite H. reflexivity. Qed.

Lemma server_updateError w w' :
  server w' = server w -> updateError w' = updateError w.
Proof. unfold server. intros [= _ _ _ H]. exact H. Qed.

(** The loop over a list cut in two. *)
Lemma reconcileFields_app r secret generatedAt pre post v w :
  reconcileFields r secret generatedAt (pre ++ post)%list v w
  = match reconcileFields r secret generatedAt pre v w with
    | (Next v', w') => reconcileFields r secret generatedAt post v' w'
    | (Return err, w') => (Return err, w')
    end.
Proof.
  revert v w. induction pre as [|field rest IH]; intros v w; simpl.
  - reflexivity.
  - destruct (reconcileField r secret generatedAt field v w) as [[v1|err] w1].
    + apply IH.
    + reflexivity.
Qed.

End FieldLoop.

(** ** An object without a readable generated-at *)

Section NeverGenerated.
Context `{lib : GoLib}.

Import controller.

Lemma noValidTimestamp_None (r : SecretReconciler)
    (annotations : gmap string string) :
  Spec.noValidTimestamp (annotations !! AnnotationGeneratedAt) ->
  getGeneratedAtTime r annotations = None.
Proof.
  unfold Spec.noValidTimestamp, getGeneratedAtTime.
  destruct (annotations !! AnnotationGeneratedAt) as [value|]; [|reflexivity].
  intros ->. destruct (negb (String.eqb value "")); reflexivity.
Qed.

Lemma rotationCheck_None r w rotationInterval next :
  rotationCheck r w None rotationInterval next
  = Some (false, if 0 <? rotationInterval then lower next rotationInterval
                 else next).
Proof. unfold rotationCheck. destruct (0 <? rotationInterval); reflexivity. Qed.

(** Without a generated-at time a round never rotates: it skips a field
    that has a value, and generates one that has none. *)
Lemma never_generated_round r secret field v w out w' :
  FieldRound r secret None field v w out w' ->
  rotated v = false ->
  (exists evs, recorded w' = (recorded w ++ evs)%list
               /\ Forall (fun e => reason e = EventReasonGenerationFailed) evs)
  /\ match out with
     | Next v' =>
         rotated v' = false
         /\ forall k val, data v !! k = Some val -> data v' !! k = Some val
     | Return _ => True
     end.
Proof.
  intros Hround Hrot.
  destruct Hround as [Hcheck|next Hcheck Hsome
                     |needs next err tape Hcheck Hneed Hgen
                     |needs next value tape Hcheck Hneed Hgen];
    rewrite rotationCheck_None in Hcheck; try discriminate.
  - split; [exists []; rewrite app_nil_r; split; [reflexivity|constructor]|].
    split; [exact Hrot|]. intros k val Hk. exact Hk.
  - split; [|exact I]. eexists [_]. split; [reflexivity|].
    constructor; [reflexivity|constructor].
  - injection Hcheck as <- <-.
    split; [exists []; rewrite app_nil_r; split; [reflexivity|constructor]|].
    destruct Hneed as [Hnone|Habs]; [|discriminate].
    split; [exact Hrot|]. intros k val Hk. simpl.
    rewrite lookup_insert_ne; [exact Hk|]. intros ->. congruence.
Qed.

Lemma never_generated_loop r secret fields v w out w' :
  reconcileFields r secret None fields v w = (out, w') ->
  rotated v = false ->
  (exists evs, recorded w' = (recorded w ++ evs)%list
               /\ Forall (fun e => reason e = EventReasonGenerationFailed) evs)
  /\ match out with
     | Next v' =>
         rotated v' = false
         /\ forall k val, data v !! k = Some val -> data v' !! k = Some val
     | Return _ => True
     end.
Proof.
  revert v w. induction fields as [|field rest IH]; intros v w; simpl.
  - intros [= <- <-] Hrot.
    split; [exists []; rewrite app_nil_r; split; [reflexivity|constructor]|].
    split; [exact Hrot|]. intros k val Hk. exact Hk.
  - destruct (reconcileField r secret None field v w) as [[v1|err] w1] eqn:Hstep;
      intros Hrest Hrot;
      apply reconcileField_round in Hstep;
      destruct (never_generated_round _ _ _ _ _ _ _ Hstep Hrot)
        as [(evs1 & Hevs1 & Hall1) Hout1].
    + destruct Hout1 as [Hrot1 Hkeep1].
      destruct (IH _ _ Hrest Hrot1) as [(evs2 & Hevs2 & Hall2) Hout].
      split.
      * exists (evs1 ++ evs2)%list. rewrite Hevs2, Hevs1, app_assoc.
        split; [reflexivity|]. apply Forall_app. split; assumption.
      * destruct out as [v'|]; [|exact I]. destruct Hout as [Hrot' Hkeep'].
        split; [exact Hrot'|]. intros k val Hk. apply Hkeep', Hkeep1, Hk.
    + injection Hrest as <- <-. split; [|exact I].
      exists evs1. split; assumption.
Qed.

(** C9: if the generated-at annotation is absent or is not a valid
    RFC3339 timestamp, the object is treated as never generated: no
    rotation takes place or is refused for any field (no event of a cycle
    speaks of one), every field that already has a value keeps it, even
    with a rotation interval configured, and a cycle that writes the
    object back sets generated-at to the current time. *)
Theorem C9_never_generated (r : SecretReconciler) (req : string * string)
    (w : World) (secret : Secret) (res : Result) (err : option error)
    (w' : World) :
  getError w = None ->
  cluster w !! req = Some secret ->
  Spec.noValidTimestamp (Annotations secret !! AnnotationGeneratedAt) ->
  Reconcile r req w = (res, err, w') ->
  (exists evs, recorded w' = (recorded w ++ evs)%list
               /\ Forall (fun e => ~ Spec.rotationEvent e) evs)
  /\ (forall secret', cluster w' !! req = Some secret' ->
      forall k val, Data secret !! k = Some val -> Data secret' !! k = Some val)
  /\ (cluster w' = cluster w
      \/ exists secret',
           cluster w' = <[req := secret']> (cluster w)
           /\ Annotations secret'
              = <[AnnotationGeneratedAt := FormatRFC3339 (now r w)]>
                  (Annotations secret)).
Proof.
  intros Hget Hsecret Hstamp. unfold Reconcile. rewrite Hget, Hsecret.
  assert (Hquiet : forall res0 err0,
             (res0, err0, w) = (res, err, w') ->
             (exists evs, recorded w' = (recorded w ++ evs)%list
                          /\ Forall (fun e => ~ Spec.rotationEvent e) evs)
             /\ (forall secret', cluster w' !! req = Some secret' ->
                 forall k val, Data secret !! k = Some val ->
                               Data secret' !! k = Some val)
             /\ (cluster w' = cluster w
                 \/ exists secret',
                      cluster w' = <[req := secret']> (cluster w)
                      /\ Annotations secret'
                         = <[AnnotationGeneratedAt := FormatRFC3339 (now r w)]>
                             (Annotations secret))).
  { intros res0 err0 [= _ _ <-].
    split; [exists []; rewrite app_nil_r; split; [reflexivity|constructor]|].
    split; [|left; reflexivity].
    intros secret' Hs'. rewrite Hsecret in Hs'. injection Hs' as <-. auto. }
  destruct (Annotations secret !! AnnotationAutogenerate) as [autogenerate|];
    [|apply Hquiet].
  destruct (String.eqb autogenerate ""); [apply Hquiet|].
  destruct (length (parseFields autogenerate) =? 0)%nat; [apply Hquiet|].
  clear Hquiet. rewrite (noValidTimestamp_None r _ Hstamp).
  destruct (reconcileFields r secret None (parseFields autogenerate) _ w)
    as [[v|e] w1] eqn:Hloop.
  - pose proof (reconcileFields_server _ _ _ _ _ _ _ _ Hloop) as Hserver.
    destruct (never_generated_loop _ _ _ _ _ _ _ Hloop eq_refl)
      as [(evs & Hevs & Hall) [Hrot Hkeep]].
    simpl data in Hkeep.
    assert (Hnone : Forall (fun e => ~ Spec.rotationEvent e) evs).
    { eapply Forall_impl; [exact Hall|]. intros e0 He0 [H|H];
        rewrite He0 in H; discriminate. }
    destruct (changed v).
    + unfold Update. rewrite (server_updateError _ _ Hserver).
      rewrite (server_now r _ _ Hserver).
      destruct (updateError w) as [e|].
      * intros [= _ _ <-].
        split; [exists evs; split; assumption|].
        rewrite (server_cluster _ _ Hserver). split; [|left; reflexivity].
        intros secret' Hs'. rewrite Hsecret in Hs'. injection Hs' as <-. auto.
      * rewrite Hrot. intros [= _ _ <-]. simpl.
        rewrite (server_cluster _ _ Hserver).
        split; [|split].
        -- exists (evs ++ [generationSucceeded])%list.
           rewrite Hevs, app_assoc. split; [reflexivity|].
           apply Forall_app. split; [exact Hnone|].
           constructor; [|constructor]. intros [H|H]; discriminate.
        -- intros secret'. rewrite lookup_insert_eq. intros [= <-]. simpl.
           exact Hkeep.
        -- right. eexists. split; reflexivity.
    + intros [= _ _ <-].
      split; [exists evs; split; assumption|].
      rewrite (server_cluster _ _ Hserver). split; [|left; reflexivity].
      intros secret' Hs'. rewrite Hsecret in Hs'. injection Hs' as <-. auto.
  - pose proof (reconcileFields_server _ _ _ _ _ _ _ _ Hloop) as Hserver.
    destruct (never_generated_loop _ _ _ _ _ _ _ Hloop eq_refl)
      as [(evs & Hevs & Hall) _].
    intros [= _ _ <-].
    split.
    + exists evs. split; [exact Hevs|].
      eapply Forall_impl; [exact Hall|]. intros e0 He0 [H|H];
        rewrite He0 in H; discriminate.
    + rewrite (server_cluster _ _ Hserver). split; [|left; reflexivity].
      intros secret' Hs'. rewrite Hsecret in Hs'. injection Hs' as <-. auto.
Qed.

End NeverGenerated.

(** ** An interval below the minimum *)

Section BelowMinimum.
Context `{lib : GoLib}.

Import controller.

Lemma rotationCheck_below r w g rotationInterval next :
  0 < rotationInterval < config.MinInterval (config.Rotation (Config r)) ->
  rotationCheck r w (Some g) rotationInterval next = None.
Proof.
  intros [Hpos Hlt]. unfold rotationCheck.
  destruct (Z.ltb_spec 0 rotationInterval); [|lia].
  destruct (Z.ltb_spec rotationInterval
              (config.MinInterval (config.Rotation (Config r)))); [|lia].
  reflexivity.
Qed.

Lemma reconcileField_below r secret g field v w :
  0 < getFieldRotationInterval r (Annotations secret) field
    < config.MinInterval (config.Rotation (Config r)) ->
  reconcileField r secret (Some g) field v w
  = (Next v,
     recordEvent
       (belowMinimumWarning
          (getFieldRotationInterval r (Annotations secret) field) field
          (config.MinInterval (config.Rotation (Config r)))) w).
Proof.
  intros Hbelow. unfold reconcileField.
  rewrite (rotationCheck_below _ _ _ _ _ Hbelow). reflexivity.
Qed.

Lemma belowMinimumWarningFor_own field name rotationInterval minInterval :
  Spec.belowMinimumWarningFor field
    (belowMinimumWarning rotationInterval name minInterval)
  = String.eqb name field.
Proof. reflexivity. Qed.

(** What one round does to the value and to the warnings of a field
    whose interval is below the minimum. *)
Lemma below_round r secret g field name v w out w' :
  0 < getFieldRotationInterval r (Annotations secret) field
    < config.MinInterval (config.Rotation (Config r)) ->
  FieldRound r secret (Some g) name v w out w' ->
  exists evs,
    recorded w' = (recorded w ++ evs)%list
    /\ match out with
       | Next v' =>
           data v' !! field = data v !! field
           /\ length (List.filter (Spec.belowMinimumWarningFor field) evs)
              = Spec.occurrences field [name]
       | Return _ => True
       end.
Proof.
  intros Hbelow Hround.
  assert (Hother : forall res,
             rotationCheck r w (Some g)
               (getFieldRotationInterval r (Annotations secret) name)
               (nextRotation v) = Some res ->
             name <> field /\ String.eqb name field = false).
  { intros res Hcheck.
    assert (Hne : name <> field).
    { intros ->. rewrite (rotationCheck_below _ _ _ _ _ Hbelow) in Hcheck.
      discriminate. }
    split; [exact Hne|]. apply String.eqb_neq. exact Hne. }
  destruct Hround as [Hcheck|next Hcheck Hsome
                     |needs next err tape Hcheck Hneed Hgen
                     |needs next value tape Hcheck Hneed Hgen].
  - eexists [_]. split; [reflexivity|]. split; [reflexivity|].
    unfold Spec.occurrences. simpl List.filter.
    rewrite belowMinimumWarningFor_own.
    destruct (String.eqb name field); reflexivity.
  - destruct (Hother _ Hcheck) as [_ Heqb].
    exists []. rewrite app_nil_r. split; [reflexivity|]. split; [reflexivity|].
    unfold Spec.occurrences. simpl. rewrite Heqb. reflexivity.
  - eexists [_]. split; [reflexivity|exact I].
  - destruct (Hother _ Hcheck) as [Hne Heqb].
    exists []. rewrite app_nil_r. split; [reflexivity|]. split.
    + simpl. apply lookup_insert_ne. exact Hne.
    + unfold Spec.occurrences. simpl. rewrite Heqb. reflexivity.
Qed.

Lemma occurrences_cons field name rest :
  Spec.occurrences field (name :: rest)
  = (Spec.occurrences field [name] + Spec.occurrences field rest)%nat.
Proof.
  unfold Spec.occurrences. simpl.
  destruct (String.eqb name field); reflexivity.
Qed.

Lemma below_loop r secret g field fields v w out w' :
  0 < getFieldRotationInterval r (Annotations secret) field
    < config.MinInterval (config.Rotation (Config r)) ->
  reconcileFields r secret (Some g) fields v w = (out, w') ->
  exists evs,
    recorded w' = (recorded w ++ evs)%list
    /\ match out with
       | Next v' =>
           data v' !! field = data v !! field
           /\ length (List.filter (Spec.belowMinimumWarningFor field) evs)
              = Spec.occurrences field fields
       | Return _ => True
       end.
Proof.
  intros Hbelow. revert v w.
  induction fields as [|name rest IH]; intros v w; simpl.
  - intros [= <- <-]. exists []. rewrite app_nil_r. repeat split.
  - destruct (reconcileField r secret (Some g) name v w) as [[v1|err] w1]
      eqn:Hstep; intros Hrest;
      apply reconcileField_round in Hstep;
      destruct (below_round _ _ _ _ _ _ _ _ _ Hbelow Hstep) as (evs1 & Hevs1 & Hout1).
    + destruct Hout1 as [Hdata1 Hcount1].
      destruct (IH _ _ Hrest) as (evs2 & Hevs2 & Hout).
      exists (evs1 ++ evs2)%list. rewrite Hevs2, Hevs1, app_assoc.
      split; [reflexivity|].
      destruct out as [v'|]; [|exact I]. destruct Hout as [Hdata' Hcount'].
      split; [congruence|].
      rewrite List.filter_app, length_app, occurrences_cons. lia.
    + injection Hrest as <- <-. exists evs1. split; [exact Hevs1|exact I].
Qed.

Lemma parseFields_empty : parseFields "" = [].
Proof. vm_compute. reflexivity. Qed.

(** C4, as the code has it: a field whose resolved rotation interval is
    positive but strictly below the configured minimum, on an object
    whose generated-at time exists, is refused every time the loop comes
    to it: the round records exactly one warning for it, leaves every
    loop variable as it was and goes on to the remaining fields.  Its
    stored value is the same after the cycle, whatever the maintenance
    windows; and a cycle that ends without error has recorded as many
    such warnings for it as the autogenerate annotation lists it: exactly
    one when it is listed once. *)
Theorem C4_below_minimum_refused (r : SecretReconciler) (req : string * string)
    (w : World) (secret : Secret) (g : Time) (field : string)
    (res : Result) (err : option error) (w' : World) :
  getError w = None ->
  cluster w !! req = Some secret ->
  getGeneratedAtTime r (Annotations secret) = Some g ->
  0 < getFieldRotationInterval r (Annotations secret) field
    < config.MinInterval (config.Rotation (Config r)) ->
  Reconcile r req w = (res, err, w') ->
  (forall rest v w0,
      reconcileFields r secret (Some g) (field :: rest) v w0
      = reconcileFields r secret (Some g) rest v
          (recordEvent
             (belowMinimumWarning
                (getFieldRotationInterval r (Annotations secret) field) field
                (config.MinInterval (config.Rotation (Config r)))) w0))
  /\ (forall secret', cluster w' !! req = Some secret' ->
      Data secret' !! field = Data secret !! field)
  /\ exists evs,
       recorded w' = (recorded w ++ evs)%list
       /\ (err = None ->
           length (List.filter (Spec.belowMinimumWarningFor field) evs)
           = Spec.occurrences field (Spec.fieldsOf secret)).
Proof.
  intros Hget Hsecret Hg Hbelow Hrun.
  split.
  { intros rest v w0. simpl. rewrite (reconcileField_below _ _ _ _ _ _ Hbelow).
    reflexivity. }
  revert Hrun. unfold Reconcile, Spec.fieldsOf. rewrite Hget, Hsecret, Hg.
  assert (Hquiet : forall res0 err0 (fields : list string),
             fields = [] ->
             (res0, err0, w) = (res, err, w') ->
             (forall secret', cluster w' !! req = Some secret' ->
                              Data secret' !! field = Data secret !! field)
             /\ exists evs,
                  recorded w' = (recorded w ++ evs)%list
                  /\ (err = None ->
                      length (List.filter (Spec.belowMinimumWarningFor field) evs)
                      = Spec.occurrences field fields)).
  { intros res0 err0 fields -> [= _ _ <-]. split.
    - intros secret' Hs'. rewrite Hsecret in Hs'. injection Hs' as <-. auto.
    - exists []. rewrite app_nil_r. split; [reflexivity|]. reflexivity. }
  destruct (Annotations secret !! AnnotationAutogenerate) as [autogenerate|];
    [|apply Hquiet; reflexivity].
  destruct (String.eqb autogenerate "") eqn:Hempty.
  { apply Hquiet. apply String.eqb_eq in Hempty. subst autogenerate.
    apply parseFields_empty. }
  destruct (parseFields autogenerate) as [|name fields] eqn:Hfields;
    [apply Hquiet; reflexivity|].
  clear Hquiet. cbv iota beta. simpl length.
  change ((S (length fields) =? 0)%nat) with false. cbv iota.
  destruct (reconcileFields r secret (Some g) (name :: fields) _ w)
    as [[v|e] w1] eqn:Hloop.
  - pose proof (reconcileFields_server _ _ _ _ _ _ _ _ Hloop) as Hserver.
    destruct (below_loop _ _ _ _ _ _ _ _ _ Hbelow Hloop)
      as (evs & Hevs & Hdata & Hcount).
    simpl data in Hdata.
    destruct (changed v).
    + unfold Update. rewrite (server_updateError _ _ Hserver).
      destruct (updateError w) as [e|].
      * intros [= _ <- <-]. rewrite (server_cluster _ _ Hserver). split.
        -- intros secret' Hs'. rewrite Hsecret in Hs'. injection Hs' as <-. auto.
        -- exists evs. split; [exact Hevs|]. discriminate.
      * intros [= _ _ <-]. split.
        -- intros secret'.
           destruct (rotated v); [destruct (config.CreateEvents _)|]; simpl;
             rewrite lookup_insert_eq; intros [= <-]; exact Hdata.
        -- destruct (rotated v); [destruct (config.CreateEvents _)|]; simpl.
           ++ exists (evs ++ [rotationSucceeded])%list.
              rewrite Hevs, app_assoc. split; [reflexivity|]. intros _.
              rewrite List.filter_app, length_app. simpl. lia.
           ++ exists evs. split; [exact Hevs|]. intros _. exact Hcount.
           ++ exists (evs ++ [generationSucceeded])%list.
              rewrite Hevs, app_assoc. split; [reflexivity|]. intros _.
              rewrite List.filter_app, length_app. simpl. lia.
    + intros [= _ _ <-]. rewrite (server_cluster _ _ Hserver). split.
      * intros secret' Hs'. rewrite Hsecret in Hs'. injection Hs' as <-. auto.
      * exists evs. split; [exact Hevs|]. intros _. exact Hcount.
  - pose proof (reconcileFields_server _ _ _ _ _ _ _ _ Hloop) as Hserver.
    destruct (below_loop _ _ _ _ _ _ _ _ _ Hbelow Hloop) as (evs & Hevs & _).
    intros [= _ <- <-]. rewrite (server_cluster _ _ Hserver). split.
    + intros secret' Hs'. rewrite Hsecret in Hs'. injection Hs' as <-. auto.
    + exists evs. split; [exact Hevs|]. discriminate.
Qed.

End BelowMinimum.

(** ** A value that cannot be generated *)

Section GenerationFailure.
Context `{lib : GoLib}.

Import controller.

(** A round that needs a value and does not get one. *)
Lemma reconcileField_failed r secret generatedAt field v w needsRotation next
    err tape :
  rotationCheck r w generatedAt
    (getFieldRotationInterval r (Annotations secret) field) (nextRotation v)
  = Some (needsRotation, next) ->
  data v !! field = None \/ needsRotation = true ->
  generator.Generate (Generator r) (getFieldType r (Annotations secret) field)
    (getFieldLength r (Annotations secret) field) (entropy w) = (Err err, tape) ->
  reconcileField r secret generatedAt field v w
  = (Return (generationError field err),
     recordEvent (generationFailedWarning field err) (withEntropy tape w)).
Proof.
  intros Hcheck Hneed Hgen. unfold reconcileField. rewrite Hcheck.
  simpl data.
  assert (Hskip : bool_decide (is_Some (data v !! field)) && negb needsRotation
                  = false).
  { destruct Hneed as [Hnone| ->].
    - rewrite Hnone. reflexivity.
    - apply andb_false_r. }
  rewrite Hskip, Hgen. reflexivity.
Qed.

(** C2, as the code has it: when value generation fails for a field,
    be it a first-time generation (the field has no value) or a due
    rotation, the whole reconciliation cycle ends there: one
    GenerationFailed warning is recorded for the field, [Reconcile]
    returns the error, nothing is written back, and the fields listed
    after it are not evaluated. *)
Theorem C2_generation_failure_aborts_cycle (r : SecretReconciler)
    (req : string * string) (w : World) (secret : Secret)
    (autogenerate : string) (pre : list string) (field : string)
    (post : list string) (v : LoopVars) (wv : World) (needsRotation : bool)
    (next : option Z) (err : error) (tape : string) :
  getError w = None ->
  cluster w !! req = Some secret ->
  Annotations secret !! AnnotationAutogenerate = Some autogenerate ->
  parseFields autogenerate = (pre ++ field :: post)%list ->
  reconcileFields r secret (getGeneratedAtTime r (Annotations secret)) pre
    {| data := Data secret; changed := false; rotated := false;
       nextRotation := None |} w = (Next v, wv) ->
  rotationCheck r wv (getGeneratedAtTime r (Annotations secret))
    (getFieldRotationInterval r (Annotations secret) field) (nextRotation v)
  = Some (needsRotation, next) ->
  data v !! field = None \/ needsRotation = true ->
  generator.Generate (Generator r) (getFieldType r (Annotations secret) field)
    (getFieldLength r (Annotations secret) field) (entropy wv) = (Err err, tape) ->
  exists w',
    Reconcile r req w = (noResult, Some (generationError field err), w')
    /\ cluster w' = cluster w
    /\ recorded w' = (recorded wv ++ [generationFailedWarning field err])%list.
Proof.
  intros Hget Hsecret Hauto Hfields Hpre Hcheck Hneed Hgen.
  exists (recordEvent (generationFailedWarning field err) (withEntropy tape wv)).
  split; [|split; [|reflexivity]].
  - unfold Reconcile. rewrite Hget, Hsecret, Hauto.
    destruct (String.eqb autogenerate "") eqn:Hempty.
    { apply String.eqb_eq in Hempty. subst autogenerate.
      rewrite parseFields_empty in Hfields. destruct pre; discriminate. }
    rewrite Hfields.
    assert (Hlen : (length (pre ++ field :: post) =? 0)%nat = false).
    { rewrite length_app. simpl. apply Nat.eqb_neq. lia. }
    rewrite Hlen, reconcileFields_app, Hpre. simpl.
    rewrite (reconcileField_failed _ _ _ _ _ _ _ _ _ _ Hcheck Hneed Hgen).
    reflexivity.
  - simpl. apply server_cluster.
    eapply reconcileFields_server, Hpre.
Qed.

End GenerationFailure.

(** ** The requeue delay *)

Section Requeue.
Context `{lib : GoLib}.

Import controller.

Lemma fold_min_le (l : list Z) (a : Z) : fold_left Z.min l a <= a.
Proof.
  revert a. induction l as [|x l IH]; intros a; simpl; [lia|].
  specialize (IH (Z.min a x)). lia.
Qed.

Lemma fold_min_least (l : list Z) (a : Z) :
  Forall (fun x => fold_left Z.min l a <= x) l.
Proof.
  revert a. induction l as [|x l IH]; intros a; simpl; constructor.
  - pose proof (fold_min_le l (Z.min a x)). lia.
  - apply IH.
Qed.

Lemma fold_min_member (l : list Z) (a : Z) :
  fold_left Z.min l a = a \/ List.In (fold_left Z.min l a) l.
Proof.
  revert a. induction l as [|x l IH]; intros a; simpl; [left; reflexivity|].
  destruct (IH (Z.min a x)) as [Heq|Hin]; [|right; right; exact Hin].
  rewrite Heq. destruct (Z.min_spec a x) as [[_ ->]|[_ ->]]; auto.
Qed.

(** [Spec.minimumOf] is the least element of the list. *)
Lemma minimumOf_least (l : list Z) (m : Z) :
  Spec.minimumOf l = Some m -> List.In m l /\ Forall (fun x => m <= x) l.
Proof.
  destruct l as [|d rest]; simpl; [discriminate|]. intros [= <-]. split.
  - destruct (fold_min_member rest d) as [->|Hin]; auto.
  - constructor; [apply fold_min_le|apply fold_min_least].
Qed.

Lemma lower_Some (n d : Z) : lower (Some n) d = Some (Z.min n d).
Proof. simpl. destruct (Z.ltb_spec d n); f_equal; lia. Qed.

Lemma fold_lower_Some (l : list Z) (n : Z) :
  fold_left lower l (Some n) = Some (fold_left Z.min l n).
Proof.
  revert n. induction l as [|d l IH]; intros n; [reflexivity|].
  change (fold_left lower (d :: l) (Some n))
    with (fold_left lower l (lower (Some n) d)).
  rewrite lower_Some. apply IH.
Qed.

(** Offering the candidates one after the other leaves the minimum. *)
Lemma fold_lower_None (l : list Z) :
  fold_left lower l None = Spec.minimumOf l.
Proof. destruct l as [|d l]; [reflexivity|]. simpl. apply fold_lower_Some. Qed.



Lemma recalculate_fold r annotations fields next :
  recalculate r annotations fields next
  = fold_left lower (Spec.fullIntervals r annotations fields) next.
Proof.
  revert next. unfold Spec.fullIntervals.
  induction fields as [|field rest IH]; intros next; simpl; [reflexivity|].
  rewrite IH. destruct (0 <? getFieldRotationInterval r annotations field);
    reflexivity.
Qed.

(** Writing generated-at does not touch a rotation interval. *)
Lemma interval_after_write r annotations stamp field :
  getFieldRotationInterval r (<[AnnotationGeneratedAt := stamp]> annotations) field
  = getFieldRotationInterval r annotations field.
Proof.
  unfold getFieldRotationInterval, defaultRotationInterval.
  rewrite !lookup_insert_ne; [reflexivity| |]; discriminate.
Qed.

Lemma fullIntervals_after_write r annotations stamp fields :
  Spec.fullIntervals r (<[AnnotationGeneratedAt := stamp]> annotations) fields
  = Spec.fullIntervals r annotations fields.
Proof.
  unfold Spec.fullIntervals. f_equal. apply List.map_ext.
  intros field. apply interval_after_write.
Qed.

Lemma unstamped_round_next r secret field v w v1 w1 :
  FieldRound r secret None field v w (Next v1) w1 ->
  nextRotation v1
  = if 0 <? getFieldRotationInterval r (Annotations secret) field
    then lower (nextRotation v)
           (getFieldRotationInterval r (Annotations secret) field)
    else nextRotation v.
Proof.
  intros Hround.
  inversion Hround as [Hcheck|next Hcheck Hsome
                      |needs next err tape Hcheck Hneed Hgen
                      |needs next value tape Hcheck Hneed Hgen];
    rewrite rotationCheck_None in Hcheck; try discriminate;
    injection Hcheck; intros; subst; reflexivity.
Qed.

(** The loop on an object without a generated-at time: each field
    with a positive interval offers it. *)
Lemma unstamped_loop_next r secret fields v w v' w' :
  reconcileFields r secret None fields v w = (Next v', w') ->
  nextRotation v'
  = fold_left lower (Spec.fullIntervals r (Annotations secret) fields)
      (nextRotation v).
Proof.
  revert v w. unfold Spec.fullIntervals.
  induction fields as [|field rest IH]; intros v w; simpl.
  - intros [= <- _]. reflexivity.
  - destruct (reconcileField r secret None field v w) as [[v1|err] w1] eqn:Hstep;
      [|discriminate].
    intros Hrest. rewrite (IH _ _ Hrest).
    apply reconcileField_round in Hstep.
    rewrite (unstamped_round_next _ _ _ _ _ _ _ Hstep).
    destruct (0 <? getFieldRotationInterval r (Annotations secret) field);
      reflexivity.
Qed.





Lemma filter_nil_Forall {A} (f : A -> bool) (l : list A) :
  List.filter f l = [] -> Forall (fun x => f x = false) l.
Proof.
  induction l as [|x l IH]; simpl; [constructor|].
  destruct (f x) eqn:Hx; [discriminate|]. intros Hl.
  constructor; [exact Hx|apply IH, Hl].
Qed.

Lemma fullIntervals_nil r annotations fields :
  Spec.fullIntervals r annotations fields = [] ->
  Forall (fun field =>
            (0 <? getFieldRotationInterval r annotations field) = false) fields.
Proof.
  unfold Spec.fullIntervals. intros Hnil.
  apply filter_nil_Forall in Hnil. rewrite Forall_map in Hnil. exact Hnil.
Qed.


End Requeue.

(** ** Maintenance windows and the reconciler *)

Section WindowsAndReconciler.
Context `{lib : GoLib}.

Import controller.

Lemma reconcileFields_withWindows windows r secret generatedAt fields v w :
  reconcileFields (withWindows windows r) secret generatedAt fields v w
  = reconcileFields r secret generatedAt fields v w.
Proof.
  revert v w. induction fields as [|field rest IH]; intros v w; [reflexivity|].
  simpl reconcileFields.
  change (reconcileField (withWindows windows r) secret generatedAt field v w)
    with (reconcileField r secret generatedAt field v w).
  destruct (reconcileField r secret generatedAt field v w) as [[v1|err] w1];
    [apply IH|reflexivity].
Qed.

Lemma recalculate_withWindows windows r annotations fields next :
  recalculate (withWindows windows r) annotations fields next
  = recalculate r annotations fields next.
Proof.
  revert next. induction fields as [|field rest IH]; intros next; [reflexivity|].
  simpl. apply IH.
Qed.

(** [Reconcile] does not read the maintenance windows: whatever windows
    are configured, enabled or not, a reconciliation takes the same
    course. *)
Lemma Reconcile_withWindows windows r req w :
  Reconcile (withWindows windows r) req w = Reconcile r req w.
Proof.
  unfold Reconcile.
  destruct (getError w); [reflexivity|].
  destruct (cluster w !! req) as [secret|]; [|reflexivity].
  destruct (Annotations secret !! AnnotationAutogenerate) as [autogenerate|];
    [|reflexivity].
  destruct (String.eqb autogenerate ""); [reflexivity|].
  destruct (length (parseFields autogenerate) =? 0)%nat; [reflexivity|].
  rewrite reconcileFields_withWindows.
  change (getGeneratedAtTime (withWindows windows r) (Annotations secret))
    with (getGeneratedAtTime r (Annotations secret)).
  destruct (reconcileFields r secret _ (parseFields autogenerate) _ w)
    as [[v|err] w1]; [|reflexivity].
  destruct (changed v); [|reflexivity].
  change (now (withWindows windows r) w1) with (now r w1).
  destruct (Update req _ w1) as [[err|] w2]; [reflexivity|].
  rewrite recalculate_withWindows. reflexivity.
Qed.

End WindowsAndReconciler.

(** ** Duration arithmetic within range *)

Lemma wrap64_exact (z : Z) : minInt64 <= z <= maxInt64 -> wrap64 z = z.
Proof.
  unfold wrap64, minInt64, maxInt64. intros H.
  rewrite Z.mod_small; lia.
Qed.

Lemma Sub_exact (t u : Time) :
  minInt64 <= unixNano t - unixNano u <= maxInt64 ->
  Sub t u = unixNano t - unixNano u.
Proof.
  unfold Sub. intros H.
  destruct (Z.ltb_spec (unixNano t - unixNano u) minInt64); [lia|].
  destruct (Z.ltb_spec maxInt64 (unixNano t - unixNano u)); [lia|].
  reflexivity.
Qed.

(** Where the object was generated in the past, no longer ago than a
    [Duration] can hold, the time left of an interval is
    interval - (now - generatedAt) in plain arithmetic. *)
Lemma remaining_exact (interval : Z) (now generatedAt : Time) :
  0 <= unixNano now - unixNano generatedAt <= maxInt64 ->
  0 < interval <= maxInt64 ->
  durSub interval (Sub now generatedAt)
  = interval - (unixNano now - unixNano generatedAt).
Proof.
  intros Hpast Hinterval. unfold durSub.
  rewrite Sub_exact by (unfold minInt64, maxInt64 in *; lia).
  apply wrap64_exact. unfold minInt64, maxInt64 in *. lia.
Qed.

(** ** The civil calendar

    [civilFromDays] and [daysFromCivil] are inverse to each other.  Within
    an era of 400 years the arithmetic is checked day by day; eras
    repeat. *)

(** Every day of the 400-year era passes the check. *)
Lemma era_days_checked : eraDaysChecked (Z.to_nat 146097) 0 = true.
Proof. vm_compute. reflexivity. Qed.

Lemma eraDaysChecked_each (n : nat) (first doe : Z) :
  eraDaysChecked n first = true ->
  first <= doe < first + Z.of_nat n -> eraDayChecked doe = true.
Proof.
  revert first. induction n as [|k IH]; intros first Hall Hdoe; [lia|].
  simpl in Hall. apply andb_true_iff in Hall as [Hfirst Hrest].
  destruct (Z.eq_dec doe first) as [->|Hne]; [exact Hfirst|].
  apply (IH (first + 1) Hrest). lia.
Qed.

Lemma eraDayChecked_all (doe : Z) :
  0 <= doe < 146097 -> eraDayChecked doe = true.
Proof.
  intros Hdoe. apply (eraDaysChecked_each (Z.to_nat 146097) 0 doe era_days_checked).
  rewrite Z2Nat.id; lia.
Qed.

(** [daysFromCivil] undoes [civilFromDays], for every day number. *)
Lemma civil_round_trip (z : Z) (y m d : Z) :
  civilFromDays z = (y, m, d) ->
  daysFromCivil y m d = z /\ 1 <= m <= 12 /\ 1 <= d <= 31.
Proof.
  unfold civilFromDays.
  set (era := (z + 719468) / 146097).
  set (doe := z + 719468 - era * 146097).
  assert (Hdoe : 0 <= doe < 146097).
  { unfold doe, era. pose proof (Z.mod_pos_bound (z + 719468) 146097 ltac:(lia)).
    pose proof (Z.div_mod (z + 719468) 146097 ltac:(lia)). lia. }
  pose proof (eraDayChecked_all doe Hdoe) as Hchk.
  unfold eraDayChecked in Hchk.
  set (yoe := (doe - doe / 1460 + doe / 36524 - doe / 146096) / 365) in *.
  set (doy := doe - (365 * yoe + yoe / 4 - yoe / 100)) in *.
  set (mp := (5 * doy + 2) / 153) in *.
  set (dd := doy - (153 * mp + 2) / 5 + 1) in *.
  cbv zeta in Hchk.
  repeat rewrite andb_true_iff in Hchk.
  destruct Hchk as [[[[[[Hy0 Hy1] Hm0] Hm1] Hd0] Hd1] Hrt].
  apply Z.leb_le in Hy0, Hm0, Hm1, Hd0, Hd1. apply Z.ltb_lt in Hy1.
  apply Z.eqb_eq in Hrt.
  assert (Hera : (yoe + era * 400) / 400 = era).
  { rewrite Z.div_add by lia. rewrite Z.div_small by lia. lia. }
  assert (Hz : z = era * 146097 + doe - 719468) by (unfold doe; lia).
  clearbody era doe yoe doy mp dd.
  destruct (Z.ltb_spec mp 10) as [Hlt|Hge].
  - destruct (Z.leb_spec (mp + 3) 2) as [?|_]; [lia|].
    intros [= <- <- <-]. unfold daysFromCivil.
    destruct (Z.leb_spec (mp + 3) 2) as [?|_]; [lia|].
    destruct (Z.ltb_spec 2 (mp + 3)) as [_|?]; [|lia].
    cbv zeta. rewrite Hera.
    replace (mp + 3 - 3) with mp by lia.
    replace (yoe + era * 400 - era * 400) with yoe by lia.
    split; [|lia]. rewrite Hrt. lia.
  - destruct (Z.leb_spec (mp - 9) 2) as [_|?]; [|lia].
    intros [= <- <- <-]. unfold daysFromCivil.
    destruct (Z.leb_spec (mp - 9) 2) as [_|?]; [|lia].
    destruct (Z.ltb_spec 2 (mp - 9)) as [?|_]; [lia|].
    cbv zeta.
    replace (yoe + era * 400 + 1 - 1) with (yoe + era * 400) by lia.
    rewrite Hera.
    replace (mp - 9 + 9) with mp by lia.
    replace (yoe + era * 400 - era * 400) with yoe by lia.
    split; [|lia]. rewrite Hrt. lia.
Qed.

Lemma daysFromCivil_add (y m d k : Z) :
  daysFromCivil y m (d + k) = daysFromCivil y m d + k.
Proof.
  unfold daysFromCivil. cbv zeta.
  destruct (m <=? 2); destruct (2 <? m); lia.
Qed.

Lemma Date_constant (loc : Location) (o y m d h mi s ns : Z) :
  constantOffset loc o -> 1 <= m <= 12 ->
  Date y m d h mi s ns loc
  = {| unixNano := (daysFromCivil y m d * 86400 + h * 3600 + mi * 60 + s - o)
                   * Second + ns;
       location := loc |}.
Proof.
  intros Hloc Hm. unfold Date.
  replace ((m - 1) / 12) with 0 by (symmetry; apply Z.div_small; lia).
  replace ((m - 1) mod 12 + 1) with m by (rewrite Z.mod_small; lia).
  replace (y + 0) with y by lia.
  set (unix := daysFromCivil y m d * 86400 + h * 3600 + mi * 60 + s).
  pose proof (Hloc unix) as H1.
  destruct (lookup loc unix) as [[o1 start] stop]. simpl in H1. subst o1.
  destruct (Z.eqb_spec o 0) as [->|Hne].
  - f_equal. lia.
  - pose proof (Hloc (unix - o)) as H2.
    destruct (lookup loc (unix - o)) as [[o2 start2] stop2]. simpl in H2. subst o2.
    destruct ((unix - o <? start) || (stop <=? unix - o)); reflexivity.
Qed.

Lemma localSeconds_constant (loc : Location) (o : Z) (t : Time) :
  constantOffset loc o -> location t = loc ->
  localSeconds t = Unix t + o.
Proof.
  intros Hloc Ht. unfold localSeconds, zoneOffset. rewrite Ht.
  pose proof (Hloc (Unix t)) as H.
  destruct (lookup loc (Unix t)) as [[o1 a] b]. simpl in H. subst. reflexivity.
Qed.

Lemma clock_parts (ls : Z) :
  (ls mod 86400) / 3600 * 3600 + (ls mod 3600) / 60 * 60 + ls mod 60
  = ls mod 86400
  /\ (ls mod 86400) / 3600 * 60 + (ls mod 3600) / 60 = (ls mod 86400) / 60
  /\ 0 <= ls mod 86400 < 86400.
Proof.
  assert (H1 : ls mod 3600 = (ls mod 86400) mod 3600).
  { symmetry. apply Z.mod_mod_divide. exists 24. reflexivity. }
  assert (H2 : ls mod 60 = (ls mod 3600) mod 60).
  { symmetry. apply Z.mod_mod_divide. exists 60. reflexivity. }
  rewrite H2, H1.
  pose proof (Z.mod_pos_bound ls 86400 ltac:(lia)) as Hr.
  set (r := ls mod 86400) in *. clearbody r.
  pose proof (Z.div_mod r 3600 ltac:(lia)) as E1.
  pose proof (Z.mod_pos_bound r 3600 ltac:(lia)) as B1.
  set (q := r / 3600) in *. set (r4 := r mod 3600) in *. clearbody q r4.
  pose proof (Z.div_mod r4 60 ltac:(lia)) as E2.
  pose proof (Z.mod_pos_bound r4 60 ltac:(lia)) as B2.
  set (q5 := r4 / 60) in *. set (r5 := r4 mod 60) in *. clearbody q5 r5.
  split; [lia|]. split; [|lia].
  apply (Z.div_unique r 60 (q * 60 + q5) r5); lia.
Qed.

Lemma clock_of_start (day h mi : Z) :
  0 <= h <= 23 -> 0 <= mi <= 59 ->
  let ls := day * 86400 + h * 3600 + mi * 60 + 0 in
  ls / 86400 = day /\ (ls mod 86400) / 3600 = h /\ (ls mod 3600) / 60 = mi.
Proof.
  intros Hh Hmi ls.
  assert (E1 : ls / 86400 = day).
  { symmetry. apply (Z.div_unique ls 86400 day (h * 3600 + mi * 60)); unfold ls; lia. }
  assert (E2 : ls mod 86400 = h * 3600 + mi * 60).
  { symmetry. apply (Z.mod_unique ls 86400 day (h * 3600 + mi * 60)); unfold ls; lia. }
  assert (E3 : ls mod 3600 = mi * 60).
  { symmetry. apply (Z.mod_unique ls 3600 (day * 24 + h) (mi * 60)); unfold ls; lia. }
  rewrite E2, E3. split; [exact E1|]. split.
  - symmetry. apply (Z.div_unique _ 3600 h (mi * 60)); lia.
  - symmetry. apply (Z.div_unique _ 60 mi 0); lia.
Qed.

(** ** Maintenance windows: validation and the next start *)

Section WindowSchedule.
Context `{lib : GoLib}.

Import config Schedule.

Lemma ParseTime_clock (timeStr : string) (hour minute : Z) (err : option error) :
  ParseTime timeStr = (hour, minute, err) ->
  match err with
  | None => 0 <= hour <= 23 /\ 0 <= minute <= 59
  | Some _ => hour = 0 /\ minute = 0
  end.
Proof.
  unfold ParseTime.
  destruct (String.eqb timeStr ""); [intros [= <- <- <-]; split; reflexivity|].
  destruct (Split timeStr ":"%char) as [|p0 [|p1 [|p2 rest]]];
    try (intros [= <- <- <-]; split; reflexivity).
  destruct (SscanfInt p0) as [h|]; [|intros [= <- <- <-]; split; reflexivity].
  destruct (SscanfInt p1) as [m|]; [|intros [= <- <- <-]; split; reflexivity].
  destruct (Z.ltb_spec h 0); simpl; [intros [= <- <- <-]; split; reflexivity|].
  destruct (Z.ltb_spec 23 h); simpl; [intros [= <- <- <-]; split; reflexivity|].
  destruct (Z.ltb_spec m 0); simpl; [intros [= <- <- <-]; split; reflexivity|].
  destruct (Z.ltb_spec 59 m); simpl; [intros [= <- <- <-]; split; reflexivity|].
  intros [= <- <- <-]. lia.
Qed.

Lemma ParseDay_range (day : string) (weekday : Z) :
  ParseDay day = Ok weekday -> 0 <= weekday <= 6.
Proof.
  unfold ParseDay.
  destruct (validDays !! ToLower (TrimSpace day)) as [wd|] eqn:Hday;
    [|discriminate].
  intros [= <-]. unfold validDays in Hday.
  apply elem_of_list_to_map_2 in Hday.
  repeat (apply elem_of_cons in Hday as [[= _ ->]|Hday]; [vm_compute; split; discriminate|]).
  apply elem_of_nil in Hday. contradiction.
Qed.

Lemma dayMatches_parseDays (days : list string) (currentDay : Z) :
  dayMatches days currentDay
  = existsb (fun day => day =? currentDay) (parseDays days).
Proof.
  induction days as [|day rest IH]; simpl; [reflexivity|].
  destruct (ParseDay day) as [weekday|e]; simpl; [|exact IH].
  destruct (weekday =? currentDay); [reflexivity|exact IH].
Qed.

Lemma parseDays_range (days : list string) :
  Forall (fun weekday => 0 <= weekday <= 6) (parseDays days).
Proof.
  induction days as [|day rest IH]; simpl; [constructor|].
  destruct (ParseDay day) as [weekday|e] eqn:Hday; [|exact IH].
  constructor; [eapply ParseDay_range, Hday|exact IH].
Qed.

Lemma parseDays_validated (days : list string) :
  validateDays days = None -> length (parseDays days) = length days.
Proof.
  induction days as [|day rest IH]; simpl; [reflexivity|].
  destruct (ParseDay day) as [weekday|e]; [|discriminate].
  intros H. simpl. rewrite IH; [reflexivity|exact H].
Qed.

Lemma todayStart_true (windowDays : list Z)
    (currentDay currentMinutes startMinutes endMinutes : Z) :
  startMinutes < endMinutes ->
  todayStart windowDays currentDay currentMinutes startMinutes endMinutes
  = existsb (fun day => day =? currentDay) windowDays
    && (currentMinutes <? endMinutes).
Proof.
  intros Hse. induction windowDays as [|day rest IH]; simpl; [reflexivity|].
  rewrite IH. destruct (day =? currentDay); simpl; [|reflexivity].
  destruct (Z.ltb_spec currentMinutes startMinutes);
    destruct (Z.ltb_spec currentMinutes endMinutes);
    destruct (Z.leb_spec startMinutes currentMinutes); simpl;
    try reflexivity; try lia.
  all: destruct (existsb _ rest); reflexivity.
Qed.

Lemma nextValidDay_spec (fuel : nat) (daysAhead : Z) (windowDays : list Z)
    (currentDay : Z) :
  8 - daysAhead <= Z.of_nat fuel ->
  match nextValidDay fuel daysAhead windowDays currentDay with
  | Some k =>
      daysAhead <= k <= 7 /\ onDay windowDays currentDay k = true
      /\ forall j, daysAhead <= j < k -> onDay windowDays currentDay j = false
  | None => forall j, daysAhead <= j <= 7 -> onDay windowDays currentDay j = false
  end.
Proof.
  revert daysAhead. induction fuel as [|fuel IH]; intros daysAhead Hfuel; simpl.
  - intros j Hj. lia.
  - destruct (Z.ltb_spec 7 daysAhead) as [Hgt|Hle]; [intros j Hj; lia|].
    fold (onDay windowDays currentDay daysAhead).
    destruct (onDay windowDays currentDay daysAhead) eqn:Hon.
    + split; [lia|]. split; [exact Hon|]. intros j Hj. lia.
    + specialize (IH (daysAhead + 1) ltac:(lia)).
      destruct (nextValidDay fuel (daysAhead + 1) windowDays currentDay) as [k|].
      * destruct IH as (Hk & Hon' & Hmin). split; [lia|]. split; [exact Hon'|].
        intros j Hj. destruct (Z.eq_dec j daysAhead) as [->|Hne]; [exact Hon|].
        apply Hmin. lia.
      * intros j Hj. destruct (Z.eq_dec j daysAhead) as [->|Hne]; [exact Hon|].
        apply IH. lia.
Qed.

Lemma nextValidDay_found (windowDays : list Z) (currentDay : Z) :
  windowDays <> [] ->
  Forall (fun weekday => 0 <= weekday <= 6) windowDays ->
  0 <= currentDay <= 6 ->
  exists k,
    nextValidDay 7 1 windowDays currentDay = Some k
    /\ 1 <= k <= 7 /\ onDay windowDays currentDay k = true.
Proof.
  intros Hne Hrange Hcur.
  pose proof (nextValidDay_spec 7 1 windowDays currentDay ltac:(lia)) as Hspec.
  destruct (nextValidDay 7 1 windowDays currentDay) as [k|].
  - exists k. destruct Hspec as (Hk & Hon & _). auto.
  - exfalso. destruct windowDays as [|day rest]; [congruence|].
    inversion Hrange as [|? ? Hday _]; subst.
    set (j := if (day - currentDay) mod 7 =? 0 then 7 else (day - currentDay) mod 7).
    assert (Hj : 1 <= j <= 7 /\ (currentDay + j) mod 7 = day).
    { unfold j. pose proof (Z.mod_pos_bound (day - currentDay) 7 ltac:(lia)).
      destruct (Z.eqb_spec ((day - currentDay) mod 7) 0) as [E|E].
      - split; [lia|]. 
        assert (day = currentDay).
        { apply Z.mod_divide in E; [|lia]. destruct E as [c Hc]. lia. }
        subst.
        rewrite <- (Z.mod_small currentDay 7) at 2 by lia.
        replace (currentDay + 7) with (currentDay + 1 * 7) by lia.
        apply Z.mod_add. lia.
      - split; [lia|]. rewrite Zplus_mod_idemp_r.
        replace (currentDay + (day - currentDay)) with day by lia.
        apply Z.mod_small. lia. }
    destruct Hj as [Hj1 Hj2].
    specialize (Hspec j ltac:(lia)). unfold onDay in Hspec. simpl in Hspec.
    rewrite Hj2, Z.eqb_refl in Hspec. discriminate.
Qed.


Lemma Unix_of_parts (a ns : Z) :
  0 <= ns < Second -> (a * Second + ns) / Second = a.
Proof.
  intros Hns. unfold Second in *.
  symmetry. apply (Z.div_unique _ 1000000000 a ns); lia.
Qed.

Lemma Date_of_day (loc : Location) (o : Z) (x : Time) (h mi : Z) :
  constantOffset loc o ->
  Date (YearOf x) (MonthOf x) (DayOf x) h mi 0 0 loc
  = {| unixNano := (localSeconds x / 86400 * 86400 + h * 3600 + mi * 60 + 0 - o)
                   * Second + 0;
       location := loc |}.
Proof.
  intros Hconst. unfold YearOf, MonthOf, DayOf, DateOf.
  destruct (civilFromDays (localSeconds x / 86400)) as [[y m] d] eqn:Hcivil.
  destruct (civil_round_trip _ _ _ _ Hcivil) as (Hrt & Hm & _).
  rewrite (Date_constant loc o y m d h mi 0 0 Hconst Hm), Hrt. reflexivity.
Qed.

Lemma AddDate_days (loc : Location) (o : Z) (x : Time) (k : Z) :
  constantOffset loc o -> location x = loc ->
  localSeconds (AddDate x 0 0 k) / 86400 = localSeconds x / 86400 + k.
Proof.
  intros Hconst Hx. unfold AddDate, YearOf, MonthOf, DayOf, DateOf.
  destruct (civilFromDays (localSeconds x / 86400)) as [[y m] d] eqn:Hcivil.
  destruct (civil_round_trip _ _ _ _ Hcivil) as (Hrt & Hm & _).
  rewrite Hx. replace (y + 0) with y by lia. replace (m + 0) with m by lia.
  rewrite (Date_constant loc o y m (d + k) _ _ _ _ Hconst Hm).
  rewrite (localSeconds_constant loc o) by (assumption || reflexivity).
  unfold Unix at 1. cbn [unixNano].
  rewrite Unix_of_parts
    by (unfold NanosecondOf, Second; apply Z.mod_pos_bound; lia).
  rewrite daysFromCivil_add, Hrt.
  unfold HourOf, MinuteOf, SecondOf.
  destruct (clock_parts (localSeconds x)) as (Hparts & _ & Hbound).
  set (ls := localSeconds x) in *.
  symmetry.
  apply (Z.div_unique _ 86400 (ls / 86400 + k) (ls mod 86400)); lia.
Qed.

Lemma NextStart_constant (w : MaintenanceWindow) (t : Time) (loc : Location)
    (o sh sm eh em : Z) :
  LoadLocation (Timezone w) = Some loc ->
  constantOffset loc o ->
  ParseTime (StartTime w) = (sh, sm, None) ->
  ParseTime (EndTime w) = (eh, em, None) ->
  sh * 60 + sm < eh * 60 + em ->
  parseDays (Days w) <> [] ->
  let ls := Unix t + o in
  let today := ls / 86400 in
  let currentDay := (today + 4) mod 7 in
  let currentMinutes := (ls mod 86400) / 60 in
  exists k,
    0 <= k <= 7
    /\ onDay (parseDays (Days w)) currentDay k = true
    /\ (k = 0 <-> onDay (parseDays (Days w)) currentDay 0 = true
                  /\ currentMinutes < eh * 60 + em)
    /\ NextStart w t
       = {| unixNano := ((today + k) * 86400 + sh * 3600 + sm * 60 + 0 - o)
                        * Second + 0;
            location := loc |}.
Proof.
  intros Hloc Hconst Hstart Hend Hse Hdays ls today currentDay currentMinutes.
  assert (Hcur : 0 <= currentDay <= 6).
  { pose proof (Z.mod_pos_bound (today + 4) 7 ltac:(lia)). unfold currentDay. lia. }
  assert (Hon0 : onDay (parseDays (Days w)) currentDay 0
                 = existsb (fun day => day =? currentDay) (parseDays (Days w))).
  { unfold onDay. rewrite Z.add_0_r, Z.mod_small by lia. reflexivity. }
  unfold NextStart. rewrite Hloc, Hstart, Hend.
  assert (Hlen : (length (parseDays (Days w)) =? 0)%nat = false).
  { destruct (parseDays (Days w)); [congruence|reflexivity]. }
  rewrite Hlen.
  set (lt := In t loc).
  assert (Hls : localSeconds lt = ls).
  { unfold ls. apply (localSeconds_constant loc o lt Hconst). reflexivity. }
  assert (Hweekday : Weekday lt = currentDay) by (unfold Weekday; rewrite Hls; reflexivity).
  assert (Hminutes : HourOf lt * 60 + MinuteOf lt = currentMinutes).
  { unfold HourOf, MinuteOf. rewrite Hls. apply (clock_parts ls). }
  rewrite Hweekday, Hminutes, (todayStart_true _ _ _ _ _ Hse), <- Hon0.
  assert (Hfuture : forall k,
             Date (YearOf (AddDate lt 0 0 k)) (MonthOf (AddDate lt 0 0 k))
                  (DayOf (AddDate lt 0 0 k)) sh sm 0 0 loc
             = {| unixNano := ((today + k) * 86400 + sh * 3600 + sm * 60 + 0 - o)
                              * Second + 0;
                  location := loc |}).
  { intros k. rewrite (Date_of_day loc o _ sh sm Hconst).
    rewrite (AddDate_days loc o lt k Hconst eq_refl), Hls. reflexivity. }
  destruct (nextValidDay_found (parseDays (Days w)) currentDay Hdays
              (parseDays_range _) Hcur) as (k & Hk & Hrange & Hon).
  destruct (onDay (parseDays (Days w)) currentDay 0) eqn:Htoday; simpl andb.
  - destruct (Z.ltb_spec currentMinutes (eh * 60 + em)) as [Hin|Hout].
    + exists 0. split; [lia|]. split; [exact Htoday|]. split; [tauto|].
      rewrite (Date_of_day loc o lt sh sm Hconst), Hls. fold today.
      f_equal. lia.
    + rewrite Hk. exists k. split; [lia|]. split; [exact Hon|].
      split; [split; [lia|intros [_ H]; lia]|]. apply Hfuture.
  - rewrite Hk. exists k. split; [lia|]. split; [exact Hon|].
    split; [split; [lia|intros [H _]; discriminate]|]. apply Hfuture.
Qed.


Lemma settledWindow_parts (w : MaintenanceWindow) :
  settledWindow w ->
  exists loc o sh sm eh em,
    LoadLocation (Timezone w) = Some loc /\ constantOffset loc o
    /\ ParseTime (StartTime w) = (sh, sm, None)
    /\ ParseTime (EndTime w) = (eh, em, None)
    /\ sh * 60 + sm < eh * 60 + em
    /\ 0 <= sh <= 23 /\ 0 <= sm <= 59
    /\ parseDays (Days w) <> [].
Proof.
  intros [Hvalid (loc & o & Hloc & Hconst)].
  destruct (Validate_ok w Hvalid)
    as (loc' & sh & sm & eh & em & Hloc' & Hstart & Hend & Hse & Hdays & Hne).
  exists loc, o, sh, sm, eh, em.
  pose proof (ParseTime_clock _ _ _ _ Hstart) as [Hsh Hsm].
  repeat (split; [assumption|]).
  intros Hnil. apply (f_equal (@length Z)) in Hnil.
  rewrite (parseDays_validated _ Hdays) in Hnil.
  destruct (Days w); [congruence|discriminate].
Qed.

(** The reading of a window start on the wall clock of its zone. *)
Lemma start_reading (loc : Location) (o day sh sm : Z) :
  constantOffset loc o -> 0 <= sh <= 23 -> 0 <= sm <= 59 ->
  let x := {| unixNano := (day * 86400 + sh * 3600 + sm * 60 + 0 - o) * Second + 0;
              location := loc |} in
  Unix x + o = day * 86400 + sh * 3600 + sm * 60 + 0
  /\ Weekday (In x loc) = (day + 4) mod 7
  /\ HourOf (In x loc) * 60 + MinuteOf (In x loc) = sh * 60 + sm.
Proof.
  intros Hconst Hsh Hsm x.
  assert (Hunix : Unix x + o = day * 86400 + sh * 3600 + sm * 60 + 0).
  { unfold Unix, x. cbn [unixNano]. rewrite Unix_of_parts by (unfold Second; lia). lia. }
  assert (Hls : localSeconds (In x loc) = day * 86400 + sh * 3600 + sm * 60 + 0).
  { rewrite (localSeconds_constant loc o) by (assumption || reflexivity).
    exact Hunix. }
  destruct (clock_of_start day sh sm Hsh Hsm) as (Hday & Hhour & Hminute).
  split; [exact Hunix|]. unfold Weekday, HourOf, MinuteOf. rewrite Hls.
  rewrite Hday, Hhour, Hminute. split; reflexivity.
Qed.

Lemma weekday_ahead (today k : Z) :
  ((today + 4) mod 7 + k) mod 7 = (today + k + 4) mod 7.
Proof.
  rewrite Zplus_mod_idemp_l. f_equal. lia.
Qed.

Lemma IsInWindow_constant (w : MaintenanceWindow) (t : Time) (loc : Location)
    (o sh sm eh em : Z) :
  LoadLocation (Timezone w) = Some loc ->
  constantOffset loc o ->
  ParseTime (StartTime w) = (sh, sm, None) ->
  ParseTime (EndTime w) = (eh, em, None) ->
  let ls := Unix t + o in
  IsInWindow w t
  = onDay (parseDays (Days w)) ((ls / 86400 + 4) mod 7) 0
    && ((sh * 60 + sm <=? (ls mod 86400) / 60)
        && ((ls mod 86400) / 60 <? eh * 60 + em)).
Proof.
  intros Hloc Hconst Hstart Hend ls.
  unfold IsInWindow. rewrite Hloc, Hstart, Hend.
  assert (Hls : localSeconds (In t loc) = ls).
  { rewrite (localSeconds_constant loc o) by (assumption || reflexivity).
    reflexivity. }
  unfold Weekday, HourOf, MinuteOf. rewrite Hls.
  destruct (clock_parts ls) as (_ & -> & _).
  rewrite dayMatches_parseDays. unfold onDay.
  rewrite Z.add_0_r, Z.mod_mod by lia.
  destruct (existsb _ (parseDays (Days w))); reflexivity.
Qed.

Lemma NextStart_in_window (w : MaintenanceWindow) (t : Time) :
  settledWindow w -> IsInWindow w (NextStart w t) = true.
Proof.
  intros Hw.
  destruct (settledWindow_parts w Hw)
    as (loc & o & sh & sm & eh & em & Hloc & Hconst & Hstart & Hend & Hse
        & Hsh & Hsm & Hdays).
  destruct (NextStart_constant w t loc o sh sm eh em Hloc Hconst Hstart Hend Hse Hdays)
    as (k & Hk & Hon & _ & ->).
  rewrite (IsInWindow_constant w _ loc o sh sm eh em Hloc Hconst Hstart Hend).
  destruct (start_reading loc o ((Unix t + o) / 86400 + k) sh sm Hconst Hsh Hsm)
    as (-> & _ & _).
  destruct (clock_of_start ((Unix t + o) / 86400 + k) sh sm Hsh Hsm)
    as (-> & Hhour & Hminute).
  destruct (clock_parts (((Unix t + o) / 86400 + k) * 86400 + sh * 3600 + sm * 60 + 0))
    as (_ & Hcm & _).
  rewrite <- Hcm, Hhour, Hminute.
  unfold onDay in *. rewrite Z.add_0_r, Z.mod_mod by lia.
  rewrite <- weekday_ahead, Hon. simpl.
  apply andb_true_iff. split; [apply Z.leb_le; lia|apply Z.ltb_lt; lia].
Qed.


Lemma unixNano_parts (t : Time) :
  unixNano t = Unix t * Second + unixNano t mod Second
  /\ 0 <= unixNano t mod Second < Second.
Proof.
  unfold Unix. split.
  - pose proof (Z.div_mod (unixNano t) Second ltac:(unfold Second; lia)). lia.
  - apply Z.mod_pos_bound. unfold Second. lia.
Qed.

Lemma NextStart_position (w : MaintenanceWindow) (t : Time) :
  settledWindow w ->
  (if IsInWindow w t
   then unixNano (NextStart w t) <= unixNano t
   else unixNano t < unixNano (NextStart w t))
  /\ unixNano (NextStart w t) - unixNano t < week.
Proof.
  intros Hw.
  destruct (settledWindow_parts w Hw)
    as (loc & o & sh & sm & eh & em & Hloc & Hconst & Hstart & Hend & Hse
        & Hsh & Hsm & Hdays).
  pose proof (ParseTime_clock _ _ _ _ Hend) as [Heh Hem].
  destruct (NextStart_constant w t loc o sh sm eh em Hloc Hconst Hstart Hend Hse Hdays)
    as (k & Hk & Hon & Hzero & ->).
  rewrite (IsInWindow_constant w t loc o sh sm eh em Hloc Hconst Hstart Hend).
  cbn [unixNano].
  destruct (unixNano_parts t) as [Ht Hns].
  set (ls := Unix t + o) in *.
  pose proof (Z.div_mod ls 86400 ltac:(lia)) as Hdm.
  pose proof (Z.mod_pos_bound ls 86400 ltac:(lia)) as Hr.
  pose proof (Z.div_mod (ls mod 86400) 60 ltac:(lia)) as Hdm60.
  pose proof (Z.mod_pos_bound (ls mod 86400) 60 ltac:(lia)) as Hr60.
  set (today := ls / 86400) in *. set (r := ls mod 86400) in *.
  set (cm := r / 60) in *. set (r60 := r mod 60) in *.
  assert (Hweek : k = 7 -> sh * 60 + sm < cm).
  { intros ->. 
    assert (H0 : onDay (parseDays (Days w)) ((today + 4) mod 7) 0 = true).
    { unfold onDay in *. rewrite Z.add_0_r, Z.mod_mod by lia.
      replace (((today + 4) mod 7 + 7) mod 7) with ((today + 4) mod 7) in Hon;
        [exact Hon|].
      replace ((today + 4) mod 7 + 7) with ((today + 4) mod 7 + 1 * 7) by lia.
      rewrite Z.mod_add, Z.mod_mod by lia. reflexivity. }
    destruct (Z.lt_ge_cases cm (eh * 60 + em)) as [Hlt|Hge]; [|lia].
    assert (7 = 0) by (apply Hzero; split; assumption). lia. }
  unfold week, Hour, Minute, Second in *.
  assert (Hunix : Unix t = today * 86400 + r - o) by (unfold ls in *; lia).
  clearbody today r cm r60 ls.
  split.
  - destruct (onDay (parseDays (Days w)) ((today + 4) mod 7) 0) eqn:Htoday;
      cbn [andb]; cbv iota.
    + destruct (Z.leb_spec (sh * 60 + sm) cm) as [Hs|Hs]; cbn [andb]; cbv iota.
      * destruct (Z.ltb_spec cm (eh * 60 + em)) as [He|He].
        -- assert (k = 0) by (apply Hzero; split; [reflexivity|exact He]). nia.
        -- assert (k <> 0) by (intros Hk0; apply Hzero in Hk0; lia). nia.
      * destruct (Z.eq_dec k 0); nia.
    + assert (k <> 0) by (intros Hk0; apply Hzero in Hk0; destruct Hk0; discriminate).
      nia.
  - destruct (Z.eq_dec k 7) as [Hk7|Hk7]; [specialize (Hweek Hk7)|]; nia.
Qed.

(** X8: for a validated window in a timezone of constant
    offset, asking [NextStart] again at the time it returned gives that
    time again. *)
Theorem X8_NextStart_idempotent (w : MaintenanceWindow) (t : Time) :
  settledWindow w -> NextStart w (NextStart w t) = NextStart w t.
Proof.
  intros Hw.
  destruct (settledWindow_parts w Hw)
    as (loc & o & sh & sm & eh & em & Hloc & Hconst & Hstart & Hend & Hse
        & Hsh & Hsm & Hdays).
  destruct (NextStart_constant w t loc o sh sm eh em Hloc Hconst Hstart Hend Hse Hdays)
    as (k & Hk & Hon & _ & Hx).
  rewrite Hx.
  set (day := (Unix t + o) / 86400 + k) in *.
  set (x := {| unixNano := _; location := loc |}) in *.
  destruct (NextStart_constant w x loc o sh sm eh em Hloc Hconst Hstart Hend Hse Hdays)
    as (k' & Hk' & Hon' & Hzero' & ->).
  destruct (start_reading loc o day sh sm Hconst Hsh Hsm) as (Hunix & _ & _).
  fold x in Hunix. rewrite Hunix in *.
  destruct (clock_of_start day sh sm Hsh Hsm) as (Hday & Hhour & Hminute).
  destruct (clock_parts (day * 86400 + sh * 3600 + sm * 60 + 0)) as (_ & Hcm & _).
  rewrite Hday in *.
  assert (Hk0 : k' = 0).
  { apply Hzero'. split.
    - unfold onDay in *. rewrite Z.add_0_r, Z.mod_mod by lia.
      unfold day. rewrite <- weekday_ahead. exact Hon.
    - rewrite <- Hcm, Hhour, Hminute. lia. }
  subst k'. unfold x. f_equal. lia.
Qed.


Lemma validateDays_None (days : list string) :
  validateDays days = None <-> Forall (fun day => isOk (ParseDay day) = true) days.
Proof.
  induction days as [|day rest IH]; simpl.
  - split; [constructor|reflexivity].
  - destruct (ParseDay day) as [weekday|e] eqn:Hday.
    + rewrite IH. split; [intros H; constructor; [rewrite Hday; reflexivity|exact H]|].
      intros H. inversion H; assumption.
    + split; [discriminate|]. intros H. inversion H as [|? ? Hhd _]; subst.
      rewrite Hday in Hhd. discriminate.
Qed.

(** X2: [MaintenanceWindow.Validate] accepts a window exactly
    when it names at least one day, each of its days parses, both times
    parse with the start strictly before the end (so no window passes
    midnight or is empty), and the timezone is given and can be loaded. *)
Theorem X2_Validate_accepts (w : MaintenanceWindow) :
  Validate w = None
  <-> Days w <> []
      /\ Forall (fun day => isOk (ParseDay day) = true) (Days w)
      /\ (exists sh sm eh em,
            ParseTime (StartTime w) = (sh, sm, None)
            /\ ParseTime (EndTime w) = (eh, em, None)
            /\ 0 <= sh * 60 + sm < eh * 60 + em
            /\ eh * 60 + em <= 1439)
      /\ Timezone w <> ""
      /\ is_Some (LoadLocation (Timezone w)).
Proof.
  unfold Validate. split.
  - intros H.
    destruct (Days w) as [|day days] eqn:Hdays; [discriminate|].
    change ((length (day :: days) =? 0)%nat) with false in H. cbv iota in H.
    destruct (validateDays (day :: days)) as [e|] eqn:Hvd; [discriminate|].
    destruct (ParseTime (StartTime w)) as [[sh sm] [e|]] eqn:Hstart;
      [discriminate|].
    destruct (ParseTime (EndTime w)) as [[eh em] [e|]] eqn:Hend;
      [discriminate|].
    pose proof (ParseTime_clock _ _ _ _ Hstart) as [Hsh Hsm].
    pose proof (ParseTime_clock _ _ _ _ Hend) as [Heh Hem].
    destruct (Z.leb_spec (eh * 60 + em) (sh * 60 + sm)) as [Hle|Hlt];
      [discriminate|].
    destruct (String.eqb_spec (Timezone w) "") as [Hz|Hz]; [discriminate|].
    destruct (LoadLocation (Timezone w)) as [loc|]; [|discriminate].
    split; [discriminate|]. split; [apply validateDays_None, Hvd|].
    split; [exists sh, sm, eh, em; repeat split; (reflexivity || lia)|].
    split; [exact Hz|eauto].
  - intros (Hne & Hdays & (sh & sm & eh & em & Hstart & Hend & Hse & _) & Hz
            & [loc Hloc]).
    destruct (Days w) as [|day days]; [congruence|].
    change ((length (day :: days) =? 0)%nat) with false. cbv iota.
    apply validateDays_None in Hdays. rewrite Hdays, Hstart, Hend.
    destruct (Z.leb_spec (eh * 60 + em) (sh * 60 + sm)) as [Hle|Hlt]; [lia|].
    destruct (String.eqb_spec (Timezone w) "") as [Hz'|_]; [congruence|].
    rewrite Hloc. reflexivity.
Qed.

Lemma validateWindows_None (i : Z) (ws : list MaintenanceWindow) :
  validateWindows i ws = None <-> Forall (fun w => Validate w = None) ws.
Proof.
  revert i. induction ws as [|w rest IH]; intros i; simpl.
  - split; [constructor|reflexivity].
  - destruct (Validate w) as [e|] eqn:Hw.
    + split.
      * destruct (negb (String.eqb (Name w) "")); discriminate.
      * intros H. inversion H; congruence.
    + rewrite IH. split; [intros H; constructor; assumption|].
      intros H. inversion H; assumption.
Qed.

(** X3: [MaintenanceWindowsConfig.Validate] accepts a
    configuration exactly when it has at least one window and every
    window passes its own [Validate]; whether the windows are enabled
    plays no part. *)
Theorem X3_ValidateConfig_accepts (m : MaintenanceWindowsConfig) :
  ValidateConfig m = None
  <-> Windows m <> [] /\ Forall (fun w => Validate w = None) (Windows m).
Proof.
  unfold ValidateConfig.
  destruct (Windows m) as [|w rest] eqn:Hws.
  - simpl. split; [discriminate|]. intros [H _]. congruence.
  - change ((length (w :: rest) =? 0)%nat) with false. cbv iota.
    rewrite validateWindows_None. split; [intros H; split; [discriminate|exact H]|].
    intros [_ H]. exact H.
Qed.

Lemma find_first {A} (f : A -> bool) (l : list A) (x : A) :
  List.find f l = Some x ->
  exists pre post, l = (pre ++ x :: post)%list /\ f x = true
                   /\ Forall (fun y => f y = false) pre.
Proof.
  induction l as [|y l IH]; simpl; [discriminate|].
  destruct (f y) eqn:Hy.
  - intros [= <-]. exists [], l. repeat split; [exact Hy|constructor].
  - intros H. destruct (IH H) as (pre & post & -> & Hx & Hpre).
    exists (y :: pre), post. repeat split; [exact Hx|].
    constructor; assumption.
Qed.

Lemma find_existsb {A} (f : A -> bool) (l : list A) :
  existsb f l = true <-> is_Some (List.find f l).
Proof.
  induction l as [|y l IH]; simpl.
  - split; [discriminate|]. intros [x Hx]. discriminate.
  - destruct (f y); simpl; [|exact IH]. split; [eauto|reflexivity].
Qed.

(** X4: with windows disabled, [GetActiveWindow] names no
    window although [IsInAnyWindow] allows every time; with windows
    enabled the two agree, and the window [GetActiveWindow] returns is
    the first in configuration order that holds the time. *)
Theorem X4_GetActiveWindow_first (m : MaintenanceWindowsConfig) (t : Time) :
  (Enabled m = false ->
   GetActiveWindow m t = None /\ IsInAnyWindow m t = true)
  /\ (Enabled m = true ->
      (IsInAnyWindow m t = true <-> is_Some (GetActiveWindow m t))
      /\ forall w,
           GetActiveWindow m t = Some w ->
           exists pre post,
             Windows m = (pre ++ w :: post)%list
             /\ IsInWindow w t = true
             /\ Forall (fun w' => IsInWindow w' t = false) pre).
Proof.
  unfold GetActiveWindow, IsInAnyWindow. split; intros ->; simpl.
  - split; reflexivity.
  - split; [apply (find_existsb (fun w0 => IsInWindow w0 t))|]. intros w.
    apply (find_first (fun w0 => IsInWindow w0 t)).
Qed.

(** X9: [DurationUntilNextWindow] is 0 when windows
    are disabled, none is configured, or [t] is in a window; for an
    enabled configuration of validated windows in timezones of constant
    offset and a [t] outside all of them, not before the zero time, it is
    the time from [t] to [NextWindowStart], more than 0 and less than
    seven days. *)
Theorem X9_DurationUntilNextWindow_range (m : MaintenanceWindowsConfig) (t : Time) :
  (Enabled m = false \/ Windows m = [] \/ IsInAnyWindow m t = true ->
   DurationUntilNextWindow m t = 0)
  /\ (Enabled m = true -> Windows m <> [] ->
      Forall settledWindow (Windows m) ->
      IsInAnyWindow m t = false ->
      unixNano zeroTime <= unixNano t ->
      DurationUntilNextWindow m t
      = unixNano (NextWindowStart m t) - unixNano t
      /\ 0 < DurationUntilNextWindow m t < week).
Proof.
  unfold DurationUntilNextWindow. split.
  - intros [-> | [Hnil | Hin]]; [reflexivity| |].
    + destruct (Enabled m) eqn:Hen; [|reflexivity]. simpl.
      destruct (IsInAnyWindow m t); [reflexivity|].
      unfold NextWindowStart. rewrite Hen, Hnil. reflexivity.
    + rewrite Hin. destruct (negb (Enabled m)); reflexivity.
  - intros Hen Hne Hall Hout Hzero. rewrite Hen, Hout. simpl negb. cbv iota.
    assert (Hwait : Forall (fun w => unixNano t < unixNano (NextStart w t)
                                     /\ unixNano (NextStart w t) - unixNano t < week)
                           (Windows m)).
    { unfold IsInAnyWindow in Hout. rewrite Hen in Hout. simpl in Hout.
      apply Forall_forall. intros w Hw.
      assert (Hnot : IsInWindow w t = false).
      { destruct (IsInWindow w t) eqn:E; [|reflexivity].
        assert (existsb (fun w0 => IsInWindow w0 t) (Windows m) = true)
          by (apply existsb_exists; exists w; split;
              [apply list_elem_of_In|]; assumption).
        congruence. }
      rewrite Forall_forall in Hall.
      pose proof (NextStart_position w t (Hall w Hw)) as [Hord Hbound].
      rewrite Hnot in Hord. split; assumption. }
    assert (Hnz : Forall (fun w => IsZero (NextStart w t) = false) (Windows m)).
    { eapply Forall_impl; [exact Hwait|]. intros w [Hlt _].
      unfold IsZero. apply Z.eqb_neq. unfold zeroTime in Hzero. simpl in Hzero. lia. }
    unfold NextWindowStart. rewrite Hen.
    destruct (Windows m) as [|w rest]; [congruence|].
    inversion Hnz as [|? ? Hw Hrest]; subst.
    assert (Hstep : (if negb true || (length (w :: rest) =? 0)%nat
                     then zeroTime
                     else earliestStart (w :: rest) t zeroTime)
                    = earliestStart rest t (NextStart w t)) by reflexivity.
    rewrite Hstep. clear Hstep.
    destruct (earliestStart_running rest t (NextStart w t) Hw Hrest)
      as (Hfound & _ & _).
    set (found := earliestStart rest t (NextStart w t)) in *.
    assert (Hf : unixNano t < unixNano found
                 /\ unixNano found - unixNano t < week).
    { inversion Hwait as [|? ? Hw0 Hrest0]; subst.
      destruct Hfound as [->|Hex]; [exact Hw0|].
      apply Exists_exists in Hex as (w' & Hin & ->).
      rewrite Forall_forall in Hrest0. apply Hrest0, Hin. }
    destruct Hf as [Hlt Hbound].
    assert (HnzF : IsZero found = false).
    { unfold IsZero. apply Z.eqb_neq. unfold zeroTime in Hzero. simpl in Hzero. lia. }
    rewrite HnzF.
    rewrite Sub_exact
      by (unfold week, Hour, Minute, Second, minInt64, maxInt64 in *; lia).
    split; [reflexivity|lia].
Qed.


Lemma todayStart_on_day (windowDays : list Z)
    (currentDay currentMinutes startMinutes endMinutes : Z) :
  todayStart windowDays currentDay currentMinutes startMinutes endMinutes = true ->
  existsb (fun day => day =? currentDay) windowDays = true.
Proof.
  induction windowDays as [|day rest IH]; simpl; [discriminate|].
  destruct (day =? currentDay); [reflexivity|exact IH].
Qed.

(** X5: when the timezone loads and at least one day parses,
    [NextStart] finds its day within the coming week: it returns the
    window's start time on the day [k] days ahead, for some [k] within
    0..7 whose weekday is one of the window's; the closing
    [return time.Time{}] is not reached. *)
Theorem X5_NextStart_finds_a_day (w : MaintenanceWindow) (t : Time) (loc : Location) :
  LoadLocation (Timezone w) = Some loc ->
  parseDays (Days w) <> [] ->
  exists k,
    0 <= k <= 7
    /\ onDay (parseDays (Days w)) (Weekday (In t loc)) k = true
    /\ NextStart w t
       = let day := if k =? 0 then In t loc else AddDate (In t loc) 0 0 k in
         Date (YearOf day) (MonthOf day) (DayOf day)
              (fst (fst (ParseTime (StartTime w))))
              (snd (fst (ParseTime (StartTime w)))) 0 0 loc.
Proof.
  intros Hloc Hdays. unfold NextStart. rewrite Hloc.
  destruct (ParseTime (StartTime w)) as [[sh sm] e1].
  destruct (ParseTime (EndTime w)) as [[eh em] e2].
  assert (Hlen : (length (parseDays (Days w)) =? 0)%nat = false).
  { destruct (parseDays (Days w)); [congruence|reflexivity]. }
  rewrite Hlen. cbn [fst snd].
  assert (Hcur : 0 <= Weekday (In t loc) <= 6).
  { unfold Weekday.
    pose proof (Z.mod_pos_bound (localSeconds (In t loc) / 86400 + 4) 7 ltac:(lia)).
    lia. }
  destruct (todayStart _ _ _ _ _) eqn:Htoday.
  - exists 0. split; [lia|]. split; [|reflexivity].
    unfold onDay. rewrite Z.add_0_r, Z.mod_small by lia.
    eapply todayStart_on_day, Htoday.
  - destruct (nextValidDay_found (parseDays (Days w)) (Weekday (In t loc)) Hdays
                (parseDays_range _) Hcur) as (k & Hk & Hrange & Hon).
    rewrite Hk. exists k. split; [lia|]. split; [exact Hon|].
    destruct (Z.eqb_spec k 0); [lia|reflexivity].
Qed.


(** X6: for a validated window in a timezone of constant
    offset, the time [NextStart] returns lies in the window. *)
Theorem X6_NextStart_opens_window (w : MaintenanceWindow) (t : Time) :
  settledWindow w -> IsInWindow w (NextStart w t) = true.
Proof. intros Hw. exact (NextStart_in_window w t Hw). Qed.

(** What the window loop of [NextWindowStart] returns is the running
    value it was entered with or the next start of one of the windows. *)
Lemma earliestStart_member (ws : list MaintenanceWindow) (t earliest : Time) :
  earliestStart ws t earliest = earliest
  \/ Exists (fun w => earliestStart ws t earliest = NextStart w t) ws.
Proof.
  revert earliest. induction ws as [|w rest IH]; intros earliest; simpl.
  - left. reflexivity.
  - destruct (IsZero earliest || Before (NextStart w t) earliest).
    + right. destruct (IH (NextStart w t)) as [->|Hex];
        [left; reflexivity|right; exact Hex].
    + destruct (IH earliest) as [Heq|Hex]; [left; exact Heq|right; right; exact Hex].
Qed.

(** X27: for an enabled configuration with at least one
    window, all validated and in timezones of constant offset, the time
    [NextWindowStart] returns lies in a window: [IsInAnyWindow] holds of
    it and [GetActiveWindow] names a window for it, for every [t]. *)
Theorem X27_NextWindowStart_opens_a_window (m : MaintenanceWindowsConfig) (t : Time) :
  Enabled m = true ->
  Windows m <> [] ->
  Forall settledWindow (Windows m) ->
  IsInAnyWindow m (NextWindowStart m t) = true
  /\ is_Some (GetActiveWindow m (NextWindowStart m t)).
Proof.
  intros Hen Hne Hall.
  assert (Hin : existsb (fun w => IsInWindow w (NextWindowStart m t)) (Windows m)
                = true).
  { unfold NextWindowStart. rewrite Hen.
    destruct (Windows m) as [|w rest] eqn:Hws; [congruence|].
    change (negb true || (length (w :: rest) =? 0)%nat) with false. cbv iota.
    assert (Hfound : Exists (fun w0 => earliestStart (w :: rest) t zeroTime
                                       = NextStart w0 t) (w :: rest)).
    { simpl. change (IsZero zeroTime) with true. simpl.
      destruct (earliestStart_member rest t (NextStart w t)) as [->|Hex];
        [left; reflexivity|right; exact Hex]. }
    apply Exists_exists in Hfound as (w0 & Hw0 & ->).
    apply existsb_exists. exists w0. split; [apply list_elem_of_In, Hw0|].
    rewrite Forall_forall in Hall.
    apply NextStart_in_window, Hall, Hw0. }
  unfold IsInAnyWindow, GetActiveWindow. rewrite Hen. simpl.
  split; [exact Hin|].
  apply (find_existsb (fun w => IsInWindow w (NextWindowStart m t))), Hin.
Qed.

Lemma deadWindow_closed (w : MaintenanceWindow) (t : Time) :
  deadWindow w -> IsInWindow w t = false /\ NextStart w t = zeroTime.
Proof.
  unfold IsInWindow, NextStart. intros [Hloc|Hdays].
  - rewrite Hloc. split; reflexivity.
  - destruct (LoadLocation (Timezone w)) as [loc|]; [|split; reflexivity].
    rewrite dayMatches_parseDays, Hdays. simpl.
    destruct (ParseTime (StartTime w)) as [[sh sm] e1].
    destruct (ParseTime (EndTime w)) as [[eh em] e2].
    split; reflexivity.
Qed.

Lemma earliestStart_dead (ws : list MaintenanceWindow) (t : Time) :
  Forall deadWindow ws -> earliestStart ws t zeroTime = zeroTime.
Proof.
  induction 1 as [|w rest Hw _ IH]; simpl; [reflexivity|].
  rewrite (proj2 (deadWindow_closed w t Hw)).
  change (IsZero zeroTime) with true. simpl. exact IH.
Qed.

Lemma existsb_none {A} (f : A -> bool) (l : list A) :
  Forall (fun x => f x = false) l ->
  existsb f l = false /\ List.find f l = None.
Proof.
  induction 1 as [|x rest Hx _ [IH1 IH2]]; simpl; [split; reflexivity|].
  rewrite Hx. split; assumption.
Qed.

(** X28: an enabled configuration all of whose windows are
    dead (the timezone does not load, or no day parses) never opens:
    [IsInAnyWindow] is false and [GetActiveWindow] names no window at
    every time, [NextWindowStart] is the zero time, and
    [DurationUntilNextWindow] is 0 although no window is open. *)
Theorem X28_dead_windows_never_open (m : MaintenanceWindowsConfig) (t : Time) :
  Enabled m = true ->
  Forall deadWindow (Windows m) ->
  IsInAnyWindow m t = false
  /\ GetActiveWindow m t = None
  /\ NextWindowStart m t = zeroTime
  /\ DurationUntilNextWindow m t = 0.
Proof.
  intros Hen Hall.
  assert (Hclosed : Forall (fun w => IsInWindow w t = false) (Windows m)).
  { eapply Forall_impl; [exact Hall|]. intros w Hw.
    exact (proj1 (deadWindow_closed w t Hw)). }
  assert (Hany : IsInAnyWindow m t = false).
  { unfold IsInAnyWindow. rewrite Hen. simpl.
    exact (proj1 (existsb_none _ _ Hclosed)). }
  assert (Hnext : NextWindowStart m t = zeroTime).
  { unfold NextWindowStart. rewrite Hen. simpl.
    destruct (length (Windows m) =? 0)%nat; [reflexivity|].
    apply earliestStart_dead, Hall. }
  split; [exact Hany|]. split; [|split; [exact Hnext|]].
  - unfold GetActiveWindow. rewrite Hen. simpl.
    exact (proj2 (existsb_none _ _ Hclosed)).
  - unfold DurationUntilNextWindow. rewrite Hen, Hany, Hnext. reflexivity.
Qed.

(** X1: [ParseTime] hands out a time of day or an error, never
    both: without an error the hour is within 0..23 and the minute within
    0..59, and with an error both are 0. *)
Theorem X1_ParseTime_bounds (timeStr : string) :
  match ParseTime timeStr with
  | (hour, minute, None) => 0 <= hour <= 23 /\ 0 <= minute <= 59
  | (hour, minute, Some _) => hour = 0 /\ minute = 0
  end.
Proof.
  destruct (ParseTime timeStr) as [[hour minute] err] eqn:Hparse.
  exact (ParseTime_clock _ _ _ _ Hparse).
Qed.


End WindowSchedule.

(** ** The values the generator returns *)

Section GeneratedValues.

Import generator.

Lemma takeBytes_enough (n : nat) (tape : string) :
  (n <= String.length tape)%nat ->
  exists got rest,
    takeBytes n tape = Some (got, rest)
    /\ tape = got +:+ rest /\ String.length got = n.
Proof.
  revert tape. induction n as [|n IH]; intros tape Hn; simpl.
  - exists "", tape. repeat split.
  - destruct tape as [|c tape]; simpl in Hn; [lia|].
    destruct (IH tape ltac:(lia)) as (got & rest & -> & -> & Hlen).
    exists (String c got), rest. simpl. rewrite Hlen. repeat split.
Qed.

Lemma takeBytes_short (n : nat) (tape : string) :
  (String.length tape < n)%nat -> takeBytes n tape = None.
Proof.
  revert tape. induction n as [|n IH]; intros tape Hn; simpl; [lia|].
  destruct tape as [|c tape]; [reflexivity|]. simpl in Hn.
  rewrite IH by lia. reflexivity.
Qed.

Lemma get_member (i : nat) (s : string) (c : ascii) :
  String.get i s = Some c -> List.In c (list_ascii_of_string s).
Proof.
  revert i. induction s as [|a s IH]; intros i; simpl; [discriminate|].
  destruct i as [|i]; [intros [= ->]; left; reflexivity|].
  intros H. right. eapply IH, H.
Qed.

Lemma get_within (i : nat) (s : string) :
  (i < String.length s)%nat -> is_Some (String.get i s).
Proof.
  revert i. induction s as [|a s IH]; intros i; simpl; [lia|].
  destruct i as [|i]; [eauto|]. intros H. apply IH. lia.
Qed.

Lemma charsetAt_member (charset : string) (b : ascii) :
  charset <> "" ->
  List.In (charsetAt charset b) (list_ascii_of_string charset).
Proof.
  intros Hne. unfold charsetAt.
  assert (Hlen : 0 < Z.of_nat (String.length charset)).
  { destruct charset; [congruence|simpl; lia]. }
  pose proof (Z.mod_pos_bound (byteOf b) _ Hlen) as Hidx.
  destruct (get_within (Z.to_nat (byteOf b mod Z.of_nat (String.length charset)))
              charset ltac:(lia)) as [c Hc].
  rewrite Hc. eapply get_member, Hc.
Qed.

Lemma mapBytes_length (f : ascii -> ascii) (s : string) :
  String.length (mapBytes f s) = String.length s.
Proof. induction s as [|c s IH]; simpl; [reflexivity|]. rewrite IH. reflexivity. Qed.

Lemma mapBytes_members (f : ascii -> ascii) (s : string) (P : ascii -> Prop) :
  (forall c, P (f c)) -> Forall P (list_ascii_of_string (mapBytes f s)).
Proof.
  intros Hf. induction s as [|c s IH]; simpl; constructor; [apply Hf|exact IH].
Qed.

Lemma append_length (a b : string) :
  String.length (a +:+ b) = (String.length a + String.length b)%nat.
Proof. induction a as [|c a IH]; simpl; [reflexivity|]. rewrite IH. reflexivity. Qed.

(** X10: for a positive length, a charset that is
    not empty and an entropy source that yields that many bytes,
    [GenerateStringWithCharset] returns a string of exactly [length]
    bytes, each of them a character of the charset, and takes exactly
    [length] bytes of entropy. *)
Theorem X10_GenerateStringWithCharset_value (g : SecretGenerator) (length : Z)
    (charset tape : string) :
  0 < length -> charset <> "" -> length <= Z.of_nat (String.length tape) ->
  exists value rest,
    GenerateStringWithCharset (asGenerator g) length charset tape = (Ok value, rest)
    /\ Z.of_nat (String.length value) = length
    /\ Forall (fun c => List.In c (list_ascii_of_string charset))
              (list_ascii_of_string value)
    /\ Z.of_nat (String.length tape) = length + Z.of_nat (String.length rest).
Proof.
  intros Hpos Hcharset Henough. simpl.
  unfold SecretGenerator_GenerateStringWithCharset, randRead.
  destruct (Z.leb_spec length 0) as [?|_]; [lia|].
  destruct (String.eqb_spec charset "") as [?|_]; [congruence|].
  destruct (takeBytes_enough (Z.to_nat length) tape ltac:(lia))
    as (got & rest & -> & -> & Hlen).
  exists (mapBytes (charsetAt charset) got), rest.
  split; [reflexivity|]. rewrite mapBytes_length, append_length, Hlen.
  split; [lia|]. split; [|lia].
  apply mapBytes_members. intros c. apply charsetAt_member, Hcharset.
Qed.

(** X11: for a positive length and an entropy source that
    yields that many bytes, [GenerateBytes] returns the next [length]
    bytes of entropy as they are. *)
Theorem X11_GenerateBytes_value (g : SecretGenerator) (length : Z) (tape : string) :
  0 < length -> length <= Z.of_nat (String.length tape) ->
  exists value rest,
    GenerateBytes (asGenerator g) length tape = (Ok value, rest)
    /\ tape = value +:+ rest
    /\ Z.of_nat (String.length value) = length.
Proof.
  intros Hpos Henough. simpl. unfold SecretGenerator_GenerateBytes, randRead.
  destruct (Z.leb_spec length 0) as [?|_]; [lia|].
  destruct (takeBytes_enough (Z.to_nat length) tape ltac:(lia))
    as (got & rest & -> & -> & Hlen).
  exists got, rest. repeat split. lia.
Qed.

Lemma randRead_ok (n : Z) (tape : string) :
  isOk (fst (randRead n tape)) = true
  <-> (Z.to_nat n <= String.length tape)%nat.
Proof.
  unfold randRead.
  destruct (le_lt_dec (Z.to_nat n) (String.length tape)) as [H|H].
  - destruct (takeBytes_enough _ _ H) as (got & rest & -> & _). simpl. tauto.
  - rewrite (takeBytes_short _ _ H). simpl. split; [discriminate|lia].
Qed.

Lemma GenerateStringWithCharset_ok (g : SecretGenerator) (length : Z)
    (charset tape : string) :
  isOk (fst (SecretGenerator_GenerateStringWithCharset g length charset tape)) = true
  <-> 0 < length /\ charset <> "" /\ length <= Z.of_nat (String.length tape).
Proof.
  unfold SecretGenerator_GenerateStringWithCharset.
  destruct (Z.leb_spec length 0) as [Hle|Hgt]; [simpl; split; [discriminate|lia]|].
  destruct (String.eqb_spec charset "") as [Hc|Hc];
    [simpl; split; [discriminate|intros (_ & H & _); congruence]|].
  pose proof (randRead_ok length tape) as Hread.
  destruct (randRead length tape) as [[got|e] rest]; simpl in *.
  - split; [intros _; repeat split; [lia|exact Hc|]|reflexivity].
    assert (Z.to_nat length <= String.length tape)%nat by (apply Hread; reflexivity).
    lia.
  - split; [discriminate|]. intros (_ & _ & H).
    assert (false = true) by (apply Hread; lia). discriminate.
Qed.

Lemma GenerateBytes_ok (g : SecretGenerator) (length : Z) (tape : string) :
  isOk (fst (SecretGenerator_GenerateBytes g length tape)) = true
  <-> 0 < length /\ length <= Z.of_nat (String.length tape).
Proof.
  unfold SecretGenerator_GenerateBytes.
  destruct (Z.leb_spec length 0) as [Hle|Hgt]; [simpl; split; [discriminate|lia]|].
  pose proof (randRead_ok length tape) as Hread.
  destruct (randRead length tape) as [[got|e] rest]; simpl in *.
  - split; [intros _; split; [lia|]|reflexivity].
    assert (Z.to_nat length <= String.length tape)%nat by (apply Hread; reflexivity).
    lia.
  - split; [discriminate|]. intros (_ & H).
    assert (false = true) by (apply Hread; lia). discriminate.
Qed.

(** X12: [Generate] returns a value exactly when the length is
    positive, the entropy source yields that many bytes, and the type is
    "bytes", or is "string" or empty with a default charset that is not
    empty; every other type name is an error. *)
Theorem X12_Generate_succeeds (g : SecretGenerator) (genType : string) (length : Z)
    (tape : string) :
  isOk (fst (Generate (asGenerator g) genType length tape)) = true
  <-> 0 < length
      /\ length <= Z.of_nat (String.length tape)
      /\ ((genType = "string" \/ genType = "") /\ defaultCharset g <> ""
          \/ genType = "bytes").
Proof.
  simpl. unfold SecretGenerator_Generate, SecretGenerator_GenerateWithCharset.
  unfold config.DefaultType, config.TypeBytes, config.TypeRSA, config.TypeECDSA,
    config.TypeEd25519.
  destruct (String.eqb_spec genType "string") as [->|Hs]; simpl orb; cbv iota.
  { rewrite GenerateStringWithCharset_ok. split.
    - intros (H1 & H2 & H3). repeat split; auto.
    - intros (H1 & H2 & [[_ H3]|H3]); [auto|discriminate]. }
  destruct (String.eqb_spec genType "") as [->|He]; cbv iota.
  { rewrite GenerateStringWithCharset_ok. split.
    - intros (H1 & H2 & H3). repeat split; auto.
    - intros (H1 & H2 & [[_ H3]|H3]); [auto|discriminate]. }
  destruct (String.eqb_spec genType "bytes") as [->|Hb].
  { pose proof (GenerateBytes_ok g length tape) as Hbytes.
    destruct (SecretGenerator_GenerateBytes g length tape) as [[v|e] rest];
      simpl in *.
    - split; [intros _; destruct Hbytes as [H _]; destruct (H eq_refl); auto|reflexivity].
    - split; [discriminate|]. intros (H1 & H2 & _). apply Hbytes. auto. }
  assert (Hno : ~ (0 < length /\ length <= Z.of_nat (String.length tape)
                   /\ ((genType = "string" \/ genType = "") /\ defaultCharset g <> ""
                       \/ genType = "bytes"))).
  { intros (_ & _ & [[[H|H] _]|H]); congruence. }
  destruct (_ || _); simpl; split; try discriminate; intros H; destruct (Hno H).
Qed.

Lemma Generate_drawn (g : SecretGenerator) (genType : string) (length : Z)
    (tape : string) (value rest : string) :
  Generate (asGenerator g) genType length tape = (Ok value, rest) ->
  Z.of_nat (String.length value) = length
  /\ exists drawn, tape = drawn +:+ rest
                   /\ Z.of_nat (String.length drawn) = length.
Proof.
  simpl. unfold SecretGenerator_Generate, SecretGenerator_GenerateWithCharset,
    SecretGenerator_GenerateStringWithCharset, SecretGenerator_GenerateBytes,
    randRead.
  assert (Hdraw : forall f : string -> string,
             (forall s, String.length (f s) = String.length s) ->
             (if length <=? 0
              then (Err (Errorf "length must be positive, got %d" [AInt length]), tape)
              else match takeBytes (Z.to_nat length) tape with
                   | Some (got, remaining) => (Ok (f got), remaining)
                   | None => (Err (Errorf "failed to generate random bytes: %w"
                                  [AErr (Errorf "entropy source failed" [])]), tape)
                   end) = (Ok value, rest) ->
             Z.of_nat (String.length value) = length
             /\ exists drawn, tape = drawn +:+ rest
                              /\ Z.of_nat (String.length drawn) = length).
  { intros f Hf. destruct (Z.leb_spec length 0) as [?|Hpos]; [discriminate|].
    destruct (le_lt_dec (Z.to_nat length) (String.length tape)) as [H|H].
    - destruct (takeBytes_enough _ _ H) as (got & rest' & -> & -> & Hlen).
      intros [= <- <-]. rewrite Hf, Hlen. split; [lia|].
      exists got. split; [reflexivity|lia].
    - rewrite (takeBytes_short _ _ H). discriminate. }
  destruct (_ || _).
  - destruct (String.eqb (defaultCharset g) "") eqn:Hc.
    + destruct (length <=? 0); discriminate.
    + intros H. apply (Hdraw (mapBytes (charsetAt (defaultCharset g)))
                         (mapBytes_length _)).
      destruct (length <=? 0); [exact H|].
      destruct (takeBytes (Z.to_nat length) tape) as [[got remaining]|]; exact H.
  - destruct (String.eqb genType config.TypeBytes).
    + intros H. apply (Hdraw (fun s => s) (fun s => eq_refl)).
      destruct (length <=? 0); [exact H|].
      destruct (takeBytes (Z.to_nat length) tape) as [[got remaining]|]; exact H.
    + destruct (_ || _); discriminate.
Qed.


(** X13: a value [Generate] returns has exactly [length] bytes,
    and exactly [length] bytes of entropy were taken for it, from the
    front of the source. *)
Theorem X13_Generate_draws (g : SecretGenerator) (genType : string) (length : Z)
    (tape : string) (value rest : string) :
  Generate (asGenerator g) genType length tape = (Ok value, rest) ->
  Z.of_nat (String.length value) = length
  /\ exists drawn, tape = drawn +:+ rest
                   /\ Z.of_nat (String.length drawn) = length.
Proof. intros Hrun. exact (Generate_drawn g genType length tape value rest Hrun). Qed.

End GeneratedValues.

(** ** The cascades for type and rotation interval, and the field list *)

Section Cascades.
Context `{lib : GoLib}.

Import controller.

Lemma nonEmpty_level (o : option string) (fallback : string) :
  match o with
  | Some value => if negb (String.eqb value "") then value else fallback
  | None => fallback
  end
  = match Spec.nonEmpty o with Some value => value | None => fallback end.
Proof.
  destruct o as [value|]; simpl; [|reflexivity].
  destruct (String.eqb value ""); reflexivity.
Qed.

(** X14: the generation type of a field is the
    field-specific type annotation when that is present and not empty,
    otherwise the object-wide type annotation under the same condition,
    otherwise the configured default. *)
Theorem X14_getFieldType_cascade (r : SecretReconciler)
    (annotations : gmap string string) (field : string) :
  getFieldType r annotations field
  = Spec.effectiveType (config.Type_ (config.Defaults (Config r)))
      annotations field.
Proof.
  unfold getFieldType, getAnnotationOrDefault, Spec.effectiveType.
  rewrite !nonEmpty_level. reflexivity.
Qed.

Lemma duration_level (o : option string) (fallback : Z) :
  match o with
  | Some value =>
      if negb (String.eqb value "") then
        match ParseDuration value with
        | Some duration => duration
        | None => fallback
        end
      else fallback
  | None => fallback
  end
  = match Spec.nonEmpty o ≫= ParseDuration with
    | Some duration => duration
    | None => fallback
    end.
Proof.
  destruct o as [value|]; simpl; [|reflexivity].
  destruct (String.eqb value ""); reflexivity.
Qed.

(** X15: the rotation interval of a field is
    the field-specific rotate annotation when that is present, not empty
    and parses as a duration, otherwise the object-wide rotate annotation
    under the same condition, otherwise 0; the configuration plays no
    part. *)
Theorem X15_getFieldRotationInterval_cascade (r : SecretReconciler)
    (annotations : gmap string string) (field : string) :
  getFieldRotationInterval r annotations field
  = Spec.effectiveInterval annotations field.
Proof.
  unfold getFieldRotationInterval, defaultRotationInterval, Spec.effectiveInterval.
  rewrite !duration_level. reflexivity.
Qed.

(** bytes *)
Lemma ofBytes_bytesOf_member (bs : list Z) (s : string) (c : ascii) :
  (forall b, List.In b bs -> List.In b (bytesOf s)) ->
  List.In c (list_ascii_of_string (ofBytes bs)) ->
  List.In c (list_ascii_of_string s).
Proof.
  intros Hsub. unfold ofBytes. rewrite list_ascii_of_string_of_list_ascii.
  rewrite List.in_map_iff. intros (b & <- & Hb).
  apply Hsub in Hb. unfold bytesOf in Hb. rewrite List.in_map_iff in Hb.
  destruct Hb as (c' & <- & Hc'). unfold byteOf.
  rewrite N2Z.id, ascii_N_embedding. exact Hc'.
Qed.

Lemma stripWhile_members (drop : list Z -> option (list Z)) (fuel : nat)
    (bs : list Z) :
  (forall l r, drop l = Some r -> forall b, List.In b r -> List.In b l) ->
  forall b, List.In b (stripWhile drop fuel bs) -> List.In b bs.
Proof.
  intros Hdrop. revert bs. induction fuel as [|fuel IH]; intros bs b; simpl; [auto|].
  destruct (drop bs) as [r|] eqn:Hr; [|auto].
  intros Hb. eapply Hdrop; [exact Hr|]. apply IH, Hb.
Qed.

Lemma dropSpaceRune_members (l r : list Z) :
  dropSpaceRune l = Some r -> forall b, List.In b r -> List.In b l.
Proof.
  unfold dropSpaceRune. intros H b Hb.
  repeat (match type of H with
          | match ?x with _ => _ end = _ => destruct x; try discriminate
          | (if ?c then _ else _) = _ => destruct c; try discriminate
          end);
    injection H as <-; simpl; tauto.
Qed.

Lemma dropSpaceRuneRev_members (l r : list Z) :
  dropSpaceRuneRev l = Some r -> forall b, List.In b r -> List.In b l.
Proof.
  unfold dropSpaceRuneRev. intros H b Hb.
  repeat (match type of H with
          | match ?x with _ => _ end = _ => destruct x; try discriminate
          | (if ?c then _ else _) = _ => destruct c; try discriminate
          end);
    injection H as <-; simpl; tauto.
Qed.

Lemma TrimSpace_members (s : string) (c : ascii) :
  List.In c (list_ascii_of_string (TrimSpace s)) ->
  List.In c (list_ascii_of_string s).
Proof.
  unfold TrimSpace. apply ofBytes_bytesOf_member. intros b Hb.
  apply List.in_rev in Hb.
  apply (stripWhile_members _ _ _ dropSpaceRuneRev_members) in Hb.
  apply List.in_rev in Hb.
  apply (stripWhile_members _ _ _ dropSpaceRune_members) in Hb. exact Hb.
Qed.

Lemma Split_pieces (s : string) (sep : ascii) :
  Forall (fun piece => ~ List.In sep (list_ascii_of_string piece)) (Split s sep).
Proof.
  induction s as [|c s IH]; simpl.
  - constructor; [simpl; tauto|constructor].
  - destruct (Ascii.eqb_spec c sep) as [->|Hne].
    + constructor; [simpl; tauto|exact IH].
    + destruct (Split s sep) as [|p ps]; [constructor; [|constructor]|].
      * simpl. intros [H|[]]. congruence.
      * inversion IH as [|? ? Hp Hps]; subst. constructor; [|exact Hps].
        simpl. intros [H|H]; [congruence|contradiction].
Qed.

(** X16: no name [parseFields] hands out is empty or holds a
    comma, whatever the annotation looks like. *)
Theorem X16_parseFields_names (value : string) :
  Forall Spec.fieldName (parseFields value).
Proof.
  unfold parseFields. apply Forall_forall. intros name Hname.
  apply list_elem_of_In in Hname.
  apply List.filter_In in Hname as [Hin Hne].
  apply List.in_map_iff in Hin as (piece & <- & Hpiece).
  split.
  - intros Heq. rewrite Heq in Hne. discriminate.
  - intros Hcomma. apply TrimSpace_members in Hcomma.
    pose proof (Split_pieces value ","%char) as Hall.
    rewrite List.Forall_forall in Hall. exact (Hall piece Hpiece Hcomma).
Qed.

End Cascades.

(** ** One reconciliation cycle, as a whole *)

Section Cycles.
Context `{lib : GoLib}.

Import controller Cycle.

Lemma rotationCheck_refuses r w g rotationInterval next :
  rotationCheck r w g rotationInterval next = None ->
  exists g0, g = Some g0
             /\ 0 < rotationInterval
                < config.MinInterval (config.Rotation (Config r)).
Proof.
  unfold rotationCheck. destruct g as [g0|].
  - destruct (Z.ltb_spec 0 rotationInterval); [|discriminate].
    destruct (Z.ltb_spec rotationInterval
                (config.MinInterval (config.Rotation (Config r)))).
    + intros _. exists g0. split; [reflexivity|lia].
    + destruct (_ <=? _); discriminate.
  - destruct (0 <? rotationInterval); discriminate.
Qed.

Lemma rotationCheck_rotates r w g rotationInterval next next' :
  rotationCheck r w g rotationInterval next = Some (true, next') ->
  exists g0, g = Some g0
             /\ 0 < rotationInterval
             /\ config.MinInterval (config.Rotation (Config r)) <= rotationInterval
             /\ rotationInterval <= Sub (now r w) g0.
Proof.
  unfold rotationCheck, since. destruct g as [g0|].
  - destruct (Z.ltb_spec 0 rotationInterval); [|discriminate].
    destruct (Z.ltb_spec rotationInterval
                (config.MinInterval (config.Rotation (Config r)))); [discriminate|].
    destruct (Z.leb_spec rotationInterval (Sub (now r w) g0)); [|discriminate].
    intros _. exists g0. repeat split; (reflexivity || lia).
  - destruct (0 <? rotationInterval); discriminate.
Qed.

(** What one round leaves as it was. *)
Lemma round_frame r secret g field v w out w' :
  FieldRound r secret g field v w out w' ->
  (exists evs, recorded w' = (recorded w ++ evs)%list
               /\ Forall (fun e => eventtype e = EventTypeWarning) evs)
  /\ match out with
     | Next v' =>
         (forall k, is_Some (data v !! k) -> is_Some (data v' !! k))
         /\ (forall k, k <> field -> data v' !! k = data v !! k)
         /\ (changed v = true -> changed v' = true)
         /\ (changed v' = false -> data v' = data v /\ entropy w' = entropy w)
     | Return _ => True
     end.
Proof.
  destruct 1 as [Hcheck|next Hcheck Hsome
                |needs next err tape Hcheck Hneed Hgen
                |needs next value tape Hcheck Hneed Hgen].
  - split; [eexists [_]; split; [reflexivity|repeat constructor]|].
    repeat split; auto.
  - split; [exists []; rewrite app_nil_r; split; [reflexivity|constructor]|].
    repeat split; auto.
  - split; [eexists [_]; split; [reflexivity|repeat constructor]|exact I].
  - split; [exists []; rewrite app_nil_r; split; [reflexivity|constructor]|].
    simpl. split; [|split; [|split]].
    + intros k Hk. destruct (decide (field = k)) as [->|Hne].
      * rewrite lookup_insert_eq. eauto.
      * rewrite lookup_insert_ne by exact Hne. exact Hk.
    + intros k Hk. apply lookup_insert_ne. congruence.
    + reflexivity.
    + discriminate.
Qed.

Lemma loop_frame r secret g fields v w out w' :
  reconcileFields r secret g fields v w = (out, w') ->
  (exists evs, recorded w' = (recorded w ++ evs)%list
               /\ Forall (fun e => eventtype e = EventTypeWarning) evs)
  /\ match out with
     | Next v' =>
         (forall k, is_Some (data v !! k) -> is_Some (data v' !! k))
         /\ (forall k, ~ List.In k fields -> data v' !! k = data v !! k)
         /\ (changed v = true -> changed v' = true)
         /\ (changed v' = false -> data v' = data v /\ entropy w' = entropy w)
     | Return _ => True
     end.
Proof.
  revert v w. induction fields as [|field rest IH]; intros v w; simpl.
  - intros [= <- <-].
    split; [exists []; rewrite app_nil_r; split; [reflexivity|constructor]|].
    repeat split; auto.
  - destruct (reconcileField r secret g field v w) as [[v1|err] w1] eqn:Hstep;
      intros Hrest; apply reconcileField_round, round_frame in Hstep;
      destruct Hstep as [(evs1 & Hevs1 & Hall1) Hout1].
    + destruct Hout1 as (Hkeep1 & Hother1 & Hch1 & Hsame1).
      destruct (IH _ _ Hrest) as [(evs2 & Hevs2 & Hall2) Hout].
      split.
      * exists (evs1 ++ evs2)%list. rewrite Hevs2, Hevs1, app_assoc.
        split; [reflexivity|]. apply Forall_app. split; assumption.
      * destruct out as [v'|]; [|exact I].
        destruct Hout as (Hkeep & Hother & Hch & Hsame).
        split; [|split; [|split]].
        -- intros k Hk. apply Hkeep, Hkeep1, Hk.
        -- intros k Hk. rewrite Hother by tauto. apply Hother1.
           intros ->. apply Hk. left. reflexivity.
        -- intros Hc. apply Hch, Hch1, Hc.
        -- intros Hc. destruct (Hsame Hc) as [Hd He].
           assert (Hc1 : changed v1 = false).
           { destruct (changed v1) eqn:E; [|reflexivity].
             rewrite Hch in Hc by reflexivity. discriminate. }
           destruct (Hsame1 Hc1) as [Hd1 He1]. split; congruence.
    + injection Hrest as <- <-. split; [|exact I]. exists evs1. split; assumption.
Qed.



Lemma Reconcile_outcome r req w res err w' :
  Reconcile r req w = (res, err, w') -> Outcome r req w res err w'.
Proof.
  unfold Reconcile.
  destruct (getError w) as [e|] eqn:Hget.
  { intros [= <- <- <-]. apply GetFailed. exact Hget. }
  destruct (cluster w !! req) as [secret|] eqn:Hsecret.
  2:{ intros [= <- <- <-]. apply NotFound; assumption. }
  destruct (Annotations secret !! AnnotationAutogenerate) as [a|] eqn:Ha.
  2:{ intros [= <- <- <-]. apply (NothingListed r req w secret); try assumption.
      unfold Spec.fieldsOf. rewrite Ha. reflexivity. }
  assert (Hf : Spec.fieldsOf secret = parseFields a)
    by (unfold Spec.fieldsOf; rewrite Ha; reflexivity).
  destruct (String.eqb_spec a "") as [->|_].
  { intros [= <- <- <-]. apply (NothingListed r req w secret); assumption. }
  rewrite <- Hf.
  destruct (length (Spec.fieldsOf secret) =? 0)%nat eqn:Hlen.
  { intros [= <- <- <-]. apply (NothingListed r req w secret); try assumption.
    apply Nat.eqb_eq in Hlen. destruct (Spec.fieldsOf secret); [reflexivity|discriminate]. }
  change {| data := Data secret; changed := false; rotated := false;
            nextRotation := None |} with (start secret).
  destruct (reconcileFields r secret _ (Spec.fieldsOf secret) (start secret) w)
    as [[v|e] w1] eqn:Hloop.
  - destruct (changed v) eqn:Hc.
    + unfold Update. destruct (updateError w1) as [e|] eqn:Hu.
      * intros [= <- <- <-]. eapply UpdateFailed; eassumption.
      * pose proof (Written r req w secret v w1 Hget Hsecret Hloop Hc Hu) as H.
        unfold announce in H.
        destruct (rotated v);
          [destruct (config.CreateEvents (config.Rotation (Config r)))|];
          intros [= <- <- <-]; exact H.
    + intros [= <- <- <-]. eapply Unchanged; eassumption.
  - intros [= <- <- <-]. eapply Aborted; eassumption.
Qed.

Lemma round_settled r w secret g name v w0 v' w' field :
  FieldRound r secret g name v w0 (Next v') w' ->
  now r w0 = now r w ->
  settled r w (Annotations secret) g (data v) field ->
  data v' !! field = data v !! field.
Proof.
  intros Hround Hnow [Hval Hdue]. remember (Next v') as out eqn:Hout.
  destruct Hround as [Hcheck|next Hcheck Hsome
                     |needs next err tape Hcheck Hneed Hgen
                     |needs next value tape Hcheck Hneed Hgen];
    try discriminate; injection Hout as <-; try reflexivity.
  simpl. destruct (decide (name = field)) as [->|Hne];
    [|apply lookup_insert_ne; exact Hne].
  exfalso. destruct Hneed as [Hnone| ->].
  - rewrite Hnone in Hval. destruct Hval; discriminate.
  - apply rotationCheck_rotates in Hcheck.
    destruct Hcheck as (g0 & -> & H1 & H2 & H3).
    apply (Hdue g0 eq_refl). unfold Spec.due. rewrite <- Hnow. auto.
Qed.

Lemma loop_settled r w secret g fields field : forall v w0 v' w',
  reconcileFields r secret g fields v w0 = (Next v', w') ->
  server w0 = server w ->
  settled r w (Annotations secret) g (data v) field ->
  data v' !! field = data v !! field.
Proof.
  induction fields as [|name rest IH]; intros v w0 v' w'; simpl.
  - intros [= <- <-] _ _. reflexivity.
  - destruct (reconcileField r secret g name v w0) as [[v1|e] w1] eqn:Hstep;
      [|discriminate].
    intros Hrest Hserver Hset.
    apply reconcileField_round in Hstep.
    pose proof (FieldRound_server _ _ _ _ _ _ _ _ Hstep) as Hs1.
    pose proof (round_settled _ w _ _ _ _ _ _ _ field Hstep
                  (server_now r _ _ Hserver) Hset) as H1.
    rewrite (IH _ _ _ _ Hrest); [exact H1|congruence|].
    destruct Hset as [Hval Hdue]. split; [rewrite H1; exact Hval|exact Hdue].
Qed.

Lemma round_fills r secret g name v w0 v' w' :
  FieldRound r secret g name v w0 (Next v') w' ->
  refused r (Annotations secret) g name \/ is_Some (data v' !! name).
Proof.
  intros Hround. remember (Next v') as out eqn:Hout.
  destruct Hround as [Hcheck|next Hcheck Hsome
                     |needs next err tape Hcheck Hneed Hgen
                     |needs next value tape Hcheck Hneed Hgen];
    try discriminate; injection Hout as <-.
  - left. apply rotationCheck_refuses in Hcheck.
    destruct Hcheck as (g0 & -> & Hlow). split; [eauto|exact Hlow].
  - right. exact Hsome.
  - right. simpl. rewrite lookup_insert_eq. eauto.
Qed.

Lemma loop_fills r secret g fields : forall v w0 v' w',
  reconcileFields r secret g fields v w0 = (Next v', w') ->
  Forall (fun field => refused r (Annotations secret) g field
                       \/ is_Some (data v' !! field)) fields.
Proof.
  induction fields as [|name rest IH]; intros v w0 v' w'; simpl.
  - constructor.
  - destruct (reconcileField r secret g name v w0) as [[v1|e] w1] eqn:Hstep;
      [|discriminate].
    intros Hrest. apply reconcileField_round, round_fills in Hstep.
    constructor; [|exact (IH _ _ _ _ Hrest)].
    destruct Hstep as [Href|Hval]; [left; exact Href|right].
    destruct (loop_frame _ _ _ _ _ _ _ _ Hrest) as [_ (Hkeep & _)].
    apply Hkeep, Hval.
Qed.

Lemma quiet_round r w secret g name v w0 out w' :
  FieldRound r secret g name v w0 out w' ->
  now r w0 = now r w ->
  refused r (Annotations secret) g name
  \/ settled r w (Annotations secret) g (data v) name ->
  exists v',
    out = Next v' /\ data v' = data v /\ changed v' = changed v
    /\ entropy w' = entropy w0
    /\ exists evs,
         recorded w' = (recorded w0 ++ evs)%list
         /\ Forall (fun e => reason e = EventReasonRotationFailed) evs.
Proof.
  intros Hround Hnow Hquiet.
  assert (Hnot : forall needs next,
             rotationCheck r w0 g
               (getFieldRotationInterval r (Annotations secret) name)
               (nextRotation v) = Some (needs, next) ->
             data v !! name = None \/ needs = true -> False).
  { intros needs next Hcheck Hneed.
    destruct Hquiet as [[[g0 ->] Hlow]|[Hval Hdue]].
    - rewrite rotationCheck_below in Hcheck by exact Hlow. discriminate.
    - destruct Hneed as [Hnone| ->].
      + rewrite Hnone in Hval. destruct Hval; discriminate.
      + apply rotationCheck_rotates in Hcheck.
        destruct Hcheck as (g0 & -> & H1 & H2 & H3).
        apply (Hdue g0 eq_refl). unfold Spec.due. rewrite <- Hnow. auto. }
  destruct Hround as [Hcheck|next Hcheck Hsome
                     |needs next err tape Hcheck Hneed Hgen
                     |needs next value tape Hcheck Hneed Hgen].
  - exists v. repeat (split; [reflexivity|]).
    eexists [_]. split; [reflexivity|]. repeat constructor.
  - eexists. repeat (split; [reflexivity|]).
    exists []. rewrite app_nil_r. split; [reflexivity|constructor].
  - destruct (Hnot _ _ Hcheck Hneed).
  - destruct (Hnot _ _ Hcheck Hneed).
Qed.

Lemma quiet_loop r w secret g fields : forall v w0 out w',
  reconcileFields r secret g fields v w0 = (out, w') ->
  server w0 = server w ->
  Forall (fun field =>
            refused r (Annotations secret) g field
            \/ settled r w (Annotations secret) g (data v) field) fields ->
  exists v',
    out = Next v' /\ data v' = data v /\ changed v' = changed v
    /\ entropy w' = entropy w0
    /\ exists evs,
         recorded w' = (recorded w0 ++ evs)%list
         /\ Forall (fun e => reason e = EventReasonRotationFailed) evs.
Proof.
  induction fields as [|name rest IH]; intros v w0 out w'; simpl.
  - intros [= <- <-] _ _. exists v. repeat (split; [reflexivity|]).
    exists []. rewrite app_nil_r. split; [reflexivity|constructor].
  - destruct (reconcileField r secret g name v w0) as [out1 w1] eqn:Hstep.
    intros Hrest Hserver Hall. inversion Hall as [|? ? Hhead Htail]; subst.
    apply reconcileField_round in Hstep.
    pose proof (FieldRound_server _ _ _ _ _ _ _ _ Hstep) as Hs1.
    destruct (quiet_round _ w _ _ _ _ _ _ _ Hstep (server_now r _ _ Hserver) Hhead)
      as (v1 & -> & Hd1 & Hc1 & He1 & evs1 & Hevs1 & Hall1).
    assert (Hserver1 : server w1 = server w) by congruence.
    rewrite <- Hd1 in Htail.
    destruct (IH _ _ _ _ Hrest Hserver1 Htail)
      as (v' & -> & Hd & Hc & He & evs & Hevs & Hall2).
    exists v'. split; [reflexivity|].
    split; [congruence|]. split; [congruence|]. split; [congruence|].
    exists (evs1 ++ evs)%list. rewrite Hevs, Hevs1, app_assoc.
    split; [reflexivity|]. apply Forall_app. split; assumption.
Qed.

Lemma quiet_outcome r req w secret res err w' :
  Outcome r req w res err w' ->
  getError w = None ->
  cluster w !! req = Some secret ->
  quiet r w secret ->
  err = None /\ cluster w' = cluster w /\ entropy w' = entropy w
  /\ exists evs,
       recorded w' = (recorded w ++ evs)%list
       /\ Forall (fun e => reason e = EventReasonRotationFailed) evs.
Proof.
  intros Hout Hget Hsecret Hquiet.
  assert (Hnil : exists evs : list Event,
             recorded w = (recorded w ++ evs)%list
             /\ Forall (fun e => reason e = EventReasonRotationFailed) evs).
  { exists []. rewrite app_nil_r. split; [reflexivity|constructor]. }
  destruct Hout as [e He|_ Hnone|secret0 _ Hs0 Hnil0
                   |secret0 e w1 _ Hs0 Hloop
                   |secret0 v w1 _ Hs0 Hloop Hc
                   |secret0 v w1 e _ Hs0 Hloop Hc Hu
                   |secret0 v w1 _ Hs0 Hloop Hc Hu];
    try congruence; try (repeat split; (reflexivity || exact Hnil));
    assert (secret0 = secret) as -> by congruence;
    pose proof (reconcileFields_server _ _ _ _ _ _ _ _ Hloop) as Hserver;
    destruct (quiet_loop _ w _ _ _ _ _ _ _ Hloop eq_refl Hquiet)
      as (v' & Hv' & Hd & Hch & He & Hevs); try discriminate;
    injection Hv' as <-; simpl in Hch; try congruence.
  split; [reflexivity|]. split; [apply server_cluster, Hserver|].
  split; [exact He|exact Hevs].
Qed.


Lemma recordEvents_recorded events : forall w,
  recorded (recordEvents events w) = (recorded w ++ events)%list.
Proof.
  induction events as [|e rest IH]; intros w; simpl.
  - rewrite app_nil_r. reflexivity.
  - unfold recordEvents in *. simpl. rewrite IH. simpl.
    rewrite <- app_assoc. reflexivity.
Qed.

Lemma recordEvents_rest events : forall w,
  server (recordEvents events w) = server w
  /\ entropy (recordEvents events w) = entropy w.
Proof.
  induction events as [|e rest IH]; intros w; simpl.
  - split; reflexivity.
  - unfold recordEvents in *. simpl. destruct (IH (recordEvent e w)) as [-> ->].
    split; reflexivity.
Qed.

Lemma server_parts w w' :
  server w' = server w ->
  cluster w' = cluster w /\ wallClock w' = wallClock w
  /\ getError w' = getError w /\ updateError w' = updateError w.
Proof. unfold server. intros [= -> -> -> ->]. repeat split. Qed.

Lemma fieldsOf_stamped r w secret v :
  Spec.fieldsOf (stamped r w secret v) = Spec.fieldsOf secret.
Proof.
  unfold Spec.fieldsOf, stamped. simpl.
  rewrite lookup_insert_ne by discriminate. reflexivity.
Qed.

(** The store after a successful write. *)
Lemma written_cluster r req secret v w1 :
  cluster (recordEvents (announce r v)
             (withCluster (<[req := stamped r w1 secret v]> (cluster w1)) w1))
  = <[req := stamped r w1 secret v]> (cluster w1).
Proof.
  destruct (recordEvents_rest (announce r v)
              (withCluster (<[req := stamped r w1 secret v]> (cluster w1)) w1))
    as [Hserver _].
  apply server_cluster in Hserver. exact Hserver.
Qed.

(** X17: [Reconcile] has no hand on any object but the requested
    one, nor on the clock or the transport; it only adds to the recorded
    events; and a cycle that returns an error, or runs while writes fail,
    leaves the store as it was and asks for no requeue. *)
Theorem X17_Reconcile_frame (r : SecretReconciler) (req : string * string)
    (w : World) (res : Result) (err : option error) (w' : World) :
  Reconcile r req w = (res, err, w') ->
  (forall other, other <> req -> cluster w' !! other = cluster w !! other)
  /\ wallClock w' = wallClock w
  /\ getError w' = getError w
  /\ updateError w' = updateError w
  /\ (exists evs, recorded w' = (recorded w ++ evs)%list)
  /\ (is_Some err -> res = noResult /\ cluster w' = cluster w)
  /\ (is_Some (updateError w) -> cluster w' = cluster w).
Proof.
  intros Hrun. apply Reconcile_outcome in Hrun.
  assert (Hsame : forall (res0 : Result) (err0 : option error),
             (is_Some err0 -> res0 = noResult) ->
             (forall other, other <> req -> cluster w !! other = cluster w !! other)
             /\ wallClock w = wallClock w
             /\ getError w = getError w
             /\ updateError w = updateError w
             /\ (exists evs, recorded w = (recorded w ++ evs)%list)
             /\ (is_Some err0 -> res0 = noResult /\ cluster w = cluster w)
             /\ (is_Some (updateError w) -> cluster w = cluster w)).
  { intros res0 err0 H. repeat (split; [reflexivity|]).
    split; [exists []; rewrite app_nil_r; reflexivity|].
    split; [intros He; split; [exact (H He)|reflexivity]|reflexivity]. }
  assert (Hloop : forall secret out w1 (res0 : Result) (err0 : option error),
             reconcileFields r secret (getGeneratedAtTime r (Annotations secret))
               (Spec.fieldsOf secret) (start secret) w = (out, w1) ->
             (is_Some err0 -> res0 = noResult) ->
             (forall other, other <> req -> cluster w1 !! other = cluster w !! other)
             /\ wallClock w1 = wallClock w
             /\ getError w1 = getError w
             /\ updateError w1 = updateError w
             /\ (exists evs, recorded w1 = (recorded w ++ evs)%list)
             /\ (is_Some err0 -> res0 = noResult /\ cluster w1 = cluster w)
             /\ (is_Some (updateError w) -> cluster w1 = cluster w)).
  { intros secret out w1 res0 err0 Hl H.
    destruct (loop_frame _ _ _ _ _ _ _ _ Hl) as [(evs & Hevs & _) _].
    apply reconcileFields_server, server_parts in Hl.
    destruct Hl as (Hc & Hwc & Hg & Hu). rewrite Hc.
    repeat (split; [reflexivity || assumption|]).
    split; [exists evs; exact Hevs|].
    split; [intros He; split; [exact (H He)|reflexivity]|reflexivity]. }
  destruct Hrun as [e He|Hget Hnone|secret Hget Hs Hnil
                   |secret e w1 Hget Hs Hl
                   |secret v w1 Hget Hs Hl Hc
                   |secret v w1 e Hget Hs Hl Hc Hu
                   |secret v w1 Hget Hs Hl Hc Hu];
    try (apply Hsame; reflexivity);
    try (apply (Hloop _ _ _ _ _ Hl); try reflexivity).
  - intros [? [=]].
  - destruct (loop_frame _ _ _ _ _ _ _ _ Hl) as [(evs & Hevs & _) _].
    pose proof (reconcileFields_server _ _ _ _ _ _ _ _ Hl) as Hserver.
    apply server_parts in Hserver. destruct Hserver as (Hcl & Hwc & Hg & Hue).
    destruct (recordEvents_rest (announce r v)
                (withCluster (<[req := stamped r w1 secret v]> (cluster w1)) w1))
      as [Hserver _].
    apply server_parts in Hserver. destruct Hserver as (Hcl' & Hwc' & Hg' & Hue').
    rewrite Hcl', Hwc', Hg', Hue', recordEvents_recorded. simpl.
    rewrite Hcl.
    split; [intros other Hother; apply lookup_insert_ne; congruence|].
    repeat (split; [assumption|]).
    split; [exists (evs ++ announce r v)%list; rewrite Hevs, app_assoc; reflexivity|].
    split; [intros [? [=]]|].
    rewrite <- Hue, Hu. intros [? [=]].
Qed.

(** X18: what [Reconcile] can do to the requested object: it
    stays in the store, no data key is taken away, the keys the
    annotation does not list and the annotations other than generated-at
    stay as they are, and an object stored anew carries the time of the
    cycle as generated-at. *)
Theorem X18_Reconcile_object (r : SecretReconciler) (req : string * string)
    (w : World) (secret : Secret) (res : Result) (err : option error)
    (w' : World) :
  cluster w !! req = Some secret ->
  Reconcile r req w = (res, err, w') ->
  exists secret',
    cluster w' !! req = Some secret'
    /\ (forall k, is_Some (Data secret !! k) -> is_Some (Data secret' !! k))
    /\ (forall k, ~ List.In k (Spec.fieldsOf secret) ->
                  Data secret' !! k = Data secret !! k)
    /\ (forall a, a <> AnnotationGeneratedAt ->
                  Annotations secret' !! a = Annotations secret !! a)
    /\ (secret' = secret
        \/ err = None
           /\ Annotations secret' !! AnnotationGeneratedAt
              = Some (FormatRFC3339 (now r w))).
Proof.
  intros Hsecret Hrun. apply Reconcile_outcome in Hrun.
  assert (Hsame : forall w1, cluster w1 = cluster w ->
             exists secret',
               cluster w1 !! req = Some secret'
               /\ (forall k, is_Some (Data secret !! k) -> is_Some (Data secret' !! k))
               /\ (forall k, ~ List.In k (Spec.fieldsOf secret) ->
                             Data secret' !! k = Data secret !! k)
               /\ (forall a, a <> AnnotationGeneratedAt ->
                             Annotations secret' !! a = Annotations secret !! a)
               /\ (secret' = secret
                   \/ err = None
                      /\ Annotations secret' !! AnnotationGeneratedAt
                         = Some (FormatRFC3339 (now r w)))).
  { intros w1 ->. exists secret. split; [exact Hsecret|].
    repeat split; auto. }
  destruct Hrun as [e He|Hget Hnone|secret0 Hget Hs Hnil
                   |secret0 e w1 Hget Hs Hl
                   |secret0 v w1 Hget Hs Hl Hc
                   |secret0 v w1 e Hget Hs Hl Hc Hu
                   |secret0 v w1 Hget Hs Hl Hc Hu];
    try (apply Hsame; reflexivity);
    try (apply Hsame; apply server_cluster;
         exact (reconcileFields_server _ _ _ _ _ _ _ _ Hl)).
  assert (secret0 = secret) as -> by congruence.
  rewrite written_cluster, lookup_insert_eq. eexists. split; [reflexivity|].
  destruct (loop_frame _ _ _ _ _ _ _ _ Hl) as [_ (Hkeep & Hother & _)].
  pose proof (reconcileFields_server _ _ _ _ _ _ _ _ Hl) as Hserver.
  simpl. split; [exact Hkeep|]. split; [exact Hother|].
  split; [intros a Ha; apply lookup_insert_ne; congruence|].
  right. split; [reflexivity|].
  rewrite lookup_insert_eq, (server_now r _ _ Hserver). reflexivity.
Qed.

(** X19: a value that is there and whose rotation is not
    due (no readable generated-at, no positive interval, an interval
    below the minimum, or one that has not yet elapsed) is still there
    after the cycle, whatever the cycle does to other fields and however
    it ends. *)
Theorem X19_Reconcile_keeps_settled (r : SecretReconciler) (req : string * string)
    (w : World) (secret : Secret) (k value : string)
    (res : Result) (err : option error) (w' : World) :
  cluster w !! req = Some secret ->
  Data secret !! k = Some value ->
  (forall g, getGeneratedAtTime r (Annotations secret) = Some g ->
             ~ Spec.due r w (Annotations secret) g k) ->
  Reconcile r req w = (res, err, w') ->
  exists secret', cluster w' !! req = Some secret' /\ Data secret' !! k = Some value.
Proof.
  intros Hsecret Hvalue Hdue Hrun. apply Reconcile_outcome in Hrun.
  assert (Hsame : forall w1, cluster w1 = cluster w ->
             exists secret',
               cluster w1 !! req = Some secret' /\ Data secret' !! k = Some value).
  { intros w1 ->. exists secret. split; assumption. }
  destruct Hrun as [e He|Hget Hnone|secret0 Hget Hs Hnil
                   |secret0 e w1 Hget Hs Hl
                   |secret0 v w1 Hget Hs Hl Hc
                   |secret0 v w1 e Hget Hs Hl Hc Hu
                   |secret0 v w1 Hget Hs Hl Hc Hu];
    try (apply Hsame; reflexivity);
    try (apply Hsame; apply server_cluster;
         exact (reconcileFields_server _ _ _ _ _ _ _ _ Hl)).
  assert (secret0 = secret) as -> by congruence.
  rewrite written_cluster, lookup_insert_eq. eexists. split; [reflexivity|].
  simpl. rewrite <- Hvalue.
  apply (loop_settled r w _ _ _ k _ _ _ _ Hl eq_refl).
  split; [simpl; rewrite Hvalue; eauto|exact Hdue].
Qed.

(** X20: after a cycle that returns no error, every listed field
    has a value in the stored object, but for the fields the loop refuses
    (generated-at readable, interval positive and below the minimum). *)
Theorem X20_Reconcile_fills (r : SecretReconciler) (req : string * string)
    (w : World) (secret : Secret) (res : Result) (w' : World) :
  cluster w !! req = Some secret ->
  Reconcile r req w = (res, None, w') ->
  exists secret',
    cluster w' !! req = Some secret'
    /\ Forall (fun field =>
                 refused r (Annotations secret)
                   (getGeneratedAtTime r (Annotations secret)) field
                 \/ is_Some (Data secret' !! field))
              (Spec.fieldsOf secret).
Proof.
  intros Hsecret Hrun. apply Reconcile_outcome in Hrun.
  remember (@None error) as err eqn:Herr.
  destruct Hrun as [e He|Hget Hnone|secret0 Hget Hs Hnil
                   |secret0 e w1 Hget Hs Hl
                   |secret0 v w1 Hget Hs Hl Hc
                   |secret0 v w1 e Hget Hs Hl Hc Hu
                   |secret0 v w1 Hget Hs Hl Hc Hu];
    try discriminate; try congruence;
    assert (secret0 = secret) as -> by congruence.
  - exists secret. split; [exact Hsecret|]. rewrite Hnil. constructor.
  - exists secret.
    rewrite (server_cluster _ _ (reconcileFields_server _ _ _ _ _ _ _ _ Hl)).
    split; [exact Hsecret|].
    destruct (loop_frame _ _ _ _ _ _ _ _ Hl) as [_ (_ & _ & _ & Hsame)].
    destruct (Hsame Hc) as [Hdata _]. simpl in Hdata. rewrite <- Hdata.
    exact (loop_fills _ _ _ _ _ _ _ _ Hl).
  - rewrite written_cluster, lookup_insert_eq. eexists. split; [reflexivity|].
    exact (loop_fills _ _ _ _ _ _ _ _ Hl).
Qed.

(** X21: on an object with nothing to generate and nothing to
    rotate (every listed field is refused, or has a value and is not
    due), the cycle ends without error, stores nothing and draws no
    entropy; all it may record are the warnings for intervals below the
    minimum. *)
Theorem X21_Reconcile_quiet (r : SecretReconciler) (req : string * string)
    (w : World) (secret : Secret) :
  getError w = None ->
  cluster w !! req = Some secret ->
  quiet r w secret ->
  exists res w',
    Reconcile r req w = (res, None, w')
    /\ cluster w' = cluster w
    /\ entropy w' = entropy w
    /\ exists evs,
         recorded w' = (recorded w ++ evs)%list
         /\ Forall (fun e => reason e = EventReasonRotationFailed) evs.
Proof.
  intros Hget Hsecret Hquiet.
  destruct (Reconcile r req w) as [[res err] w'] eqn:Hrun.
  apply Reconcile_outcome in Hrun.
  destruct (quiet_outcome _ _ _ _ _ _ _ Hrun Hget Hsecret Hquiet)
    as (-> & Hrest).
  exists res, w'. split; [reflexivity|exact Hrest].
Qed.

(** X22: a second cycle finds nothing left to do: when a cycle
    has ended without error, the stored object has a readable
    generated-at and no listed field is due by it, the next cycle ends
    without error, stores nothing and draws no entropy. *)
Theorem X22_Reconcile_settles (r : SecretReconciler) (req : string * string)
    (w : World) (secret : Secret) (res : Result) (w1 : World)
    (secret1 : Secret) (g1 : Time) :
  cluster w !! req = Some secret ->
  Reconcile r req w = (res, None, w1) ->
  cluster w1 !! req = Some secret1 ->
  getGeneratedAtTime r (Annotations secret1) = Some g1 ->
  Forall (fun field => ~ Spec.due r w1 (Annotations secret1) g1 field)
         (Spec.fieldsOf secret1) ->
  exists res2 w2,
    Reconcile r req w1 = (res2, None, w2)
    /\ cluster w2 = cluster w1
    /\ entropy w2 = entropy w1.
Proof.
  intros Hsecret Hrun Hs1 Hg1 Hnd.
  pose proof (Reconcile_outcome _ _ _ _ _ _ Hrun) as Hout.
  assert (Hget1 : getError w1 = None).
  { remember (@None error) as err eqn:Herr.
    destruct Hout as [e He|Hget Hnone|secret0 Hget Hs Hnil
                     |secret0 e wl Hget Hs Hl
                     |secret0 v wl Hget Hs Hl Hc
                     |secret0 v wl e Hget Hs Hl Hc Hu
                     |secret0 v wl Hget Hs Hl Hc Hu];
      try discriminate; try assumption;
      pose proof (reconcileFields_server _ _ _ _ _ _ _ _ Hl) as Hserver;
      apply server_parts in Hserver; destruct Hserver as (_ & _ & Hg & _);
      [congruence|].
    destruct (recordEvents_rest (announce r v)
                (withCluster (<[req := stamped r wl secret0 v]> (cluster wl)) wl))
      as [Hserver _].
    apply server_parts in Hserver. destruct Hserver as (_ & _ & -> & _).
    simpl. congruence. }
  assert (Hquiet : quiet r w1 secret1).
  { unfold quiet. rewrite Hg1.
    assert (Hfill : Spec.fieldsOf secret1 = Spec.fieldsOf secret
                    /\ Forall (fun field =>
                                 belowMinimum r (Annotations secret1) field
                                 \/ is_Some (Data secret1 !! field))
                              (Spec.fieldsOf secret)).
    { remember (@None error) as err eqn:Herr.
      destruct Hout as [e He|Hget Hnone|secret0 Hget Hs Hnil
                       |secret0 e wl Hget Hs Hl
                       |secret0 v wl Hget Hs Hl Hc
                       |secret0 v wl e Hget Hs Hl Hc Hu
                       |secret0 v wl Hget Hs Hl Hc Hu];
        try discriminate; try congruence;
        assert (secret0 = secret) as -> by congruence.
      - assert (secret1 = secret) as -> by congruence.
        split; [reflexivity|]. rewrite Hnil. constructor.
      - rewrite (server_cluster _ _ (reconcileFields_server _ _ _ _ _ _ _ _ Hl))
          in Hs1.
        assert (secret1 = secret) as -> by congruence.
        split; [reflexivity|].
        destruct (loop_frame _ _ _ _ _ _ _ _ Hl) as [_ (_ & _ & _ & Hsame)].
        destruct (Hsame Hc) as [Hdata _]. simpl in Hdata. rewrite <- Hdata.
        eapply Forall_impl; [exact (loop_fills _ _ _ _ _ _ _ _ Hl)|].
        intros field [[_ Hlow]|Hval]; [left; exact Hlow|right; exact Hval].
      - rewrite written_cluster, lookup_insert_eq in Hs1.
        injection Hs1 as <-.
        split; [apply fieldsOf_stamped|].
        eapply Forall_impl; [exact (loop_fills _ _ _ _ _ _ _ _ Hl)|].
        intros field [[_ Hlow]|Hval]; [left|right; exact Hval].
        unfold belowMinimum, stamped. simpl.
        rewrite interval_after_write. exact Hlow. }
    destruct Hfill as [Hfields Hfill]. rewrite Hfields in Hnd |- *.
    rewrite Forall_forall in Hnd, Hfill |- *.
    intros field Hin. destruct (Hfill field Hin) as [Hlow|Hval].
    - left. split; [eauto|exact Hlow].
    - right. split; [exact Hval|]. intros g [= <-]. exact (Hnd field Hin). }
  destruct (Reconcile r req w1) as [[res2 err2] w2] eqn:Hrun2.
  apply Reconcile_outcome in Hrun2.
  destruct (quiet_outcome _ _ _ _ _ _ _ Hrun2 Hget1 Hs1 Hquiet)
    as (-> & Hc & He & _).
  exists res2, w2. repeat split; assumption.
Qed.


(** X25: an object the event filter of [SetupWithManager]
    holds back (no autogenerate annotation) is one [Reconcile] would
    leave alone: called on it all the same, it changes nothing and
    returns what reading the object returned. *)
Theorem X25_filter_loses_nothing (r : SecretReconciler) (req : string * string)
    (w : World) (secret : Secret) :
  cluster w !! req = Some secret ->
  hasAutogenerateAnnotation secret = false ->
  Reconcile r req w = (noResult, getError w, w).
Proof.
  intros Hsecret Hfilter. unfold Reconcile. rewrite Hsecret.
  destruct (getError w); [reflexivity|].
  unfold hasAutogenerateAnnotation in Hfilter.
  apply bool_decide_eq_false in Hfilter.
  destruct (Annotations secret !! AnnotationAutogenerate); [|reflexivity].
  exfalso. apply Hfilter. eauto.
Qed.

Lemma rotationCheck_due r w0 w g rotationInterval next :
  now r w0 = now r w ->
  0 < rotationInterval ->
  config.MinInterval (config.Rotation (Config r)) <= rotationInterval ->
  rotationInterval <= Sub (now r w) g ->
  rotationCheck r w0 (Some g) rotationInterval next = Some (true, next).
Proof.
  intros Hnow Hpos Hmin Hdue. unfold rotationCheck, since. rewrite Hnow.
  destruct (Z.ltb_spec 0 rotationInterval); [|lia].
  destruct (Z.ltb_spec rotationInterval
              (config.MinInterval (config.Rotation (Config r)))); [lia|].
  destruct (Z.leb_spec rotationInterval (Sub (now r w) g)); [reflexivity|lia].
Qed.


Lemma Generate_length (g : generator.SecretGenerator) (genType : string)
    (length : Z) (tape value rest : string) :
  generator.Generate (generator.asGenerator g) genType length tape = (Ok value, rest) ->
  Z.of_nat (String.length value) = length.
Proof. intros H. exact (proj1 (Generate_drawn g genType length tape value rest H)). Qed.

Lemma fresh_round r sg w secret name k v w0 v' w' :
  FieldRound r secret (getGeneratedAtTime r (Annotations secret)) name v w0
    (Next v') w' ->
  Generator r = generator.asGenerator sg ->
  now r w0 = now r w ->
  (fresh r secret k v -> fresh r secret k v')
  /\ (data v !! k = Data secret !! k ->
      data v' !! k = Data secret !! k \/ fresh r secret k v')
  /\ (name = k -> owed r w secret k -> data v !! k = Data secret !! k ->
      fresh r secret k v').
Proof.
  intros Hround HG Hnow. remember (Next v') as out eqn:Hout.
  destruct Hround as [Hcheck|next Hcheck Hsome
                     |needs next err tape Hcheck Hneed Hgen
                     |needs next value tape Hcheck Hneed Hgen];
    try discriminate; injection Hout as <-.
  - split; [auto|]. split; [auto|].
    intros -> [(g & Hg & H1 & H2 & H3)|[_ Hnot]] _; exfalso.
    + rewrite Hg in Hcheck.
      rewrite (rotationCheck_due r w0 w g _ _ Hnow H1 H2 H3) in Hcheck.
      discriminate.
    + apply rotationCheck_refuses in Hcheck.
      destruct Hcheck as (g0 & Hg0 & Hlow). apply Hnot.
      split; [rewrite Hg0; eauto|exact Hlow].
  - split; [auto|]. split; [auto|].
    intros -> [(g & Hg & H1 & H2 & H3)|[Hnone _]] Hsame; exfalso.
    + rewrite Hg in Hcheck.
      rewrite (rotationCheck_due r w0 w g _ _ Hnow H1 H2 H3) in Hcheck.
      discriminate.
    + rewrite Hsame, Hnone in Hsome. destruct Hsome; discriminate.
  - rewrite HG in Hgen. apply Generate_length in Hgen.
    assert (Hown : name = k ->
                   fresh r secret k
                     {| data := <[name := value]> (data v); changed := true;
                        rotated := if needs then true else rotated v;
                        nextRotation := next |}).
    { intros ->. split; [reflexivity|]. exists value. simpl.
      rewrite lookup_insert_eq. split; [reflexivity|exact Hgen]. }
    split; [|split].
    + destruct (decide (name = k)) as [Heq|Hne]; [intros _; exact (Hown Heq)|].
      intros [_ (old & Hold & Hlen)]. split; [reflexivity|]. exists old. simpl.
      rewrite lookup_insert_ne by exact Hne. split; assumption.
    + intros Hsame. destruct (decide (name = k)) as [Heq|Hne];
        [right; exact (Hown Heq)|left].
      simpl. rewrite lookup_insert_ne by exact Hne. exact Hsame.
    + intros Heq _ _. exact (Hown Heq).
Qed.

Lemma fresh_loop r sg w secret k fields : forall v w0 v' w',
  reconcileFields r secret (getGeneratedAtTime r (Annotations secret)) fields v w0
  = (Next v', w') ->
  Generator r = generator.asGenerator sg ->
  server w0 = server w ->
  (fresh r secret k v -> fresh r secret k v')
  /\ (data v !! k = Data secret !! k ->
      List.In k fields -> owed r w secret k -> fresh r secret k v').
Proof.
  induction fields as [|name rest IH]; intros v w0 v' w'; simpl.
  - intros [= <- <-] _ _. split; [auto|]. intros _ [].
  - destruct (reconcileField r secret _ name v w0) as [[v1|e] w1] eqn:Hstep;
      [|discriminate].
    intros Hrest HG Hserver.
    apply reconcileField_round in Hstep.
    pose proof (FieldRound_server _ _ _ _ _ _ _ _ Hstep) as Hs1.
    destruct (fresh_round r sg w secret name k v w0 v1 w1 Hstep HG
                (server_now r _ _ Hserver)) as (Hkeep1 & Hinv1 & Hown1).
    assert (Hserver1 : server w1 = server w) by congruence.
    destruct (IH _ _ _ _ Hrest HG Hserver1) as (Hkeep & Hlater).
    split; [intros Hf; apply Hkeep, Hkeep1, Hf|].
    intros Hsame Hin Howed.
    destruct (decide (name = k)) as [Heq|Hne].
    + apply Hkeep, (Hown1 Heq Howed Hsame).
    + destruct Hin as [Heq|Hin]; [contradiction|].
      destruct (Hinv1 Hsame) as [Hsame1|Hf1];
        [exact (Hlater Hsame1 Hin Howed)|exact (Hkeep Hf1)].
Qed.

(** X26: with the generator of the repository, a cycle that
    returns no error has given every listed field it owes a value (a
    rotation is due, or the field has no value and is not refused) a
    value of exactly the length [getFieldLength] resolves for it, and has
    stored the object with generated-at set to the time of the cycle. *)
Theorem X26_Reconcile_generates (r : SecretReconciler) (sg : generator.SecretGenerator)
    (req : string * string) (w : World) (secret : Secret) (k : string)
    (res : Result) (w' : World) :
  Generator r = generator.asGenerator sg ->
  cluster w !! req = Some secret ->
  List.In k (Spec.fieldsOf secret) ->
  owed r w secret k ->
  Reconcile r req w = (res, None, w') ->
  exists secret' value,
    cluster w' !! req = Some secret'
    /\ Data secret' !! k = Some value
    /\ Z.of_nat (String.length value) = getFieldLength r (Annotations secret) k
    /\ Annotations secret' !! AnnotationGeneratedAt
       = Some (FormatRFC3339 (now r w)).
Proof.
  intros HG Hsecret Hin Howed Hrun. apply Reconcile_outcome in Hrun.
  remember (@None error) as err eqn:Herr.
  destruct Hrun as [e He|Hget Hnone|secret0 Hget Hs Hnil
                   |secret0 e w1 Hget Hs Hl
                   |secret0 v w1 Hget Hs Hl Hc
                   |secret0 v w1 e Hget Hs Hl Hc Hu
                   |secret0 v w1 Hget Hs Hl Hc Hu];
    try discriminate; try congruence;
    assert (secret0 = secret) as -> by congruence.
  - rewrite Hnil in Hin. destruct Hin.
  - destruct (fresh_loop r sg w secret k _ _ _ _ _ Hl HG eq_refl) as [_ Hfresh].
    destruct (Hfresh eq_refl Hin Howed) as [Hch _]. congruence.
  - destruct (fresh_loop r sg w secret k _ _ _ _ _ Hl HG eq_refl) as [_ Hfresh].
    destruct (Hfresh eq_refl Hin Howed) as [_ (value & Hvalue & Hlen)].
    pose proof (reconcileFields_server _ _ _ _ _ _ _ _ Hl) as Hserver.
    rewrite written_cluster, lookup_insert_eq. eexists _, value.
    split; [reflexivity|]. simpl. split; [exact Hvalue|]. split; [exact Hlen|].
    rewrite lookup_insert_eq, (server_now r _ _ Hserver). reflexivity.
Qed.

Lemma loop_error r secret g fields : forall v w e w',
  reconcileFields r secret g fields v w = (Return e, w') ->
  exists field cause evs,
    List.In field fields
    /\ e = generationError field cause
    /\ recorded w'
       = (recorded w ++ evs ++ [generationFailedWarning field cause])%list.
Proof.
  induction fields as [|name rest IH]; intros v w e w'; simpl; [discriminate|].
  destruct (reconcileField r secret g name v w) as [[v1|e1] w1] eqn:Hstep.
  - intros Hrest. apply reconcileField_round, round_frame in Hstep.
    destruct Hstep as [(evs1 & Hevs1 & _) _].
    destruct (IH _ _ _ _ Hrest) as (field & cause & evs & Hin & He & Hevs).
    exists field, cause, (evs1 ++ evs)%list.
    split; [right; exact Hin|]. split; [exact He|].
    rewrite Hevs, Hevs1, !app_assoc. reflexivity.
  - intros [= <- <-]. apply reconcileField_round in Hstep.
    remember (Return e1) as out eqn:Hout.
    destruct Hstep as [Hcheck|next Hcheck Hsome
                      |needs next err tape Hcheck Hneed Hgen
                      |needs next value tape Hcheck Hneed Hgen];
      try discriminate; injection Hout as <-.
    exists name, err, []. split; [left; reflexivity|]. split; [reflexivity|].
    reflexivity.
Qed.

(** X29: the errors [Reconcile] returns are of three kinds:
    the error of reading the object, with nothing done; the error of a
    failed generation for one of the listed fields, wrapped with the
    name of the field, the last recorded event being the
    GenerationFailed warning for that field; or the error of the failed
    write, after a field loop that recorded nothing but warnings. *)
Theorem X29_Reconcile_errors (r : SecretReconciler) (req : string * string)
    (w : World) (res : Result) (e : error) (w' : World) :
  Reconcile r req w = (res, Some e, w') ->
  (getError w = Some e /\ w' = w)
  \/ (exists secret field cause evs,
        cluster w !! req = Some secret
        /\ List.In field (Spec.fieldsOf secret)
        /\ e = generationError field cause
        /\ recorded w'
           = (recorded w ++ evs ++ [generationFailedWarning field cause])%list)
  \/ (updateError w = Some e
      /\ exists evs, recorded w' = (recorded w ++ evs)%list
                     /\ Forall (fun ev => eventtype ev = EventTypeWarning) evs).
Proof.
  intros Hrun. apply Reconcile_outcome in Hrun.
  remember (Some e) as err eqn:Herr.
  destruct Hrun as [e0 He|Hget Hnone|secret Hget Hs Hnil
                   |secret e0 w1 Hget Hs Hl
                   |secret v w1 Hget Hs Hl Hc
                   |secret v w1 e0 Hget Hs Hl Hc Hu
                   |secret v w1 Hget Hs Hl Hc Hu];
    try discriminate; injection Herr as ->.
  - left. split; [exact He|reflexivity].
  - right. left.
    destruct (loop_error _ _ _ _ _ _ _ _ Hl) as (field & cause & evs & H).
    exists secret, field, cause, evs. split; [exact Hs|exact H].
  - right. right.
    destruct (loop_frame _ _ _ _ _ _ _ _ Hl) as [(evs & Hevs & Hall) _].
    rewrite <- (server_updateError _ _ (reconcileFields_server _ _ _ _ _ _ _ _ Hl)).
    split; [exact Hu|]. exists evs. split; assumption.
Qed.

(** *** The requeue delay *)

Lemma requeue_requested (delay : option Z) : requeue delay = Spec.requested delay.
Proof. destruct delay; reflexivity. Qed.

Lemma pendingTimes_app r w annotations g pre post :
  Spec.pendingTimes r w annotations g (pre ++ post)
  = (Spec.pendingTimes r w annotations g pre ++ Spec.pendingTimes r w annotations g post)%list.
Proof.
  unfold Spec.pendingTimes. rewrite List.map_app, List.filter_app, List.map_app.
  reflexivity.
Qed.

(** What the rotation check of one round leaves in [nextRotation]. *)
Lemma rotationCheck_next r w0 w g annotations field next :
  now r w0 = now r w ->
  match rotationCheck r w0 (Some g)
          (getFieldRotationInterval r annotations field) next with
  | Some (_, next') =>
      next' = fold_left lower (Spec.pendingTimes r w annotations g [field]) next
  | None => Spec.pendingTimes r w annotations g [field] = []
  end.
Proof.
  intros Hnow. unfold rotationCheck, since, Spec.pendingTimes. simpl. rewrite Hnow.
  set (i := getFieldRotationInterval r annotations field).
  set (m := config.MinInterval (config.Rotation (Config r))).
  set (e := Sub (now r w) g).
  destruct (Z.ltb_spec 0 i); simpl; [|reflexivity].
  destruct (Z.ltb_spec i m); destruct (Z.leb_spec m i); try lia; simpl;
    [reflexivity|].
  destruct (Z.leb_spec i e); reflexivity.
Qed.

Lemma stamped_round_next r w secret g field v w0 v1 w1 :
  FieldRound r secret (Some g) field v w0 (Next v1) w1 ->
  now r w0 = now r w ->
  nextRotation v1
  = fold_left lower (Spec.pendingTimes r w (Annotations secret) g [field])
      (nextRotation v).
Proof.
  intros Hround Hnow.
  pose proof (rotationCheck_next r w0 w g (Annotations secret) field
                (nextRotation v) Hnow) as Hnext.
  remember (Next v1) as out eqn:Hout.
  destruct Hround as [Hcheck|next Hcheck Hsome
                     |needs next err tape Hcheck Hneed Hgen
                     |needs next value tape Hcheck Hneed Hgen];
    try discriminate; injection Hout as <-; rewrite Hcheck in Hnext.
  - rewrite Hnext. reflexivity.
  - exact Hnext.
  - exact Hnext.
Qed.

Lemma stamped_loop_next r w secret g fields : forall v w0 v' w',
  reconcileFields r secret (Some g) fields v w0 = (Next v', w') ->
  server w0 = server w ->
  nextRotation v'
  = fold_left lower (Spec.pendingTimes r w (Annotations secret) g fields)
      (nextRotation v).
Proof.
  induction fields as [|field rest IH]; intros v w0 v' w'.
  - simpl. intros [= <- _] _. reflexivity.
  - simpl reconcileFields.
    destruct (reconcileField r secret (Some g) field v w0) as [[v1|e] w1] eqn:Hstep;
      [|discriminate].
    intros Hrest Hserver. apply reconcileField_round in Hstep.
    pose proof (FieldRound_server _ _ _ _ _ _ _ _ Hstep) as Hs1.
    change (field :: rest) with ([field] ++ rest)%list.
    rewrite pendingTimes_app, fold_left_app.
    rewrite <- (stamped_round_next _ _ _ _ _ _ _ _ _ Hstep (server_now r _ _ Hserver)).
    apply (IH _ _ _ _ Hrest). congruence.
Qed.

(** The candidates the field loop leaves behind. *)
Lemma loop_candidates r w secret v w1 :
  reconcileFields r secret (getGeneratedAtTime r (Annotations secret))
    (Spec.fieldsOf secret) (start secret) w = (Next v, w1) ->
  nextRotation v
  = Spec.minimumOf
      match getGeneratedAtTime r (Annotations secret) with
      | Some g => Spec.pendingTimes r w (Annotations secret) g (Spec.fieldsOf secret)
      | None => Spec.fullIntervals r (Annotations secret) (Spec.fieldsOf secret)
      end.
Proof.
  destruct (getGeneratedAtTime r (Annotations secret)) as [g|]; intros Hl.
  - rewrite (stamped_loop_next _ w _ _ _ _ _ _ _ Hl eq_refl). apply fold_lower_None.
  - rewrite (unstamped_loop_next _ _ _ _ _ _ _ Hl). apply fold_lower_None.
Qed.

Lemma minimumOf_app (a b : list Z) :
  fold_left lower b (Spec.minimumOf a) = Spec.minimumOf (a ++ b).
Proof. rewrite <- !fold_lower_None, fold_left_app. reflexivity. Qed.

(** The result of a cycle that has written: the least of what the loop
    left behind and of the full intervals. *)
Lemma written_requeue r w secret v w1 :
  reconcileFields r secret (getGeneratedAtTime r (Annotations secret))
    (Spec.fieldsOf secret) (start secret) w = (Next v, w1) ->
  requeue (recalculate r (Annotations (stamped r w1 secret v))
             (Spec.fieldsOf secret) (nextRotation v))
  = Spec.requested
      (Spec.minimumOf
         (match getGeneratedAtTime r (Annotations secret) with
          | Some g => Spec.pendingTimes r w (Annotations secret) g (Spec.fieldsOf secret)
          | None => Spec.fullIntervals r (Annotations secret) (Spec.fieldsOf secret)
          end
          ++ Spec.fullIntervals r (Annotations secret) (Spec.fieldsOf secret))).
Proof.
  intros Hl. rewrite requeue_requested, recalculate_fold.
  unfold stamped. simpl Annotations. rewrite fullIntervals_after_write.
  rewrite (loop_candidates _ _ _ _ _ Hl), minimumOf_app. reflexivity.
Qed.

Lemma minimumOf_None (l : list Z) : Spec.minimumOf l = None -> l = [].
Proof. destruct l; [reflexivity|discriminate]. Qed.

Lemma minimumOf_Some (l : list Z) : l <> [] -> is_Some (Spec.minimumOf l).
Proof. destruct l; [congruence|]. simpl. eauto. Qed.


Lemma pendingTimes_none r w annotations g fields :
  Spec.fullIntervals r annotations fields = [] ->
  Spec.pendingTimes r w annotations g fields = [].
Proof.
  intros Hnil. apply fullIntervals_nil in Hnil. unfold Spec.pendingTimes.
  induction Hnil as [|field rest Hfield _ IH]; simpl; [reflexivity|].
  rewrite Hfield. simpl. exact IH.
Qed.





(** X23: a cycle that changes a value and ends without
    error, on an object whose generated-at (if readable) is not in the
    future and whose intervals fit a [time.Duration], does request a
    requeue when some listed field has a positive rotation interval:
    [RequeueAfter] is greater than 0 and no greater than the shortest of
    these intervals; when no listed field has one, the result is
    empty. *)
Theorem X23_Reconcile_requeue_after_write (r : SecretReconciler)
    (req : string * string) (w : World) (secret secret' : Secret) (k : string)
    (res : Result) (w' : World) :
  cluster w !! req = Some secret ->
  Reconcile r req w = (res, None, w') ->
  cluster w' !! req = Some secret' ->
  Data secret' !! k <> Data secret !! k ->
  (forall g, getGeneratedAtTime r (Annotations secret) = Some g ->
             0 <= Sub (now r w) g) ->
  Forall (fun interval => interval <= maxInt64)
         (Spec.fullIntervals r (Annotations secret) (Spec.fieldsOf secret)) ->
  match Spec.minimumOf
          (Spec.fullIntervals r (Annotations secret) (Spec.fieldsOf secret)) with
  | Some shortest =>
      exists d, res = {| Requeue := false; RequeueAfter := d |}
                /\ 0 < d <= shortest
  | None => res = {| Requeue := false; RequeueAfter := 0 |}
  end.
Proof.
  intros Hsecret Hrun Hs' Hdiff Hpast Hfit. apply Reconcile_outcome in Hrun.
  remember (@None error) as err eqn:Herr.
  destruct Hrun as [e He|Hget Hnone|secret0 Hget Hs Hnil
                   |secret0 e w1 Hget Hs Hl
                   |secret0 v w1 Hget Hs Hl Hc
                   |secret0 v w1 e Hget Hs Hl Hc Hu
                   |secret0 v w1 Hget Hs Hl Hc Hu];
    try discriminate; try congruence.
  - exfalso. apply Hdiff.
    rewrite (server_cluster _ _ (reconcileFields_server _ _ _ _ _ _ _ _ Hl)) in Hs'.
    congruence.
  - assert (secret0 = secret) as -> by congruence.
    rewrite (written_requeue _ _ _ _ _ Hl).
    set (full := Spec.fullIntervals r (Annotations secret) (Spec.fieldsOf secret))
      in *.
    set (left := match getGeneratedAtTime r (Annotations secret) with
                 | Some g => Spec.pendingTimes r w (Annotations secret) g
                               (Spec.fieldsOf secret)
                 | None => full
                 end).
    assert (Hfull : Forall (fun i => 0 < i) full).
    { unfold full, Spec.fullIntervals. apply Forall_forall. intros i Hi.
      apply list_elem_of_In, filter_In in Hi as [_ Hi]. apply Z.ltb_lt, Hi. }
    assert (Hleft : Forall (fun c => 0 < c) left).
    { unfold left. destruct (getGeneratedAtTime r (Annotations secret)) as [g|] eqn:Hg;
        [|exact Hfull].
      specialize (Hpast g eq_refl). unfold Spec.pendingTimes.
      apply Forall_forall. intros c Hc'.
      apply list_elem_of_In, in_map_iff in Hc' as (i & <- & Hi).
      apply filter_In in Hi as [Hi Hcond].
      apply andb_true_iff in Hcond as [Hcond Hnot].
      apply andb_true_iff in Hcond as [Hpos _].
      apply Z.ltb_lt in Hpos. apply negb_true_iff, Z.leb_gt in Hnot.
      assert (Hmax : i <= maxInt64).
      { rewrite Forall_forall in Hfit. apply Hfit, list_elem_of_In.
        unfold full, Spec.fullIntervals. apply filter_In.
        split; [exact Hi|apply Z.ltb_lt, Hpos]. }
      unfold durSub. rewrite wrap64_exact; unfold minInt64, maxInt64 in *; lia. }
    destruct (Spec.minimumOf full) as [shortest|] eqn:Hshort.
    + destruct (minimumOf_least _ _ Hshort) as [Hin _].
      assert (Hne : (left ++ full)%list <> [])
        by (destruct left, full; simpl in *; congruence || contradiction).
      destruct (minimumOf_Some _ Hne) as [d Hd]. rewrite Hd.
      destruct (minimumOf_least _ _ Hd) as [Hdin Hdle].
      exists d. split; [reflexivity|]. split.
      * rewrite Forall_forall in Hleft, Hfull.
        apply in_app_or in Hdin as [H1|H1];
          [apply Hleft, list_elem_of_In, H1|apply Hfull, list_elem_of_In, H1].
      * rewrite Forall_forall in Hdle. apply Hdle, list_elem_of_In, in_or_app.
        right. exact Hin.
    + apply minimumOf_None in Hshort.
      assert (Hl0 : left = []).
      { unfold left. destruct (getGeneratedAtTime r (Annotations secret));
          [apply pendingTimes_none|]; exact Hshort. }
      rewrite Hl0, Hshort. reflexivity.
Qed.

End Cycles.

(** * Evaluations on the host *)

#[local] Existing Instance Host.lib.

Lemma C10_witness :
  let r := Fixtures.reconciler Fixtures.weekendOnly Fixtures.mondayNoon in
  let w := Fixtures.world Fixtures.blankSecret in
  controller.getError w = None
  /\ controller.cluster w !! Fixtures.request = Some Fixtures.blankSecret
  /\ Spec.namesNoField (controller.Annotations Fixtures.blankSecret
                          !! controller.AnnotationAutogenerate)
  /\ controller.Reconcile r Fixtures.request w
     = (controller.noResult, None, w).
Proof.
  assert (H : Spec.namesNoField (controller.Annotations Fixtures.blankSecret
                                   !! controller.AnnotationAutogenerate)).
  { vm_compute. repeat constructor. }
  intros r w.
  split; [reflexivity|]. split; [reflexivity|]. split; [exact H|].
  exact (C10_nothing_to_generate r Fixtures.request w
           Fixtures.blankSecret eq_refl eq_refl H).
Defined.

Lemma C6_witness :
  config.Validate Fixtures.weekendNight = None
  /\ exists loc startHour startMinute endHour endMinute,
       LoadLocation (config.Timezone Fixtures.weekendNight) = Some loc
       /\ config.ParseTime "03:00" = (startHour, startMinute, None)
       /\ config.ParseTime "05:00" = (endHour, endMinute, None)
       /\ let localTime := In Fixtures.saturdayFour loc in
          let minuteOfDay := HourOf localTime * 60 + MinuteOf localTime in
          config.IsInWindow Fixtures.weekendNight Fixtures.saturdayFour = true
          <-> Exists (fun day => config.ParseDay day = Ok (Weekday localTime))
                     ["saturday"; "sunday"]
              /\ startHour * 60 + startMinute <= minuteOfDay
                 < endHour * 60 + endMinute.
Proof.
  assert (H : config.Validate Fixtures.weekendNight = None)
    by (vm_compute; reflexivity).
  split; [exact H|].
  exact (C6_window_membership Fixtures.weekendNight
           Fixtures.saturdayFour H).
Defined.

Example window_boundaries :
  let inWindow h m :=
    config.IsInWindow Fixtures.weekendNight
      (Date 2026 2 7 h m 0 0 UTC) in
  inWindow 2 59 = false /\ inWindow 3 0 = true /\ inWindow 4 59 = true
  /\ inWindow 5 0 = false
  /\ config.IsInWindow Fixtures.weekendNight
       Fixtures.mondayNoon = false
  /\ config.IsInWindow Fixtures.weekendNight
       (Date 2026 2 6 3 30 0 0 (FixedZone "west" (-3600 * 5))) = false
  /\ config.IsInWindow Fixtures.weekendNight
       (Date 2026 2 6 23 30 0 0 (FixedZone "west" (-3600 * 5))) = true.
Proof. vm_compute. repeat split; reflexivity. Qed.

Lemma C7_witness :
  config.Enabled Fixtures.twoWindows = true
  /\ config.Windows Fixtures.twoWindows <> []
  /\ Forall (fun w => IsZero (config.NextStart w
                                Fixtures.mondayNoon) = false)
            (config.Windows Fixtures.twoWindows)
  /\ Exists (fun w => config.NextWindowStart Fixtures.twoWindows Fixtures.mondayNoon
                      = config.NextStart w Fixtures.mondayNoon)
            (config.Windows Fixtures.twoWindows)
  /\ Forall (fun w => Before (config.NextStart w Fixtures.mondayNoon)
                        (config.NextWindowStart Fixtures.twoWindows
                           Fixtures.mondayNoon) = false)
            (config.Windows Fixtures.twoWindows).
Proof.
  assert (Hne : config.Windows Fixtures.twoWindows <> []) by discriminate.
  assert (Hnz : Forall (fun w => IsZero (config.NextStart w
                                           Fixtures.mondayNoon) = false)
                       (config.Windows Fixtures.twoWindows)).
  { repeat constructor. }
  split; [reflexivity|]. split; [exact Hne|]. split; [exact Hnz|].
  exact (proj2 (C7_next_window_start Fixtures.twoWindows
                  Fixtures.mondayNoon) eq_refl Hne Hnz).
Defined.

(** On Monday 2 February 2026 the Wednesday window is the nearer of the
    two, on Thursday the Saturday window: the two cases of
    [TestMultipleWindowsNextStart]. *)
Example picks_closer_window :
  Host.formatRFC3339
    (config.NextWindowStart Fixtures.twoWindows
       (Date 2026 2 2 10 0 0 0 UTC)) = "2026-02-04T02:00:00Z"
  /\ Host.formatRFC3339
       (config.NextWindowStart Fixtures.twoWindows
          (Date 2026 2 5 10 0 0 0 UTC)) = "2026-02-07T03:00:00Z".
Proof. vm_compute. split; reflexivity. Qed.

(** C7, as stated, fails at the zero time.  Both windows are valid; the
    Monday window is open at 0001-01-01T00:00:00Z, so its next start is
    that very instant, which is the zero time; the loop takes it for "no
    value yet" and replaces it by the Tuesday start, a day later. *)
Lemma C7_counterexample :
  config.Validate Fixtures.mondayMidnight = None
  /\ config.Validate Fixtures.tuesdayMidnight = None
  /\ Host.formatRFC3339
       (config.NextStart Fixtures.mondayMidnight zeroTime)
     = "0001-01-01T00:00:00Z"
  /\ Host.formatRFC3339
       (config.NextStart Fixtures.tuesdayMidnight zeroTime)
     = "0001-01-02T00:00:00Z"
  /\ Host.formatRFC3339
       (config.NextWindowStart Fixtures.twoMidnights zeroTime)
     = "0001-01-02T00:00:00Z"
  /\ Before (config.NextStart Fixtures.mondayMidnight zeroTime)
            (config.NextWindowStart Fixtures.twoMidnights
               zeroTime) = true.
Proof. vm_compute. repeat split; reflexivity. Qed.

(** ** Reconciliation on the test objects *)

(** C1 fails on [Reconcile], at the input of the integration test
    [TestMaintenanceWindowRotationDeferred].  The field has a value, its
    interval of one hour is positive and above the minimum of five
    minutes, generated-at lies two hours back, and Monday noon is outside
    the one enabled window; yet the cycle writes a new value and a new
    generated-at, and asks to be run again in an hour. *)
Theorem C1_due_rotation_is_not_deferred :
  let r := Fixtures.reconciler Fixtures.weekendOnly Fixtures.mondayNoon in
  let w := Fixtures.world Fixtures.dueSecret in
  let annotations := controller.Annotations Fixtures.dueSecret in
  controller.Data Fixtures.dueSecret !! "password" = Some "old-password-value"
  /\ controller.getFieldRotationInterval r annotations "password" = 1 * Hour
  /\ config.MinInterval (config.Rotation (controller.Config r)) = 5 * Minute
  /\ annotations !! controller.AnnotationGeneratedAt = Some "2026-02-02T10:00:00Z"
  /\ controller.since r w <$> controller.getGeneratedAtTime r annotations
     = Some (2 * Hour)
  /\ config.IsInAnyWindow
       (config.MaintenanceWindows (config.Rotation (controller.Config r)))
       (controller.now r w) = false
  /\ exists secret' w',
       controller.Reconcile r Fixtures.request w
       = ({| controller.Requeue := false; controller.RequeueAfter := 1 * Hour |},
          None, w')
       /\ controller.cluster w' !! Fixtures.request = Some secret'
       /\ controller.Data secret' !! "password"
          = Some "WXYZ012345JKLMNOPQRSTUVWXYZ01234"
       /\ controller.Annotations secret' !! controller.AnnotationGeneratedAt
          = Some "2026-02-02T12:00:00Z".
Proof.
  intros r w annotations.
  repeat (split; [vm_compute; reflexivity|]).
  eexists. eexists.
  split; [vm_compute; reflexivity|].
  split; [vm_compute; reflexivity|].
  split; vm_compute; reflexivity.
Qed.

(** With the windows disabled the same cycle takes the same course. *)
Example windows_make_no_difference :
  controller.Reconcile
    (Fixtures.reconciler Fixtures.weekendOnly Fixtures.mondayNoon)
    Fixtures.request (Fixtures.world Fixtures.dueSecret)
  = controller.Reconcile
      (Fixtures.reconciler
         {| config.Enabled := false; config.Windows := [Fixtures.weekendNight] |}
         Fixtures.mondayNoon)
      Fixtures.request (Fixtures.world Fixtures.dueSecret).
Proof.
  exact (Reconcile_withWindows Fixtures.weekendOnly
           (Fixtures.reconciler
              {| config.Enabled := false; config.Windows := [Fixtures.weekendNight] |}
              Fixtures.mondayNoon)
           Fixtures.request (Fixtures.world Fixtures.dueSecret)).
Qed.

Lemma C2_witness :
  let r := Fixtures.reconciler Fixtures.weekendOnly Fixtures.mondayNoon in
  let w := Fixtures.world Fixtures.brokenSecret in
  let annotations := controller.Annotations Fixtures.brokenSecret in
  let unknown := Errorf "unknown generation type: %s" [AStr "uuid"] in
  controller.parseFields "password,token" = ["password"; "token"]
  /\ controller.rotationCheck r w (controller.getGeneratedAtTime r annotations)
       (controller.getFieldRotationInterval r annotations "password") None
     = Some (true, None)
  /\ generator.Generate (controller.Generator r) "uuid" 32 Fixtures.tape
     = (Err unknown, Fixtures.tape)
  /\ exists w',
       controller.Reconcile r Fixtures.request w
       = (controller.noResult,
          Some (controller.generationError "password" unknown), w')
       /\ controller.cluster w' = controller.cluster w
       /\ controller.recorded w'
          = (controller.recorded w
             ++ [controller.generationFailedWarning "password" unknown])%list.
Proof.
  intros r w annotations unknown.
  assert (Hfields : controller.parseFields "password,token"
                    = ([] ++ "password" :: ["token"])%list)
    by (vm_compute; reflexivity).
  assert (Hcheck : controller.rotationCheck r w
                     (controller.getGeneratedAtTime r annotations)
                     (controller.getFieldRotationInterval r annotations "password")
                     None = Some (true, None))
    by (vm_compute; reflexivity).
  assert (Hgen : generator.Generate (controller.Generator r)
                   (controller.getFieldType r annotations "password")
                   (controller.getFieldLength r annotations "password")
                   (controller.entropy w) = (Err unknown, Fixtures.tape))
    by (vm_compute; reflexivity).
  split; [exact Hfields|]. split; [exact Hcheck|]. split; [exact Hgen|].
  exact (C2_generation_failure_aborts_cycle r Fixtures.request w
           Fixtures.brokenSecret "password,token" [] "password" ["token"]
           (Fixtures.entry Fixtures.brokenSecret) w true None unknown
           Fixtures.tape eq_refl eq_refl eq_refl Hfields eq_refl Hcheck
           (or_intror eq_refl) Hgen).
Defined.

(** C2, as stated, fails for a due rotation.  [password] has a value,
    its rotation is due, and its generation fails; [token], listed after
    it, has no value and would be given one if the loop came to it.  The
    cycle ends at [password]: [Reconcile] returns the error, the only
    event is the warning for [password], and the object is as it was,
    still without [token]. *)
Lemma C2_counterexample :
  let r := Fixtures.reconciler Fixtures.weekendOnly Fixtures.mondayNoon in
  let w := Fixtures.world Fixtures.brokenSecret in
  let annotations := controller.Annotations Fixtures.brokenSecret in
  let g := controller.getGeneratedAtTime r annotations in
  let unknown := Errorf "unknown generation type: %s" [AStr "uuid"] in
  controller.Data Fixtures.brokenSecret !! "password" = Some "old-password-value"
  /\ controller.rotationCheck r w g
       (controller.getFieldRotationInterval r annotations "password") None
     = Some (true, None)
  /\ controller.Data Fixtures.brokenSecret !! "token" = None
  /\ (exists v' w',
        controller.reconcileFields r Fixtures.brokenSecret g ["token"]
          (Fixtures.entry Fixtures.brokenSecret) w = (controller.Next v', w')
        /\ controller.data v' !! "token" = Some "WXYZ012345JKLMNOPQRSTUVWXYZ01234")
  /\ exists w',
       controller.Reconcile r Fixtures.request w
       = (controller.noResult,
          Some (controller.generationError "password" unknown), w')
       /\ controller.recorded w'
          = [controller.generationFailedWarning "password" unknown]
       /\ controller.cluster w' !! Fixtures.request = Some Fixtures.brokenSecret.
Proof.
  intros r w annotations g unknown.
  repeat (split; [vm_compute; reflexivity|]).
  split.
  - eexists. eexists. split; vm_compute; reflexivity.
  - eexists. split; [vm_compute; reflexivity|].
    split; vm_compute; reflexivity.
Qed.

Example resting_cycle_requeue :
  fst (fst (controller.Reconcile
              (Fixtures.reconciler Fixtures.weekendOnly Fixtures.mondayNoon)
              Fixtures.request (Fixtures.world Fixtures.restingSecret)))
  = {| controller.Requeue := false; controller.RequeueAfter := 9 * Hour |}.
Proof. vm_compute. reflexivity. Qed.


(** After a write, a candidate computed from the old generated-at is
    still taken into the minimum.  [password] was not yet due, an hour
    short of its ten; [token] is generated, generated-at becomes Monday
    noon, and the cycle asks to be run again in one hour, not in ten. *)
Example stale_candidate_after_write :
  let r := Fixtures.reconciler Fixtures.weekendOnly Fixtures.mondayNoon in
  let w := Fixtures.world Fixtures.staleSecret in
  Spec.fullIntervals r (controller.Annotations Fixtures.staleSecret)
    (Spec.fieldsOf Fixtures.staleSecret) = [10 * Hour; 10 * Hour]
  /\ exists secret' w',
       controller.Reconcile r Fixtures.request w
       = ({| controller.Requeue := false; controller.RequeueAfter := 1 * Hour |},
          None, w')
       /\ controller.cluster w' !! Fixtures.request = Some secret'
       /\ controller.Annotations secret' !! controller.AnnotationGeneratedAt
          = Some "2026-02-02T12:00:00Z".
Proof.
  intros r w. split; [vm_compute; reflexivity|].
  eexists. eexists. split; [vm_compute; reflexivity|].
  split; vm_compute; reflexivity.
Qed.

Lemma C4_witness :
  let r := Fixtures.reconciler Fixtures.weekendOnly Fixtures.mondayNoon in
  let w := Fixtures.world Fixtures.tightSecret in
  let annotations := controller.Annotations Fixtures.tightSecret in
  let g := Date 2026 2 2 11 59 30 0 UTC in
  controller.getGeneratedAtTime r annotations = Some g
  /\ 0 < controller.getFieldRotationInterval r annotations "password"
       < config.MinInterval (config.Rotation (controller.Config r))
  /\ forall res err w',
       controller.Reconcile r Fixtures.request w = (res, err, w') ->
       (forall secret', controller.cluster w' !! Fixtures.request = Some secret' ->
                        controller.Data secret' !! "password"
                        = controller.Data Fixtures.tightSecret !! "password")
       /\ exists evs,
            controller.recorded w' = (controller.recorded w ++ evs)%list
            /\ (err = None ->
                length (List.filter (Spec.belowMinimumWarningFor "password") evs)
                = Spec.occurrences "password" (Spec.fieldsOf Fixtures.tightSecret)).
Proof.
  intros r w annotations g.
  assert (Hg : controller.getGeneratedAtTime r annotations = Some g)
    by (vm_compute; reflexivity).
  assert (Hbelow : 0 < controller.getFieldRotationInterval r annotations "password"
                     < config.MinInterval (config.Rotation (controller.Config r)))
    by (vm_compute; split; reflexivity).
  split; [exact Hg|]. split; [exact Hbelow|].
  intros res err w' Hrun.
  exact (proj2 (C4_below_minimum_refused r Fixtures.request w Fixtures.tightSecret
                  g "password" res err w' eq_refl eq_refl Hg Hbelow Hrun)).
Defined.

Example tight_cycle_one_warning :
  let r := Fixtures.reconciler Fixtures.weekendOnly Fixtures.mondayNoon in
  let '(res, err, w') :=
    controller.Reconcile r Fixtures.request (Fixtures.world Fixtures.tightSecret) in
  err = None
  /\ controller.recorded w'
     = [controller.belowMinimumWarning (1 * Minute) "password" (5 * Minute)]
  /\ controller.cluster w' !! Fixtures.request = Some Fixtures.tightSecret.
Proof. vm_compute. repeat split; reflexivity. Qed.

(** C4, as stated, fails when the field is listed twice: the interval
    of one minute is positive and below the minimum of five, generated-at
    exists, and one cycle records two warnings for the field. *)
Lemma C4_counterexample :
  let r := Fixtures.reconciler Fixtures.weekendOnly Fixtures.mondayNoon in
  let w := Fixtures.world Fixtures.twiceSecret in
  let annotations := controller.Annotations Fixtures.twiceSecret in
  0 < controller.getFieldRotationInterval r annotations "password"
    < config.MinInterval (config.Rotation (controller.Config r))
  /\ controller.getGeneratedAtTime r annotations
     = Some (Date 2026 2 2 11 59 30 0 UTC)
  /\ Spec.fieldsOf Fixtures.twiceSecret = ["password"; "password"]
  /\ exists w',
       controller.Reconcile r Fixtures.request w = (controller.noResult, None, w')
       /\ length (List.filter (Spec.belowMinimumWarningFor "password")
                    (controller.recorded w')) = 2%nat.
Proof.
  intros r w annotations.
  split; [vm_compute; split; reflexivity|].
  split; [vm_compute; reflexivity|].
  split; [vm_compute; reflexivity|].
  eexists. split; vm_compute; reflexivity.
Qed.

Lemma C9_witness :
  let r := Fixtures.reconciler Fixtures.weekendOnly Fixtures.mondayNoon in
  let w := Fixtures.world Fixtures.unstampedSecret in
  let annotations := controller.Annotations Fixtures.unstampedSecret in
  annotations !! controller.AnnotationGeneratedAt = Some "yesterday"
  /\ Spec.noValidTimestamp (annotations !! controller.AnnotationGeneratedAt)
  /\ forall res err w',
       controller.Reconcile r Fixtures.request w = (res, err, w') ->
       (exists evs, controller.recorded w' = (controller.recorded w ++ evs)%list
                    /\ Forall (fun e => ~ Spec.rotationEvent e) evs)
       /\ (forall secret',
             controller.cluster w' !! Fixtures.request = Some secret' ->
             forall k val,
               controller.Data Fixtures.unstampedSecret !! k = Some val ->
               controller.Data secret' !! k = Some val)
       /\ (controller.cluster w' = controller.cluster w
           \/ exists secret',
                controller.cluster w'
                = <[Fixtures.request := secret']> (controller.cluster w)
                /\ controller.Annotations secret'
                   = <[controller.AnnotationGeneratedAt
                       := FormatRFC3339 (controller.now r w)]> annotations).
Proof.
  intros r w annotations.
  assert (Hstamp : Spec.noValidTimestamp
                     (annotations !! controller.AnnotationGeneratedAt))
    by (vm_compute; reflexivity).
  split; [vm_compute; reflexivity|]. split; [exact Hstamp|].
  intros res err w' Hrun.
  exact (C9_never_generated r Fixtures.request w Fixtures.unstampedSecret
           res err w' eq_refl eq_refl Hstamp Hrun).
Defined.

Example unstamped_cycle :
  let r := Fixtures.reconciler Fixtures.weekendOnly Fixtures.mondayNoon in
  exists secret' w',
    controller.Reconcile r Fixtures.request
      (Fixtures.world Fixtures.unstampedSecret)
    = ({| controller.Requeue := false; controller.RequeueAfter := 1 * Hour |},
       None, w')
    /\ controller.recorded w' = [controller.generationSucceeded]
    /\ controller.cluster w' !! Fixtures.request = Some secret'
    /\ controller.Data secret' !! "password" = Some "old-password-value"
    /\ controller.Data secret' !! "token"
       = Some "WXYZ012345JKLMNOPQRSTUVWXYZ01234"
    /\ controller.Annotations secret' !! controller.AnnotationGeneratedAt
       = Some "2026-02-02T12:00:00Z".
Proof.
  intros r. eexists. eexists.
  split; [vm_compute; reflexivity|].
  repeat split; vm_compute; reflexivity.
Qed.

(** ** Maintenance windows, the generator and whole cycles on the test objects *)

Lemma weekendNight_settled : Schedule.settledWindow Fixtures.weekendNight.
Proof.
  split; [vm_compute; reflexivity|].
  exists UTC, 0. split; [reflexivity|]. intros sec. reflexivity.
Qed.

Lemma X5_witness :
  let w := Fixtures.weekendNight in
  let t := Fixtures.mondayNoon in
  LoadLocation (config.Timezone w) = Some UTC
  /\ config.parseDays (config.Days w) <> []
  /\ exists k,
       0 <= k <= 7
       /\ Schedule.onDay (config.parseDays (config.Days w)) (Weekday (In t UTC)) k
          = true
       /\ config.NextStart w t
          = let day := if k =? 0 then In t UTC else AddDate (In t UTC) 0 0 k in
            Date (YearOf day) (MonthOf day) (DayOf day)
                 (fst (fst (config.ParseTime (config.StartTime w))))
                 (snd (fst (config.ParseTime (config.StartTime w)))) 0 0 UTC.
Proof.
  intros w t.
  assert (Hloc : LoadLocation (config.Timezone w) = Some UTC) by reflexivity.
  assert (Hdays : config.parseDays (config.Days w) <> [])
    by (vm_compute; discriminate).
  split; [exact Hloc|]. split; [exact Hdays|].
  exact (X5_NextStart_finds_a_day w t UTC Hloc Hdays).
Defined.

(** From Monday noon the weekend window opens next on Saturday at 03:00,
    five days ahead. *)
Example weekend_from_monday :
  Host.formatRFC3339 (config.NextStart Fixtures.weekendNight Fixtures.mondayNoon)
  = "2026-02-07T03:00:00Z".
Proof. vm_compute. reflexivity. Qed.

Lemma X6_witness :
  Schedule.settledWindow Fixtures.weekendNight
  /\ config.IsInWindow Fixtures.weekendNight
       (config.NextStart Fixtures.weekendNight Fixtures.mondayNoon) = true.
Proof.
  split; [exact weekendNight_settled|].
  exact (X6_NextStart_opens_window Fixtures.weekendNight Fixtures.mondayNoon
           weekendNight_settled).
Defined.


Lemma X8_witness :
  let w := Fixtures.weekendNight in
  let t := Fixtures.mondayNoon in
  Schedule.settledWindow w
  /\ config.NextStart w (config.NextStart w t) = config.NextStart w t.
Proof.
  intros w t. split; [exact weekendNight_settled|].
  exact (X8_NextStart_idempotent w t weekendNight_settled).
Defined.

Lemma X9_witness :
  let m := Fixtures.weekendOnly in
  let t := Fixtures.mondayNoon in
  config.Enabled m = true
  /\ config.Windows m <> []
  /\ Forall Schedule.settledWindow (config.Windows m)
  /\ config.IsInAnyWindow m t = false
  /\ unixNano zeroTime <= unixNano t
  /\ config.DurationUntilNextWindow m t
     = unixNano (config.NextWindowStart m t) - unixNano t
  /\ 0 < config.DurationUntilNextWindow m t < Schedule.week.
Proof.
  intros m t.
  assert (Hne : config.Windows m <> []) by discriminate.
  assert (Hall : Forall Schedule.settledWindow (config.Windows m))
    by (constructor; [exact weekendNight_settled|constructor]).
  assert (Hout : config.IsInAnyWindow m t = false) by (vm_compute; reflexivity).
  assert (Hzero : unixNano zeroTime <= unixNano t) by (vm_compute; discriminate).
  split; [reflexivity|]. split; [exact Hne|]. split; [exact Hall|].
  split; [exact Hout|]. split; [exact Hzero|].
  exact (proj2 (X9_DurationUntilNextWindow_range m t) eq_refl Hne Hall Hout Hzero).
Defined.

(** From Monday noon to Saturday 03:00 it is four days and fifteen
    hours. *)
Example wait_from_monday :
  config.DurationUntilNextWindow Fixtures.weekendOnly Fixtures.mondayNoon
  = (4 * 24 + 15) * Hour.
Proof. vm_compute. reflexivity. Qed.

Lemma X10_witness :
  let g := generator.NewSecretGenerator in
  0 < 8
  /\ "abc" <> ""
  /\ 8 <= Z.of_nat (String.length Fixtures.tape)
  /\ exists value rest,
       generator.GenerateStringWithCharset (generator.asGenerator g) 8 "abc"
         Fixtures.tape = (Ok value, rest)
       /\ Z.of_nat (String.length value) = 8
       /\ Forall (fun c => List.In c (list_ascii_of_string "abc"))
                 (list_ascii_of_string value)
       /\ Z.of_nat (String.length Fixtures.tape)
          = 8 + Z.of_nat (String.length rest).
Proof.
  intros g.
  assert (Hpos : 0 < 8) by lia.
  assert (Hset : "abc" <> "") by discriminate.
  assert (Hlen : 8 <= Z.of_nat (String.length Fixtures.tape))
    by (vm_compute; discriminate).
  split; [exact Hpos|]. split; [exact Hset|]. split; [exact Hlen|].
  exact (X10_GenerateStringWithCharset_value g 8 "abc" Fixtures.tape
           Hpos Hset Hlen).
Defined.

(** The bytes "01234567" of the tape, taken modulo 3 into "abc". *)
Example abc_of_tape :
  generator.GenerateStringWithCharset
    (generator.asGenerator generator.NewSecretGenerator) 8 "abc" Fixtures.tape
  = (Ok "abcabcab", "89abcdefghijklmnopqrstuvwxyzABCD").
Proof. vm_compute. reflexivity. Qed.

Lemma X11_witness :
  let g := generator.NewSecretGenerator in
  0 < 8
  /\ 8 <= Z.of_nat (String.length Fixtures.tape)
  /\ exists value rest,
       generator.GenerateBytes (generator.asGenerator g) 8 Fixtures.tape
       = (Ok value, rest)
       /\ Fixtures.tape = value +:+ rest
       /\ Z.of_nat (String.length value) = 8.
Proof.
  intros g.
  assert (Hpos : 0 < 8) by lia.
  assert (Hlen : 8 <= Z.of_nat (String.length Fixtures.tape))
    by (vm_compute; discriminate).
  split; [exact Hpos|]. split; [exact Hlen|].
  exact (X11_GenerateBytes_value g 8 Fixtures.tape Hpos Hlen).
Defined.

Lemma X13_witness :
  let g := generator.NewSecretGenerator in
  exists value rest,
    generator.Generate (generator.asGenerator g) "string" 8 Fixtures.tape
    = (Ok value, rest)
    /\ Z.of_nat (String.length value) = 8
    /\ exists drawn, Fixtures.tape = drawn +:+ rest
                     /\ Z.of_nat (String.length drawn) = 8.
Proof.
  intros g.
  assert (Hrun : generator.Generate (generator.asGenerator g) "string" 8
                   Fixtures.tape
                 = (Ok "WXYZ0123", "89abcdefghijklmnopqrstuvwxyzABCD"))
    by (vm_compute; reflexivity).
  eexists _, _. split; [exact Hrun|].
  exact (X13_Generate_draws g "string" 8 Fixtures.tape _ _ Hrun).
Defined.

(** The cycle on [Fixtures.staleSecret]: [token] is generated, the
    object is stored with generated-at set to the time of the cycle, and
    by that time no field is due. *)
Lemma stale_cycle :
  let r := Fixtures.reconciler Fixtures.weekendOnly Fixtures.mondayNoon in
  let w := Fixtures.world Fixtures.staleSecret in
  exists res w1 secret1 g1,
    controller.Reconcile r Fixtures.request w = (res, None, w1)
    /\ controller.cluster w1 !! Fixtures.request = Some secret1
    /\ controller.getGeneratedAtTime r (controller.Annotations secret1) = Some g1
    /\ Forall (fun field =>
                 ~ Spec.due r w1 (controller.Annotations secret1) g1 field)
              (Spec.fieldsOf secret1)
    /\ controller.Data secret1 !! "token"
       <> controller.Data Fixtures.staleSecret !! "token".
Proof.
  intros r w. do 4 eexists.
  split; [vm_compute; reflexivity|].
  split; [vm_compute; reflexivity|].
  split; [vm_compute; reflexivity|].
  split.
  - match goal with
    | |- Forall _ ?l => replace l with ["password"; "token"]
                          by (vm_compute; reflexivity)
    end.
    repeat constructor; intros (_ & _ & H); vm_compute in H; apply H; reflexivity.
  - vm_compute. discriminate.
Qed.

Lemma X17_witness :
  let r := Fixtures.reconciler Fixtures.weekendOnly Fixtures.mondayNoon in
  let w := Fixtures.world Fixtures.staleSecret in
  exists res err w',
    controller.Reconcile r Fixtures.request w = (res, err, w')
    /\ (forall other, other <> Fixtures.request ->
          controller.cluster w' !! other = controller.cluster w !! other)
    /\ controller.wallClock w' = controller.wallClock w
    /\ controller.getError w' = controller.getError w
    /\ controller.updateError w' = controller.updateError w
    /\ (exists evs,
          controller.recorded w' = (controller.recorded w ++ evs)%list)
    /\ (is_Some err ->
        res = controller.noResult
        /\ controller.cluster w' = controller.cluster w)
    /\ (is_Some (controller.updateError w) ->
        controller.cluster w' = controller.cluster w).
Proof.
  intros r w.
  destruct (controller.Reconcile r Fixtures.request w) as [[res err] w'] eqn:Hrun.
  exists res, err, w'. split; [reflexivity|].
  exact (X17_Reconcile_frame r Fixtures.request w res err w' Hrun).
Defined.

Lemma X18_witness :
  let r := Fixtures.reconciler Fixtures.weekendOnly Fixtures.mondayNoon in
  let w := Fixtures.world Fixtures.staleSecret in
  let secret := Fixtures.staleSecret in
  controller.cluster w !! Fixtures.request = Some secret
  /\ exists res err w',
       controller.Reconcile r Fixtures.request w = (res, err, w')
       /\ exists secret',
            controller.cluster w' !! Fixtures.request = Some secret'
            /\ (forall k, is_Some (controller.Data secret !! k) ->
                          is_Some (controller.Data secret' !! k))
            /\ (forall k, ~ List.In k (Spec.fieldsOf secret) ->
                          controller.Data secret' !! k
                          = controller.Data secret !! k)
            /\ (forall a, a <> controller.AnnotationGeneratedAt ->
                          controller.Annotations secret' !! a
                          = controller.Annotations secret !! a)
            /\ (secret' = secret
                \/ err = None
                   /\ controller.Annotations secret'
                        !! controller.AnnotationGeneratedAt
                      = Some (FormatRFC3339 (controller.now r w))).
Proof.
  intros r w secret.
  assert (Hsecret : controller.cluster w !! Fixtures.request = Some secret)
    by reflexivity.
  split; [exact Hsecret|].
  destruct (controller.Reconcile r Fixtures.request w) as [[res err] w'] eqn:Hrun.
  exists res, err, w'. split; [reflexivity|].
  exact (X18_Reconcile_object r Fixtures.request w secret res err w' Hsecret Hrun).
Defined.

Lemma X19_witness :
  let r := Fixtures.reconciler Fixtures.weekendOnly Fixtures.mondayNoon in
  let w := Fixtures.world Fixtures.staleSecret in
  let secret := Fixtures.staleSecret in
  controller.cluster w !! Fixtures.request = Some secret
  /\ controller.Data secret !! "password" = Some "old-password-value"
  /\ (forall g,
        controller.getGeneratedAtTime r (controller.Annotations secret) = Some g ->
        ~ Spec.due r w (controller.Annotations secret) g "password")
  /\ exists res err w',
       controller.Reconcile r Fixtures.request w = (res, err, w')
       /\ exists secret',
            controller.cluster w' !! Fixtures.request = Some secret'
            /\ controller.Data secret' !! "password" = Some "old-password-value".
Proof.
  intros r w secret.
  assert (Hsecret : controller.cluster w !! Fixtures.request = Some secret)
    by reflexivity.
  assert (Hvalue : controller.Data secret !! "password"
                   = Some "old-password-value") by (vm_compute; reflexivity).
  assert (Hdue : forall g,
             controller.getGeneratedAtTime r (controller.Annotations secret)
             = Some g ->
             ~ Spec.due r w (controller.Annotations secret) g "password").
  { intros g Hg (_ & _ & H). vm_compute in Hg. injection Hg as <-.
    vm_compute in H. apply H. reflexivity. }
  split; [exact Hsecret|]. split; [exact Hvalue|]. split; [exact Hdue|].
  destruct (controller.Reconcile r Fixtures.request w) as [[res err] w'] eqn:Hrun.
  exists res, err, w'. split; [reflexivity|].
  exact (X19_Reconcile_keeps_settled r Fixtures.request w secret "password"
           "old-password-value" res err w' Hsecret Hvalue Hdue Hrun).
Defined.

Lemma X20_witness :
  let r := Fixtures.reconciler Fixtures.weekendOnly Fixtures.mondayNoon in
  let w := Fixtures.world Fixtures.staleSecret in
  let secret := Fixtures.staleSecret in
  controller.cluster w !! Fixtures.request = Some secret
  /\ exists res w',
       controller.Reconcile r Fixtures.request w = (res, None, w')
       /\ exists secret',
            controller.cluster w' !! Fixtures.request = Some secret'
            /\ Forall (fun field =>
                         Cycle.refused r (controller.Annotations secret)
                           (controller.getGeneratedAtTime r
                              (controller.Annotations secret)) field
                         \/ is_Some (controller.Data secret' !! field))
                      (Spec.fieldsOf secret).
Proof.
  intros r w secret.
  assert (Hsecret : controller.cluster w !! Fixtures.request = Some secret)
    by reflexivity.
  split; [exact Hsecret|].
  destruct stale_cycle as (res & w1 & secret1 & g1 & Hrun & _).
  exists res, w1. split; [exact Hrun|].
  exact (X20_Reconcile_fills r Fixtures.request w secret res w1 Hsecret Hrun).
Defined.

Lemma X21_witness :
  let r := Fixtures.reconciler Fixtures.weekendOnly Fixtures.mondayNoon in
  let w := Fixtures.world Fixtures.restingSecret in
  let secret := Fixtures.restingSecret in
  controller.getError w = None
  /\ controller.cluster w !! Fixtures.request = Some secret
  /\ Cycle.quiet r w secret
  /\ exists res w',
       controller.Reconcile r Fixtures.request w = (res, None, w')
       /\ controller.cluster w' = controller.cluster w
       /\ controller.entropy w' = controller.entropy w
       /\ exists evs,
            controller.recorded w' = (controller.recorded w ++ evs)%list
            /\ Forall (fun e => controller.reason e
                                = controller.EventReasonRotationFailed) evs.
Proof.
  intros r w secret.
  assert (Hget : controller.getError w = None) by reflexivity.
  assert (Hsecret : controller.cluster w !! Fixtures.request = Some secret)
    by reflexivity.
  assert (Hquiet : Cycle.quiet r w secret).
  { unfold Cycle.quiet.
    replace (Spec.fieldsOf secret) with ["password"; "token"]
      by (vm_compute; reflexivity).
    constructor; [|constructor; [|constructor]].
    - right. split; [exists "old-password-value"; vm_compute; reflexivity|].
      intros g Hg (_ & _ & H). vm_compute in Hg. injection Hg as <-.
      vm_compute in H. apply H. reflexivity.
    - left. split; [eexists; vm_compute; reflexivity|].
      split; vm_compute; reflexivity. }
  split; [exact Hget|]. split; [exact Hsecret|]. split; [exact Hquiet|].
  exact (X21_Reconcile_quiet r Fixtures.request w secret Hget Hsecret Hquiet).
Defined.

Lemma X22_witness :
  let r := Fixtures.reconciler Fixtures.weekendOnly Fixtures.mondayNoon in
  let w := Fixtures.world Fixtures.staleSecret in
  let secret := Fixtures.staleSecret in
  controller.cluster w !! Fixtures.request = Some secret
  /\ exists res w1 secret1 g1,
       controller.Reconcile r Fixtures.request w = (res, None, w1)
       /\ controller.cluster w1 !! Fixtures.request = Some secret1
       /\ controller.getGeneratedAtTime r (controller.Annotations secret1)
          = Some g1
       /\ Forall (fun field =>
                    ~ Spec.due r w1 (controller.Annotations secret1) g1 field)
                 (Spec.fieldsOf secret1)
       /\ exists res2 w2,
            controller.Reconcile r Fixtures.request w1 = (res2, None, w2)
            /\ controller.cluster w2 = controller.cluster w1
            /\ controller.entropy w2 = controller.entropy w1.
Proof.
  intros r w secret.
  assert (Hsecret : controller.cluster w !! Fixtures.request = Some secret)
    by reflexivity.
  split; [exact Hsecret|].
  destruct stale_cycle as (res & w1 & secret1 & g1 & Hrun & Hs1 & Hg1 & Hnd & _).
  exists res, w1, secret1, g1.
  split; [exact Hrun|]. split; [exact Hs1|]. split; [exact Hg1|].
  split; [exact Hnd|].
  exact (X22_Reconcile_settles r Fixtures.request w secret res w1 secret1 g1
           Hsecret Hrun Hs1 Hg1 Hnd).
Defined.

Lemma X23_witness :
  let r := Fixtures.reconciler Fixtures.weekendOnly Fixtures.mondayNoon in
  let w := Fixtures.world Fixtures.staleSecret in
  let secret := Fixtures.staleSecret in
  let full := Spec.fullIntervals r (controller.Annotations secret)
                (Spec.fieldsOf secret) in
  controller.cluster w !! Fixtures.request = Some secret
  /\ (forall g,
        controller.getGeneratedAtTime r (controller.Annotations secret) = Some g ->
        0 <= Sub (controller.now r w) g)
  /\ Forall (fun interval => interval <= maxInt64) full
  /\ exists res w' secret',
       controller.Reconcile r Fixtures.request w = (res, None, w')
       /\ controller.cluster w' !! Fixtures.request = Some secret'
       /\ controller.Data secret' !! "token" <> controller.Data secret !! "token"
       /\ match Spec.minimumOf full with
          | Some shortest =>
              exists d,
                res = {| controller.Requeue := false;
                         controller.RequeueAfter := d |}
                /\ 0 < d <= shortest
          | None => res = {| controller.Requeue := false;
                             controller.RequeueAfter := 0 |}
          end.
Proof.
  intros r w secret full.
  assert (Hsecret : controller.cluster w !! Fixtures.request = Some secret)
    by reflexivity.
  assert (Hpast : forall g,
             controller.getGeneratedAtTime r (controller.Annotations secret)
             = Some g ->
             0 <= Sub (controller.now r w) g).
  { intros g Hg. vm_compute in Hg. injection Hg as <-. vm_compute. discriminate. }
  assert (Hfit : Forall (fun interval => interval <= maxInt64) full).
  { replace full with [10 * Hour; 10 * Hour] by (vm_compute; reflexivity).
    constructor; [vm_compute; discriminate|].
    constructor; [vm_compute; discriminate|constructor]. }
  split; [exact Hsecret|]. split; [exact Hpast|]. split; [exact Hfit|].
  destruct stale_cycle as (res & w1 & secret1 & g1 & Hrun & Hs1 & _ & _ & Hdiff).
  exists res, w1, secret1.
  split; [exact Hrun|]. split; [exact Hs1|]. split; [exact Hdiff|].
  exact (X23_Reconcile_requeue_after_write r Fixtures.request w secret secret1
           "token" res w1 Hsecret Hrun Hs1 Hdiff Hpast Hfit).
Defined.


Lemma X25_witness :
  let r := Fixtures.reconciler Fixtures.weekendOnly Fixtures.mondayNoon in
  let w := Fixtures.world Fixtures.plainSecret in
  controller.cluster w !! Fixtures.request = Some Fixtures.plainSecret
  /\ controller.hasAutogenerateAnnotation Fixtures.plainSecret = false
  /\ controller.Reconcile r Fixtures.request w
     = (controller.noResult, controller.getError w, w).
Proof.
  intros r w.
  assert (Hsecret : controller.cluster w !! Fixtures.request
                    = Some Fixtures.plainSecret) by reflexivity.
  assert (Hfilter : controller.hasAutogenerateAnnotation Fixtures.plainSecret
                    = false) by (vm_compute; reflexivity).
  split; [exact Hsecret|]. split; [exact Hfilter|].
  exact (X25_filter_loses_nothing r Fixtures.request w Fixtures.plainSecret
           Hsecret Hfilter).
Defined.

Lemma X26_witness :
  let r := Fixtures.reconciler Fixtures.weekendOnly Fixtures.mondayNoon in
  let w := Fixtures.world Fixtures.staleSecret in
  let secret := Fixtures.staleSecret in
  controller.Generator r = generator.asGenerator generator.NewSecretGenerator
  /\ controller.cluster w !! Fixtures.request = Some secret
  /\ List.In "token" (Spec.fieldsOf secret)
  /\ Cycle.owed r w secret "token"
  /\ exists res w',
       controller.Reconcile r Fixtures.request w = (res, None, w')
       /\ exists secret' value,
            controller.cluster w' !! Fixtures.request = Some secret'
            /\ controller.Data secret' !! "token" = Some value
            /\ Z.of_nat (String.length value)
               = controller.getFieldLength r (controller.Annotations secret)
                   "token"
            /\ controller.Annotations secret' !! controller.AnnotationGeneratedAt
               = Some (FormatRFC3339 (controller.now r w)).
Proof.
  intros r w secret.
  assert (HG : controller.Generator r
               = generator.asGenerator generator.NewSecretGenerator)
    by reflexivity.
  assert (Hsecret : controller.cluster w !! Fixtures.request = Some secret)
    by reflexivity.
  assert (Hin : List.In "token" (Spec.fieldsOf secret)).
  { replace (Spec.fieldsOf secret) with ["password"; "token"]
      by (vm_compute; reflexivity).
    right. left. reflexivity. }
  assert (Howed : Cycle.owed r w secret "token").
  { right. split; [vm_compute; reflexivity|].
    intros [_ [_ H]]. vm_compute in H. discriminate. }
  split; [exact HG|]. split; [exact Hsecret|]. split; [exact Hin|].
  split; [exact Howed|].
  destruct stale_cycle as (res & w1 & secret1 & g1 & Hrun & _).
  exists res, w1. split; [exact Hrun|].
  exact (X26_Reconcile_generates r generator.NewSecretGenerator Fixtures.request
           w secret "token" res w1 HG Hsecret Hin Howed Hrun).
Defined.

(** The token of the cycle on [Fixtures.staleSecret]: the first 32
    bytes of the tape, taken into the alphanumeric charset. *)
Example stale_cycle_token :
  let r := Fixtures.reconciler Fixtures.weekendOnly Fixtures.mondayNoon in
  let w' := snd (controller.Reconcile r Fixtures.request
                   (Fixtures.world Fixtures.staleSecret)) in
  (controller.cluster w' !! Fixtures.request)
    ≫= (fun secret' => controller.Data secret' !! "token")
  = Some "WXYZ012345JKLMNOPQRSTUVWXYZ01234".
Proof. vm_compute. reflexivity. Qed.

Lemma X27_witness :
  let m := Fixtures.twoWindows in
  let t := Fixtures.mondayNoon in
  config.Enabled m = true
  /\ config.Windows m <> []
  /\ Forall Schedule.settledWindow (config.Windows m)
  /\ config.IsInAnyWindow m (config.NextWindowStart m t) = true
  /\ is_Some (config.GetActiveWindow m (config.NextWindowStart m t)).
Proof.
  intros m t.
  assert (Hne : config.Windows m <> []) by discriminate.
  assert (Hall : Forall Schedule.settledWindow (config.Windows m)).
  { constructor; [|constructor; [|constructor]];
      (split; [vm_compute; reflexivity|]);
      exists UTC, 0; (split; [reflexivity|]); intros sec; reflexivity. }
  split; [reflexivity|]. split; [exact Hne|]. split; [exact Hall|].
  exact (X27_NextWindowStart_opens_a_window m t eq_refl Hne Hall).
Defined.

Lemma X28_witness :
  let m := Fixtures.lostOnly in
  let t := Fixtures.saturdayFour in
  config.Enabled m = true
  /\ Forall Schedule.deadWindow (config.Windows m)
  /\ config.IsInAnyWindow m t = false
  /\ config.GetActiveWindow m t = None
  /\ config.NextWindowStart m t = zeroTime
  /\ config.DurationUntilNextWindow m t = 0.
Proof.
  intros m t.
  assert (Hall : Forall Schedule.deadWindow (config.Windows m)).
  { constructor; [|constructor]. left. reflexivity. }
  split; [reflexivity|]. split; [exact Hall|].
  exact (X28_dead_windows_never_open m t eq_refl Hall).
Defined.

Lemma X29_witness :
  let r := Fixtures.reconciler Fixtures.weekendOnly Fixtures.mondayNoon in
  let w := Fixtures.world Fixtures.brokenSecret in
  exists res e w',
    controller.Reconcile r Fixtures.request w = (res, Some e, w')
    /\ ((controller.getError w = Some e /\ w' = w)
        \/ (exists secret field cause evs,
              controller.cluster w !! Fixtures.request = Some secret
              /\ List.In field (Spec.fieldsOf secret)
              /\ e = controller.generationError field cause
              /\ controller.recorded w'
                 = (controller.recorded w ++ evs
                    ++ [controller.generationFailedWarning field cause])%list)
        \/ (controller.updateError w = Some e
            /\ exists evs,
                 controller.recorded w' = (controller.recorded w ++ evs)%list
                 /\ Forall (fun ev => controller.eventtype ev
                                      = controller.EventTypeWarning) evs)).
Proof.
  intros r w.
  assert (Hrun : exists res e w',
             controller.Reconcile r Fixtures.request w = (res, Some e, w')).
  { do 3 eexists. vm_compute. reflexivity. }
  destruct Hrun as (res & e & w' & Hrun).
  exists res, e, w'. split; [exact Hrun|].
  exact (X29_Reconcile_errors r Fixtures.request w res e w' Hrun).
Defined.

(** ** The requeue delay on the test objects *)


(** The cycle on [Fixtures.dueSecret] rotates the password and asks to
    be run again after the full hour; the cycle on
    [Fixtures.restingSecret] writes nothing and asks for the nine hours
    that are left of ten. *)
Example requeue_after_rotation :
  let r := Fixtures.reconciler Fixtures.weekendOnly Fixtures.mondayNoon in
  fst (fst (controller.Reconcile r Fixtures.request
              (Fixtures.world Fixtures.dueSecret)))
  = {| controller.Requeue := false; controller.RequeueAfter := 1 * Hour |}.
Proof. vm_compute. reflexivity. Qed.
